(** * Votux backend: anonymous ballot protocol

    A shallow embedding of the vote, tally, tie-break, results and
    proclamation handlers of [src/server.js], of the ballot schema
    ([models/Ballot.js]) and of the central error handler
    ([middleware/errorHandler.js]), followed by the properties of the
    protocol that hold on this code.

    MySQL tables are lists of rows (or a finite map where the table has a
    UNIQUE key that the handlers address), the MongoDB collection is a list
    of documents, JavaScript numbers that count things are [nat], ids are
    [Z], JavaScript objects used as dictionaries keep their property order,
    and the percentage is computed on binary64 floats as the code does.
    A JavaScript string is the sequence of its UTF-16 code units, and a
    [string] here holds code units below 256: the text that the properties
    are about is Latin-1 text.

    A handler is a function from the stores, the request and what the
    request draws from outside (clock, random bytes, database faults) to a
    response, the stores afterwards and the effects performed.  The vote
    handler is given a second time as a machine that advances one [await]
    at a time, so that requests in flight together can be interleaved. *)

From Stdlib Require Import ZArith List String Ascii Bool Lia.
From Stdlib Require Import DecimalString DecimalZ DecimalPos Floats Sorted Permutation.
From stdpp Require Import gmap strings.

Import ListNotations.
Local Open Scope string_scope.
Local Open Scope list_scope.
Local Open Scope Z_scope.

(** ** JavaScript values used by the handlers *)

Module Js.

(** [String(n)] / [n.toString()] for an integer. *)
Definition String_of_Z (z : Z) : string :=
  NilZero.string_of_int (Z.to_int z).

Definition isDigit (c : ascii) : bool :=
  let n := N_of_ascii c in (48 <=? n)%N && (n <=? 57)%N.

Definition digitVal (c : ascii) : Z := Z.of_N (N_of_ascii c) - 48.

(** The longest prefix of decimal digits, read as a number; [acc] is
    [None] until a digit has been seen. *)
Fixpoint digitsPrefix (s : string) (acc : option Z) : option Z :=
  match s with
  | String c s' =>
      if isDigit c
      then digitsPrefix s' (Some (10 * default 0 acc + digitVal c))
      else acc
  | EmptyString => acc
  end.

(** White space and line terminators, which [trim] and [parseInt] skip:
    below 256 these are TAB, LF, VT, FF, CR, the space and the no-break
    space. *)
Definition isSpace (c : ascii) : bool :=
  let n := N_of_ascii c in
  (n =? 32)%N || ((9 <=? n)%N && (n <=? 13)%N) || (n =? 160)%N.

Fixpoint trimStart (s : string) : string :=
  match s with
  | String c s' => if isSpace c then trimStart s' else s
  | EmptyString => s
  end.

(** [parseInt(s, 10)]; [None] is NaN. *)
Definition parseInt (s : string) : option Z :=
  match trimStart s with
  | String "-" s' => Z.opp <$> digitsPrefix s' None
  | String "+" s' => digitsPrefix s' None
  | s' => digitsPrefix s' None
  end.

Fixpoint allDigits (s : string) : bool :=
  match s with
  | String c s' => isDigit c && allDigits s'
  | EmptyString => true
  end.

(** A property key is an array index when it is the canonical decimal
    form of an integer below 2^32 - 1. *)
Definition arrayIndex (k : string) : option Z :=
  if allDigits k then
    match digitsPrefix k None with
    | Some n =>
        if String.eqb (String_of_Z n) k && (n <? 4294967295)
        then Some n else None
    | None => None
    end
  else None.

(** [s.toLowerCase()]: below 256 the capital letters are A to Z and the
    accented capitals 192 to 222 without the multiplication sign 215; the
    small letter of each is 32 further. *)
Definition lowerChar (c : ascii) : ascii :=
  let n := N_of_ascii c in
  if ((65 <=? n)%N && (n <=? 90)%N)
     || ((192 <=? n)%N && (n <=? 222)%N && negb (n =? 215)%N)
  then ascii_of_N (n + 32) else c.

Fixpoint toLowerCase (s : string) : string :=
  match s with
  | String c s' => String (lowerChar c) (toLowerCase s')
  | EmptyString => EmptyString
  end.

Fixpoint startsWith (p s : string) : bool :=
  match p, s with
  | EmptyString, _ => true
  | String a p', String b s' => Ascii.eqb a b && startsWith p' s'
  | String _ _, EmptyString => false
  end.

(** [s.includes(p)] *)
Fixpoint includes (p s : string) : bool :=
  startsWith p s ||
  match s with
  | String _ s' => includes p s'
  | EmptyString => false
  end.

(** *** Objects used as dictionaries

    The own string keys of an ordinary object are enumerated with the
    array indices first, in ascending numeric order, and then the other
    keys in the order of their creation; assigning to an existing key
    keeps its place. *)
Section Object.
Context {V : Type}.

Definition Object := list (string * V).

Fixpoint get (o : Object) (k : string) : option V :=
  match o with
  | [] => None
  | (k', v) :: o' => if String.eqb k k' then Some v else get o' k
  end.

Fixpoint replace (o : Object) (k : string) (v : V) : Object :=
  match o with
  | [] => []
  | (k', v') :: o' =>
      if String.eqb k k' then (k', v) :: o' else (k', v') :: replace o' k v
  end.

Fixpoint insertIndex (o : Object) (n : Z) (k : string) (v : V) : Object :=
  match o with
  | [] => [(k, v)]
  | (k', v') :: o' =>
      match arrayIndex k' with
      | Some n' =>
          if n' <? n then (k', v') :: insertIndex o' n k v
          else (k, v) :: o
      | None => (k, v) :: o
      end
  end.

(** [o[k] = v] *)
Definition set (o : Object) (k : string) (v : V) : Object :=
  match get o k with
  | Some _ => replace o k v
  | None =>
      match arrayIndex k with
      | Some n => insertIndex o n k v
      | None => o ++ [(k, v)]
      end
  end.

(** [Object.keys(o)] *)
Definition keys (o : Object) : list string := map fst o.
End Object.
Arguments Object : clear implicits.

(** *** Numbers *)

(** A count as a JavaScript number (exact below 2^53). *)
Definition Number_of_nat (n : nat) : float :=
  PrimFloat.of_uint63 (Uint63.of_Z (Z.of_nat n)).

Definition twoDigits (n : Z) : string :=
  if n <? 10 then "0" +:+ String_of_Z n else String_of_Z n.

(** The decimal rendering of [n / 100] with two decimals, [0 <= n]. *)
Definition hundredths (n : Z) : string :=
  String_of_Z (n / 100) +:+ "." +:+ twoDigits (n mod 100).

(** The integer [n] for which [n / 100 - m * 2^e] is closest to zero,
    the larger one when two are as close. *)
Definition nearestHundredth (m : positive) (e : Z) : Z :=
  if 0 <=? e then Z.pos m * 100 * 2 ^ e
  else (2 * (Z.pos m * 100) + 2 ^ (- e)) / 2 ^ (1 - e).

(** [x.toFixed(2)], for [|x| < 1e21]. *)
Definition toFixed2 (x : float) : string :=
  match Prim2SF x with
  | S754_zero _ => "0.00"
  | S754_nan => "NaN"
  | S754_infinity s => if s then "-Infinity" else "Infinity"
  | S754_finite s m e =>
      let n := nearestHundredth m e in
      if s then "-" +:+ hundredths n else hundredths n
  end.

End Js.

(** ** Data model *)

(** Row of [voting_records] (MySQL); [UNIQUE KEY unique_vote (voter_id,
    election_id)] is a constraint of the schema, not of this type. *)
Record VotingRecord := {
  vr_voter_id : Z;
  vr_election_id : Z;
  has_voted : bool;
  voted_at : option Z
}.

(** Row of [elections]. *)
Record Election := {
  el_id : Z;
  el_title : string;
  el_description : string;
  el_start_date : Z;
  el_end_date : Z;
  el_is_public : bool;
  el_max_votes : Z;
  el_created_by : Z;
  el_status : string;
  el_institution_id : option Z
}.

(** Row of [candidates]. *)
Record Candidate := {
  cand_id : Z;
  cand_election_id : Z;
  cand_name : string;
  cand_description : string;
  cand_order_position : Z
}.

(** Document of the [Ballot] collection (MongoDB).  It has no voter field.
    The [timestamp], [createdAt] and [updatedAt] dates that the schema adds
    are not read by any handler and are left out. *)
Record Ballot := {
  b_electionId : string;
  encryptedVote : string;
  voteHash : string
}.

(** The object that [encryptVote] returns and the tally parses back. *)
Record EncryptedVote := {
  encryptedData : string;
  iv : string;
  authTag : string
}.

(** The payload that is encrypted. *)
Record VoteData := {
  vd_electionId : string;
  vd_candidateId : string;
  vd_timestamp : string
}.

(** One line of the tally; [percentage] is the string [toFixed] gives. *)
Record ResultEntry := {
  candidateId : string;
  candidateName : string;
  votes : nat;
  percentage : string
}.

(** The value stored in [results_json]: [{ list, tie, tiedCandidates }]. *)
Record ResultsPayload := {
  rp_list : list ResultEntry;
  rp_tie : bool;
  rp_tiedCandidates : list ResultEntry
}.

(** Row of [election_results]; the table is keyed by its UNIQUE
    [election_id]. *)
Record ResultRow := {
  total_votes : nat;
  results_json : ResultsPayload;
  proclaimed : bool;
  proclaimed_at : option Z;
  winner_id : option Z;
  winner_name : option string;
  updated_at : Z
}.

(** The [payload_json] of a row of [election_decisions]. *)
Inductive DecisionPayload :=
| SecondRoundPayload (candidateIds : list Z) (newElectionId : Z) (note : option string)
| RandomDrawPayload (candidateIds : list Z) (winnerId : Z) (seed : string)
    (index : nat) (note : option string)
| RegulatoryPayload (chosenCandidateId : Z) (note : option string).

(** Row of [election_decisions]. *)
Record ElectionDecision := {
  dec_election_id : Z;
  decision_type : string;
  payload_json : DecisionPayload;
  decided_by : Z
}.

#[global] Instance ResultEntry_eq_dec : EqDecision ResultEntry.
Proof. solve_decision. Defined.
#[global] Instance ResultsPayload_eq_dec : EqDecision ResultsPayload.
Proof. solve_decision. Defined.
#[global] Instance ResultRow_eq_dec : EqDecision ResultRow.
Proof. solve_decision. Defined.

(** The two stores.  [next_election_id] and [next_candidate_id] are the
    AUTO_INCREMENT counters that give [insertId]. *)
Record State := {
  voting_records : list VotingRecord;
  elections : list Election;
  candidates : list Candidate;
  ballots : list Ballot;
  election_results : gmap Z ResultRow;
  election_decisions : list ElectionDecision;
  next_election_id : Z;
  next_candidate_id : Z
}.

(** [req.user], as the token middleware sets it. *)
Record User := {
  user_id : Z;
  user_type : string;
  user_institution_id : option Z
}.

(** A thrown error, with the properties the code reads. *)
Record JsError := {
  err_name : string;
  err_code : string;
  err_statusCode : option Z;
  err_status : option Z;
  err_message : string
}.

(** What a handler takes from outside the stores during one request. *)
Record Env := {
  now_iso : string;      (* new Date().toISOString() *)
  NOW : Z;               (* MySQL NOW() / CURRENT_TIMESTAMP *)
  random_iv : string;    (* crypto.randomBytes(16) *)
  random_salt : string;  (* crypto.randomBytes(8).toString('hex') *)
  random_seed : string;  (* crypto.randomBytes(16).toString('hex') *)
  random_int : nat;      (* source of crypto.randomInt *)
  mark_rejected : option JsError
    (* the error with which the database rejects the UPDATE of the vote
       handler, [None] when the UPDATE goes through *)
}.

(** ** The runtime the code calls into

    Node's [crypto], [Buffer] and [JSON], and the configured secret.  A
    buffer is the string of its bytes.  [inl m] is a thrown [Error] with
    message [m], [None] a throw whose message is not used. *)
Class NodeRuntime := {
  NODE_ENV : string;
  ENCRYPTION_KEY : string;
  (* crypto.scryptSync(password, salt, keylen) *)
  scryptSync : string -> string -> nat -> string;
  (* createCipheriv('aes-256-gcm', key, iv), update(text, 'utf8', 'hex'),
     final('hex'), getAuthTag(): the ciphertext in hex and the tag *)
  aes_256_gcm_encrypt : string -> string -> string -> string + (string * string);
  (* createDecipheriv('aes-256-gcm', key, iv), setAuthTag(tag),
     update(data, 'hex', 'utf8'), final('utf8') *)
  aes_256_gcm_decrypt : string -> string -> string -> string -> option string;
  toString_hex : string -> string;      (* buf.toString('hex') *)
  Buffer_from_hex : string -> string;   (* Buffer.from(s, 'hex') *)
  sha256_hex : string -> string;        (* createHash('sha256').update(s).digest('hex') *)
  JSON_stringify_vote : VoteData -> string;
  JSON_parse_vote : string -> option VoteData;
  JSON_stringify : EncryptedVote -> string;
  JSON_parse : string -> option EncryptedVote
}.

(** ** middleware/errorHandler.js *)

Record ErrorResponse := {
  http_status : Z;
  http_message : string
}.

(** A number that may be undefined, when it is truthy. *)
Definition truthyNumber (a : option Z) : option Z :=
  match a with
  | Some c => if c =? 0 then None else Some c
  | None => None
  end.

(** [a || b] *)
Definition firstTruthy (a b : option Z) : option Z :=
  match truthyNumber a with
  | Some c => Some c
  | None => truthyNumber b
  end.

(** The handler answers the errors that reach it: those passed to [next]
    by a route registered before [app.use(errorHandler)] (server.js, line
    1752). *)
Definition errorHandler (node_env : string) (err : JsError) : ErrorResponse :=
  if String.eqb (err_name err) "ValidationError" then
    {| http_status := 400; http_message := "Données invalides" |}
  else if String.eqb (err_name err) "JsonWebTokenError" then
    {| http_status := 401; http_message := "Token invalide" |}
  else if String.eqb (err_name err) "TokenExpiredError" then
    {| http_status := 401; http_message := "Token expiré" |}
  else if String.eqb (err_code err) "ER_DUP_ENTRY" then
    {| http_status := 409; http_message := "Cette ressource existe déjà" |}
  else if String.eqb (err_code err) "ER_NO_REFERENCED_ROW_2" then
    {| http_status := 400; http_message := "Référence invalide" |}
  else if String.eqb (err_name err) "MongoError"
          || String.eqb (err_name err) "MongoServerError" then
    {| http_status := 500; http_message := "Erreur de base de données" |}
  else
    {| http_status := default 500 (firstTruthy (err_statusCode err) (err_status err));
       http_message :=
         if String.eqb node_env "production"
         then "Une erreur est survenue" else err_message err |}.

(** ** models/Ballot.js *)

(** E11000: the unique index on [voteHash] rejects the insert. *)
Definition duplicateKeyError : JsError :=
  {| err_name := "MongoServerError"; err_code := "11000";
     err_statusCode := None; err_status := None;
     err_message := "E11000 duplicate key error collection: ballots index: voteHash_1" |}.

(** A [required] string path rejects the empty string. *)
Definition requiredPathError : JsError :=
  {| err_name := "ValidationError"; err_code := "";
     err_statusCode := None; err_status := None;
     err_message := "Ballot validation failed" |}.

Definition hashTaken (st : State) (h : string) : bool :=
  existsb (fun b => String.eqb (voteHash b) h) (ballots st).

Definition withBallots (st : State) (bs : list Ballot) : State :=
  {| voting_records := voting_records st;
     elections := elections st;
     candidates := candidates st;
     ballots := bs;
     election_results := election_results st;
     election_decisions := election_decisions st;
     next_election_id := next_election_id st;
     next_candidate_id := next_candidate_id st |}.

(** [await new Ballot(b).save()]: the document is new, so the [pre('save')]
    hook lets it through; validation and the unique index decide. *)
Definition Ballot_save (st : State) (b : Ballot) : JsError + State :=
  if String.eqb (b_electionId b) "" || String.eqb (encryptedVote b) ""
     || String.eqb (voteHash b) ""
  then inl requiredPathError
  else if hashTaken st (voteHash b) then inl duplicateKeyError
  else inr (withBallots st (ballots st ++ [b])).

(** [Ballot.find({ electionId })] *)
Definition Ballot_find (st : State) (electionId : string) : list Ballot :=
  List.filter (fun b => String.eqb (b_electionId b) electionId) (ballots st).

(** ** utils/encryption.js *)

(** [iv] is the value of [crypto.randomBytes(16)]. *)
Definition encryptVote `{NodeRuntime} (voteData : VoteData) (electionId : string)
    (iv : string) : string + EncryptedVote :=
  let key := scryptSync ENCRYPTION_KEY electionId 32 in
  match aes_256_gcm_encrypt key iv (JSON_stringify_vote voteData) with
  | inl m => inl m
  | inr (encrypted, authTag) =>
      inr {| encryptedData := encrypted;
             iv := toString_hex iv;
             authTag := toString_hex authTag |}
  end.

Definition decryptVote `{NodeRuntime} (encryptedData electionId iv authTag : string)
  : option VoteData :=
  let key := scryptSync ENCRYPTION_KEY electionId 32 in
  match aes_256_gcm_decrypt key (Buffer_from_hex iv) (Buffer_from_hex authTag)
          encryptedData with
  | Some decrypted => JSON_parse_vote decrypted
  | None => None
  end.

(** [salt] is the value of [crypto.randomBytes(8).toString('hex')]. *)
Definition generateVoteHash `{NodeRuntime} (voterId electionId timestamp salt : string) : string :=
  sha256_hex (voterId +:+ "-" +:+ electionId +:+ "-" +:+ timestamp +:+ "-" +:+ salt).


(** ** Effects a handler performs, in order *)

Inductive Effect :=
| EffEncrypt (v : VoteData)
| EffDecrypt (b : Ballot)
| EffBallotSave (b : Ballot)
| EffMarkVoted (voter election : Z)
| EffUpsertResult (election : Z).

Record Outcome (R : Type) := {
  response : R;
  final : State;
  effects : list Effect
}.
Arguments response {R}.
Arguments final {R}.
Arguments effects {R}.

(** ** POST /api/vote *)

Record VoteRequest := {
  rq_voterId : Z;      (* req.user.id *)
  rq_electionId : Z;   (* req.body.electionId *)
  rq_candidateId : Z   (* req.body.candidateId *)
}.

Inductive VoteResponse :=
| VoteMissingIds          (* 400 'ID du scrutin et du candidat requis' *)
| VoteIneligible          (* 403 *)
| VoteAlreadyVoted        (* 400 'Vous avez déjà voté pour ce scrutin' *)
| VoteElectionNotActive   (* 400 *)
| VoteInvalidCandidate    (* 400 *)
| VoteUnhandled (err : JsError)
    (* a throw: the handler rethrows it and asyncHandler passes it to
       [next]; the route is registered (line 1984) after
       [app.use(errorHandler)] (line 1752), so no middleware of the
       application takes the error and the framework answers it *)
| VoteReceipt (receipt : string).  (* success, receipt = voteHash *)

Definition forPair (voter election : Z) (r : VotingRecord) : bool :=
  (vr_voter_id r =? voter) && (vr_election_id r =? election).

(** SELECT * FROM voting_records WHERE voter_id = ? AND election_id = ? *)
Definition selectVotingRecords (st : State) (voter election : Z) : list VotingRecord :=
  List.filter (forPair voter election) (voting_records st).

(** SELECT * FROM elections WHERE id = ? AND (status = 'ongoing' OR status = 'active') *)
Definition selectActiveElection (st : State) (election : Z) : list Election :=
  List.filter
    (fun e => (el_id e =? election)
              && (String.eqb (el_status e) "ongoing" || String.eqb (el_status e) "active"))
    (elections st).

(** SELECT * FROM candidates WHERE id = ? AND election_id = ? *)
Definition selectCandidate (st : State) (candidate election : Z) : list Candidate :=
  List.filter
    (fun c => (cand_id c =? candidate) && (cand_election_id c =? election))
    (candidates st).

Definition setVoted (now : Z) (voter election : Z) (r : VotingRecord) : VotingRecord :=
  if forPair voter election r
  then {| vr_voter_id := vr_voter_id r; vr_election_id := vr_election_id r;
          has_voted := true; voted_at := Some now |}
  else r.

(** UPDATE voting_records SET has_voted = TRUE, voted_at = NOW()
    WHERE voter_id = ? AND election_id = ? *)
Definition updateVotingRecord (st : State) (now : Z) (voter election : Z) : State :=
  {| voting_records := map (setVoted now voter election) (voting_records st);
     elections := elections st;
     candidates := candidates st;
     ballots := ballots st;
     election_results := election_results st;
     election_decisions := election_decisions st;
     next_election_id := next_election_id st;
     next_candidate_id := next_candidate_id st |}.

Definition encryptionError (m : string) : JsError :=
  {| err_name := "Error"; err_code := ""; err_statusCode := None;
     err_status := None;
     err_message := "Erreur de chiffrement: " +:+ m |}.

Definition voteDataOf (env : Env) (req : VoteRequest) : VoteData :=
  {| vd_electionId := Js.String_of_Z (rq_electionId req);
     vd_candidateId := Js.String_of_Z (rq_candidateId req);
     vd_timestamp := now_iso env |}.

Definition ballotOf `{NodeRuntime} (env : Env) (req : VoteRequest) (enc : EncryptedVote) : Ballot :=
  {| b_electionId := Js.String_of_Z (rq_electionId req);
     encryptedVote := JSON_stringify enc;
     voteHash := generateVoteHash (Js.String_of_Z (rq_voterId req))
                   (Js.String_of_Z (rq_electionId req)) (now_iso env) (random_salt env) |}.

Definition answer {R} (r : R) (st : State) (effs : list Effect) : Outcome R :=
  {| response := r; final := st; effects := effs |}.

(** The handler run from its first line to its response, with no other
    request in between.  The reads are taken to succeed; the vault accepts
    or rejects the ballot as [Ballot_save] says, and the UPDATE that marks
    the voter goes through or is rejected as [mark_rejected] says.  A
    rejected UPDATE comes after the ballot is saved and nothing undoes the
    save. *)
Definition submitVote `{NodeRuntime} (st : State) (env : Env) (req : VoteRequest)
  : Outcome VoteResponse :=
  if (rq_electionId req =? 0) || (rq_candidateId req =? 0) then
    answer VoteMissingIds st []
  else
    match selectVotingRecords st (rq_voterId req) (rq_electionId req) with
    | [] => answer VoteIneligible st []
    | r :: _ =>
        if has_voted r then answer VoteAlreadyVoted st []
        else
          match selectActiveElection st (rq_electionId req) with
          | [] => answer VoteElectionNotActive st []
          | _ :: _ =>
              match selectCandidate st (rq_candidateId req) (rq_electionId req) with
              | [] => answer VoteInvalidCandidate st []
              | _ :: _ =>
                  let voteData := voteDataOf env req in
                  match encryptVote voteData (Js.String_of_Z (rq_electionId req)) (random_iv env) with
                  | inl m =>
                      answer (VoteUnhandled (encryptionError m)) st
                        [EffEncrypt voteData]
                  | inr enc =>
                      let ballot := ballotOf env req enc in
                      match Ballot_save st ballot with
                      | inl err =>
                          answer (VoteUnhandled err) st
                            [EffEncrypt voteData; EffBallotSave ballot]
                      | inr st1 =>
                          match mark_rejected env with
                          | Some err =>
                              answer (VoteUnhandled err) st1
                                [EffEncrypt voteData; EffBallotSave ballot]
                          | None =>
                              answer (VoteReceipt (voteHash ballot))
                                (updateVotingRecord st1 (NOW env)
                                   (rq_voterId req) (rq_electionId req))
                                [EffEncrypt voteData; EffBallotSave ballot;
                                 EffMarkVoted (rq_voterId req) (rq_electionId req)]
                          end
                      end
                  end
              end
          end
    end.

(** *** The same handler, one database round trip at a time

    Every [await] of the handler is a point where another request may run.
    A thread is the handler suspended at one of its awaits; a step performs
    the awaited database operation on the shared stores and runs the
    handler's own code up to the next await. *)
Inductive VoteThread :=
| AtSelectVotingRecords
| AtSelectElection
| AtSelectCandidate
| AtBallotSave (ballot : Ballot)
| AtUpdateVotingRecord (receipt : string)
| Responded (r : VoteResponse).

Definition voteStep `{NodeRuntime} (env : Env) (req : VoteRequest)
    (st : State) (th : VoteThread) : State * VoteThread :=
  match th with
  | AtSelectVotingRecords =>
      if (rq_electionId req =? 0) || (rq_candidateId req =? 0) then
        (st, Responded VoteMissingIds)
      else
        match selectVotingRecords st (rq_voterId req) (rq_electionId req) with
        | [] => (st, Responded VoteIneligible)
        | r :: _ =>
            if has_voted r then (st, Responded VoteAlreadyVoted)
            else (st, AtSelectElection)
        end
  | AtSelectElection =>
      match selectActiveElection st (rq_electionId req) with
      | [] => (st, Responded VoteElectionNotActive)
      | _ :: _ => (st, AtSelectCandidate)
      end
  | AtSelectCandidate =>
      match selectCandidate st (rq_candidateId req) (rq_electionId req) with
      | [] => (st, Responded VoteInvalidCandidate)
      | _ :: _ =>
          match encryptVote (voteDataOf env req)
                  (Js.String_of_Z (rq_electionId req)) (random_iv env) with
          | inl m => (st, Responded (VoteUnhandled (encryptionError m)))
          | inr enc => (st, AtBallotSave (ballotOf env req enc))
          end
      end
  | AtBallotSave ballot =>
      match Ballot_save st ballot with
      | inl err => (st, Responded (VoteUnhandled err))
      | inr st1 => (st1, AtUpdateVotingRecord (voteHash ballot))
      end
  | AtUpdateVotingRecord receipt =>
      match mark_rejected env with
      | Some err => (st, Responded (VoteUnhandled err))
      | None =>
          (updateVotingRecord st (NOW env) (rq_voterId req) (rq_electionId req),
           Responded (VoteReceipt receipt))
      end
  | Responded r => (st, Responded r)
  end.

(** A pool of requests in flight over the shared stores. *)
Definition Pool : Type := State * list VoteThread.

Definition stepThread `{NodeRuntime} (reqs : list (Env * VoteRequest)) (i : nat)
    (cfg : Pool) : Pool :=
  match nth_error reqs i, nth_error (snd cfg) i with
  | Some (env, req), Some th =>
      let '(st', th') := voteStep env req (fst cfg) th in
      (st', <[i := th']> (snd cfg))
  | _, _ => cfg
  end.

(** The schedule names, step after step, the thread that runs. *)
Definition runSchedule `{NodeRuntime} (reqs : list (Env * VoteRequest))
    (schedule : list nat) (cfg : Pool) : Pool :=
  fold_left (fun c i => stepThread reqs i c) schedule cfg.

Definition startAll (st : State) (reqs : list (Env * VoteRequest)) : Pool :=
  (st, map (fun _ => AtSelectVotingRecords) reqs).

(** Requests served one after the other. *)
Fixpoint submitAll `{NodeRuntime} (st : State) (reqs : list (Env * VoteRequest))
  : list (Outcome VoteResponse) :=
  match reqs with
  | [] => []
  | (env, req) :: rest =>
      let o := submitVote st env req in
      o :: submitAll (final o) rest
  end.

Definition finalOfAll (st : State) (os : list (Outcome VoteResponse)) : State :=
  fold_left (fun _ o => final o) os st.

(** ** POST /api/elections/:id/tally *)

Definition isAdmin (u : User) : bool := String.eqb (user_type u) "admin".

(** SELECT COUNT( * ) FROM voting_records WHERE election_id = ? AND has_voted = TRUE *)
Definition countVoted (st : State) (election : Z) : nat :=
  length (List.filter (fun r => (vr_election_id r =? election) && has_voted r)
            (voting_records st)).

(** The body of the [try] in the counting loop; [None] when it throws. *)
Definition decryptBallot `{NodeRuntime} (electionId : string) (b : Ballot) : option VoteData :=
  match JSON_parse (encryptedVote b) with
  | Some enc => decryptVote (encryptedData enc) electionId (iv enc) (authTag enc)
  | None => None
  end.

(** [voteCount[candidateId] = (voteCount[candidateId] || 0) + 1], for a
    key that is not the name of a member of [Object.prototype]. *)
Definition increment (voteCount : Js.Object nat) (k : string) : Js.Object nat :=
  Js.set voteCount k (default 0%nat (Js.get voteCount k) + 1)%nat.

Definition countBallot `{NodeRuntime} (electionId : string)
    (acc : Js.Object nat * nat) (b : Ballot) : Js.Object nat * nat :=
  match decryptBallot electionId b with
  | Some voteData => (increment (fst acc) (vd_candidateId voteData), S (snd acc))
  | None => acc
  end.

(** The counting loop: the [voteCount] object and [decryptedCount]. *)
Definition countVotes `{NodeRuntime} (electionId : string) (bs : list Ballot)
  : Js.Object nat * nat :=
  fold_left (countBallot electionId) bs ([], 0%nat).

(** SELECT id, name FROM candidates WHERE election_id = ?, folded into
    [candidateMap]. *)
Definition candidateMapOf (st : State) (election : Z) : Js.Object string :=
  fold_left (fun m c => Js.set m (Js.String_of_Z (cand_id c)) (cand_name c))
    (List.filter (fun c => cand_election_id c =? election) (candidates st)) [].

(** [candidateMap[candidateId] || 'Candidat inconnu'] *)
Definition nameOf (candidateMap : Js.Object string) (k : string) : string :=
  match Js.get candidateMap k with
  | Some n => if String.eqb n "" then "Candidat inconnu" else n
  | None => "Candidat inconnu"
  end.

(** [((v / n) * 100).toFixed(2)] *)
Definition percentOf (v n : nat) : string :=
  Js.toFixed2 (Js.Number_of_nat v / Js.Number_of_nat n * Js.Number_of_nat 100)%float.

Definition entryOf (voteCount : Js.Object nat) (candidateMap : Js.Object string)
    (ballotsLength : nat) (k : string) : ResultEntry :=
  {| candidateId := k;
     candidateName := nameOf candidateMap k;
     votes := default 0%nat (Js.get voteCount k);
     percentage := percentOf (default 0%nat (Js.get voteCount k)) ballotsLength |}.

(** [results.sort((a, b) => b.votes - a.votes)]: the sort is stable, an
    entry moves in front of those with fewer votes only. *)
Fixpoint insertByVotes (x : ResultEntry) (l : list ResultEntry) : list ResultEntry :=
  match l with
  | [] => [x]
  | y :: l' =>
      if (votes x <? votes y)%nat then y :: insertByVotes x l'
      else x :: y :: l'
  end.

Definition sortByVotes (l : list ResultEntry) : list ResultEntry :=
  fold_right insertByVotes [] l.

Definition resultsOf (voteCount : Js.Object nat) (candidateMap : Js.Object string)
    (ballotsLength : nat) : list ResultEntry :=
  sortByVotes (map (entryOf voteCount candidateMap ballotsLength) (Js.keys voteCount)).

(** [results.length > 0 ? results[0].votes : 0] *)
Definition topVotesOf (results : list ResultEntry) : nat :=
  match results with
  | r :: _ => votes r
  | [] => 0%nat
  end.

(** [results.filter(r => r.votes === topVotes)] *)
Definition tiedCandidatesOf (results : list ResultEntry) : list ResultEntry :=
  List.filter (fun r => (votes r =? topVotesOf results)%nat) results.

(** [tiedCandidates.length > 1 && topVotes > 0] *)
Definition tieOf (results : list ResultEntry) : bool :=
  (1 <? length (tiedCandidatesOf results))%nat && (0 <? topVotesOf results)%nat.

(** [tie ? null : (results[0] || null)] *)
Definition winnerOf (results : list ResultEntry) : option ResultEntry :=
  if tieOf results then None else head results.

Record TallySummary := {
  totalVotes : nat;
  decryptedVotes : nat;
  failedDecryptions : nat
}.

Inductive TallyResponse :=
| TallyForbidden                                       (* 403 *)
| TallyInconsistent (mysqlVotes mongoVotes : nat)      (* 500, details *)
| TallyDone (summary : TallySummary) (results : list ResultEntry)
    (tie : bool) (tiedCandidates : list ResultEntry) (winner : option ResultEntry).

(** What the database answers to the statements that persist the summary. *)
Inductive SqlOutcome := SqlOk | SqlError (message : string).

Record PersistFaults := {
  onCreateTable : SqlOutcome;
  onUpsert : SqlOutcome;
  onUpsertRetry : SqlOutcome
}.

Definition noFault : PersistFaults :=
  {| onCreateTable := SqlOk; onUpsert := SqlOk; onUpsertRetry := SqlOk |}.

Definition withResults (st : State) (rs : gmap Z ResultRow) : State :=
  {| voting_records := voting_records st;
     elections := elections st;
     candidates := candidates st;
     ballots := ballots st;
     election_results := rs;
     election_decisions := election_decisions st;
     next_election_id := next_election_id st;
     next_candidate_id := next_candidate_id st |}.

Definition withUpdatedAt (now : Z) (r : ResultRow) : ResultRow :=
  {| total_votes := total_votes r; results_json := results_json r;
     proclaimed := proclaimed r; proclaimed_at := proclaimed_at r;
     winner_id := winner_id r; winner_name := winner_name r;
     updated_at := now |}.

(** [updated_at ... ON UPDATE CURRENT_TIMESTAMP]: the column follows the
    clock when an UPDATE changes the row, and stays when it changes nothing. *)
Definition touch (now : Z) (old new : ResultRow) : ResultRow :=
  if decide (old = new) then old else withUpdatedAt now new.

(** INSERT INTO election_results (election_id, total_votes, results_json,
    winner_id, winner_name) ... ON DUPLICATE KEY UPDATE (the same four). *)
Definition upsertResult (now : Z) (election : Z) (total : nat)
    (payload : ResultsPayload) (wid : option Z) (wname : option string)
    (st : State) : State :=
  let row :=
    match election_results st !! election with
    | Some old =>
        touch now old
          {| total_votes := total; results_json := payload;
             proclaimed := proclaimed old; proclaimed_at := proclaimed_at old;
             winner_id := wid; winner_name := wname;
             updated_at := updated_at old |}
    | None =>
        {| total_votes := total; results_json := payload;
           proclaimed := false; proclaimed_at := None;
           winner_id := wid; winner_name := wname;
           updated_at := now |}
    end in
  withResults st (<[election := row]> (election_results st)).

(** The test that lets the upsert be replayed after a migration. *)
Definition missingColumn (message : string) : bool :=
  let msg := Js.toLowerCase message in
  Js.includes "unknown column" msg
  && (Js.includes "winner_id" msg || Js.includes "winner_name" msg
      || Js.includes "proclaimed" msg).

(** The [try { CREATE TABLE; doUpsert / migrate / doUpsert } catch { warn }]
    block.  The ALTER TABLE statements of the migration are each in their
    own empty [catch] and change no row. *)
Definition persistResults (faults : PersistFaults) (election : Z)
    (upsert : State -> State) (st : State) : State * list Effect :=
  match onCreateTable faults with
  | SqlError _ => (st, [])
  | SqlOk =>
      match onUpsert faults with
      | SqlOk => (upsert st, [EffUpsertResult election])
      | SqlError m =>
          if missingColumn m then
            match onUpsertRetry faults with
            | SqlOk => (upsert st, [EffUpsertResult election])
            | SqlError _ => (st, [])
            end
          else (st, [])
      end
  end.

(** The handler.  The reads ([Ballot.find], the two SELECTs) are taken to
    succeed; the statements that persist the summary succeed or fail as
    [faults] says.  [winner_id] is [parseInt(winner.candidateId, 10)], NULL
    where that is NaN. *)
Definition runTally `{NodeRuntime} (st : State) (env : Env) (faults : PersistFaults)
    (user : User) (electionId : Z) : Outcome TallyResponse :=
  if negb (isAdmin user) then answer TallyForbidden st []
  else
    let bs := Ballot_find st (Js.String_of_Z electionId) in
    let mysqlVoteCount := countVoted st electionId in
    let mongoVoteCount := length bs in
    if negb (mysqlVoteCount =? mongoVoteCount)%nat then
      answer (TallyInconsistent mysqlVoteCount mongoVoteCount) st []
    else
      let counted := countVotes (Js.String_of_Z electionId) bs in
      let results := resultsOf (fst counted) (candidateMapOf st electionId) (length bs) in
      let tie := tieOf results in
      let tiedCandidates := tiedCandidatesOf results in
      let winner := winnerOf results in
      let persisted :=
        persistResults faults electionId
          (upsertResult (NOW env) electionId (length bs)
             {| rp_list := results; rp_tie := tie; rp_tiedCandidates := tiedCandidates |}
             (w ← winner; Js.parseInt (candidateId w))
             (candidateName <$> winner))
          st in
      answer
        (TallyDone
           {| totalVotes := length bs;
              decryptedVotes := snd counted;
              failedDecryptions := length bs - snd counted |}
           results tie tiedCandidates winner)
        (fst persisted)
        (map EffDecrypt bs ++ snd persisted).

(** ** Institution scope of an administrator *)

Inductive AccessError :=
| AccessRefused          (* 403 'Accès refusé' *)
| AccessNoElection       (* 404 'Scrutin non trouvé' *)
| AccessOtherInstitution (* 403 'Accès refusé pour cette institution' *).

Definition truthyId (i : option Z) : bool :=
  match i with
  | Some z => negb (z =? 0)
  | None => false
  end.

Definition findElection (st : State) (election : Z) : option Election :=
  head (List.filter (fun e => el_id e =? election) (elections st)).

Definition assertAdminCanAccessElection (st : State) (user : User) (election : Z)
  : option AccessError :=
  if negb (isAdmin user) || negb (truthyId (user_institution_id user)) then
    Some AccessRefused
  else
    match findElection st election with
    | None => Some AccessNoElection
    | Some row =>
        if default 0 (el_institution_id row) =? default 0 (user_institution_id user)
        then None
        else Some AccessOtherInstitution
    end.

(** ** GET /api/elections/:id/results *)

Inductive ResultsResponse :=
| ResultsDenied (e : AccessError)
| ResultsNotFound            (* 404 'Aucun résultat disponible pour ce scrutin' *)
| ResultsFound (totalVotes : nat) (results : ResultsPayload) (proclaimed : bool)
    (proclaimedAt : option Z) (winner : option (Z * option string)) (updatedAt : Z).

(** [winner_id ? { id: winner_id, name: winner_name } : null] *)
Definition winnerOfRow (r : ResultRow) : option (Z * option string) :=
  match winner_id r with
  | Some i => if i =? 0 then None else Some (i, winner_name r)
  | None => None
  end.

Definition foundResults (r : ResultRow) : ResultsResponse :=
  ResultsFound (total_votes r) (results_json r) (proclaimed r)
    (proclaimed_at r) (winnerOfRow r) (updated_at r).

Definition getResults (st : State) (user : User) (election : Z) : ResultsResponse :=
  let scoped := isAdmin user && truthyId (user_institution_id user) in
  match (if scoped then assertAdminCanAccessElection st user election else None) with
  | Some e => ResultsDenied e
  | None =>
      match election_results st !! election with
      | None => ResultsNotFound
      | Some r => foundResults r
      end
  end.

(** ** POST /api/elections/:id/proclaim *)

Inductive ProclaimResponse :=
| ProclaimForbidden          (* 403 'Accès réservé aux administrateurs' *)
| ProclaimDenied (e : AccessError)
| ProclaimNoResult           (* 404 'Aucun résultat à proclamer' *)
| Proclaimed (proclaimed : bool) (proclaimedAt : option Z)
    (winner : option (Z * option string)).

(** UPDATE election_results SET proclaimed = 1, proclaimed_at = NOW()
    WHERE election_id = ? *)
Definition setProclaimed (now : Z) (r : ResultRow) : ResultRow :=
  touch now r
    {| total_votes := total_votes r; results_json := results_json r;
       proclaimed := true; proclaimed_at := Some now;
       winner_id := winner_id r; winner_name := winner_name r;
       updated_at := updated_at r |}.

Definition proclaim (st : State) (env : Env) (user : User) (election : Z)
  : ProclaimResponse * State :=
  if negb (isAdmin user) then (ProclaimForbidden, st)
  else
    match assertAdminCanAccessElection st user election with
    | Some e => (ProclaimDenied e, st)
    | None =>
        match election_results st !! election with
        | None => (ProclaimNoResult, st)
        | Some r =>
            let after := setProclaimed (NOW env) r in
            (Proclaimed (proclaimed after) (proclaimed_at after) (winnerOfRow after),
             withResults st (<[election := after]> (election_results st)))
        end
    end.

(** ** POST /api/elections/:id/tie-break *)




(** [winnerId || null], [orig.institution_id || null] *)
Definition idOrNull (i : option Z) : option Z :=
  if truthyId i then i else None.














(** ** Notions in which the properties are stated *)

(** The eligibility record of the pair says the voter has voted:
    [votingRecords[0].has_voted] as the handler reads it. *)
Definition hasVotedIn (st : State) (voter election : Z) : bool :=
  match selectVotingRecords st voter election with
  | r :: _ => has_voted r
  | [] => false
  end.

(** Sorted by votes, the most voted first. *)
Definition Descending : list ResultEntry -> Prop :=
  StronglySorted (fun a b => (votes b <= votes a)%nat).

(** Ballots of the list that decrypt to a vote for candidate [k]. *)
Definition decryptsTo `{NodeRuntime} (electionId k : string) (b : Ballot) : bool :=
  match decryptBallot electionId b with
  | Some v => String.eqb (vd_candidateId v) k
  | None => false
  end.

Definition countFor `{NodeRuntime} (electionId : string) (bs : list Ballot) (k : string) : nat :=
  length (List.filter (decryptsTo electionId k) bs).

(** Ballots of the list that decrypt at all. *)
Definition decrypts `{NodeRuntime} (electionId : string) (b : Ballot) : bool :=
  match decryptBallot electionId b with
  | Some _ => true
  | None => false
  end.

Definition countDecrypted `{NodeRuntime} (electionId : string) (bs : list Ballot) : nat :=
  length (List.filter (decrypts electionId) bs).

Definition isSave (e : Effect) : bool :=
  match e with
  | EffBallotSave _ => true
  | _ => false
  end.


Definition isSome {A} (o : option A) : bool :=
  match o with
  | Some _ => true
  | None => false
  end.

(** The part of a snapshot that a tally writes and a proclamation keeps. *)
Definition content (r : ResultRow) : ResultsPayload * nat * option Z * option string :=
  (results_json r, total_votes r, winner_id r, winner_name r).


(** ** A runtime for evaluating the handlers on examples

    Votes are left in clear: the key is the salt, the "ciphertext" is the
    plaintext, a vote is written as its candidate id, the envelope as its
    ciphertext, and the hash is its input.  The ciphertext ["corrupt"] does
    not decrypt and the empty IV does not encrypt. *)
Definition clearRuntime : NodeRuntime :=
  {| NODE_ENV := "production";
     ENCRYPTION_KEY := "0123456789abcdef0123456789abcdef";
     scryptSync := fun password salt keylen => salt;
     aes_256_gcm_encrypt := fun key i text =>
       if String.eqb i "" then inl "Invalid initialization vector"
       else inr (text, key);
     aes_256_gcm_decrypt := fun key i tag data =>
       if String.eqb data "corrupt" then None else Some data;
     toString_hex := fun b => b;
     Buffer_from_hex := fun s => s;
     sha256_hex := fun s => s;
     JSON_stringify_vote := vd_candidateId;
     JSON_parse_vote := fun s =>
       Some {| vd_electionId := ""; vd_candidateId := s; vd_timestamp := "" |};
     JSON_stringify := encryptedData;
     JSON_parse := fun s => Some {| encryptedData := s; iv := ""; authTag := "" |} |}.

Definition emptyState : State :=
  {| voting_records := []; elections := []; candidates := []; ballots := [];
     election_results := ∅; election_decisions := [];
     next_election_id := 1; next_candidate_id := 1 |}.

Definition voter (v e : Z) (voted : bool) : VotingRecord :=
  {| vr_voter_id := v; vr_election_id := e; has_voted := voted;
     voted_at := if voted then Some 0 else None |}.

Definition electionRow (i : Z) (st : string) (inst : option Z) : Election :=
  {| el_id := i; el_title := "Bureau"; el_description := "";
     el_start_date := 0; el_end_date := 0; el_is_public := true;
     el_max_votes := 1; el_created_by := 1; el_status := st;
     el_institution_id := inst |}.

Definition candidateRow (i e : Z) (n : string) : Candidate :=
  {| cand_id := i; cand_election_id := e; cand_name := n;
     cand_description := ""; cand_order_position := i |}.

Definition clearBallot (e : string) (c : string) (h : string) : Ballot :=
  {| b_electionId := e; encryptedVote := c; voteHash := h |}.

Definition envAt (t : Z) (salt : string) : Env :=
  {| now_iso := "2025-11-01T16:36:00.000Z"; NOW := t; random_iv := "00";
     random_salt := salt; random_seed := "5eed"; random_int := 0;
     mark_rejected := None |}.

Definition admin : User :=
  {| user_id := 1; user_type := "admin"; user_institution_id := Some 1 |}.

(** One election in progress, two candidates, voters 1 and 2 eligible. *)
Definition pollOpen : State :=
  {| voting_records := [voter 1 1 false; voter 2 1 false];
     elections := [electionRow 1 "active" (Some 1)];
     candidates := [candidateRow 1 1 "X"; candidateRow 2 1 "Y"];
     ballots := [];
     election_results := ∅; election_decisions := [];
     next_election_id := 2; next_candidate_id := 3 |}.

Definition voted (e : Z) (voters : list Z) : list VotingRecord :=
  map (fun v => voter v e true) voters.

Definition closedPoll (voters : list Z) (bs : list Ballot) : State :=
  {| voting_records := voted 1 voters;
     elections := [electionRow 1 "completed" (Some 1)];
     candidates := [candidateRow 1 1 "X"; candidateRow 2 1 "Y"];
     ballots := bs;
     election_results := ∅; election_decisions := [];
     next_election_id := 2; next_candidate_id := 3 |}.

(** Seven ballots: three for A, three for B, one for C. *)
Definition abcPoll : State :=
  closedPoll [1; 2; 3; 4; 5; 6; 7]
    [clearBallot "1" "A" "h1"; clearBallot "1" "B" "h2"; clearBallot "1" "A" "h3";
     clearBallot "1" "B" "h4"; clearBallot "1" "A" "h5"; clearBallot "1" "B" "h6";
     clearBallot "1" "C" "h7"].

(** Three ballots: X, X, Y (candidates 1, 1, 2). *)
Definition xxyPoll : State :=
  closedPoll [1; 2; 3]
    [clearBallot "1" "1" "h1"; clearBallot "1" "1" "h2"; clearBallot "1" "2" "h3"].

(** Two ballots, one of which does not decrypt. *)
Definition oneCorrupt : State :=
  closedPoll [1; 2] [clearBallot "1" "1" "h1"; clearBallot "1" "corrupt" "h2"].

(** The ledger says five voters voted, the vault holds four ballots. *)
Definition fiveFour : State :=
  closedPoll [1; 2; 3; 4; 5]
    [clearBallot "1" "1" "h1"; clearBallot "1" "1" "h2"; clearBallot "1" "2" "h3";
     clearBallot "1" "2" "h4"].


Definition entry (k n : string) (v : nat) (p : string) : ResultEntry :=
  {| candidateId := k; candidateName := n; votes := v; percentage := p |}.

(** A snapshot with a winner and no tie: X 2 votes, Y 1 vote. *)
Definition decidedRow : ResultRow :=
  {| total_votes := 3;
     results_json :=
       {| rp_list := [entry "1" "X" 2 "66.67"; entry "2" "Y" 1 "33.33"];
          rp_tie := false;
          rp_tiedCandidates := [entry "1" "X" 2 "66.67"] |};
     proclaimed := false; proclaimed_at := None;
     winner_id := Some 1; winner_name := Some "X";
     updated_at := 10 |}.

Definition decidedPoll : State :=
  withResults xxyPoll {[ 1 := decidedRow ]}.

Definition ballotRequest (v c : Z) : VoteRequest :=
  {| rq_voterId := v; rq_electionId := 1; rq_candidateId := c |}.

(** The vault already holds a ballot under the hash that voter 1 draws
    with the salt ["aa"]. *)
Definition pollWithHash : State :=
  withBallots pollOpen
    [clearBallot "1" "2" "1-1-2025-11-01T16:36:00.000Z-aa"].

(** Two requests of voter 1 for election 1, in flight together. *)
Definition twice : list (Env * VoteRequest) :=
  [(envAt 10 "aa", ballotRequest 1 1); (envAt 11 "bb", ballotRequest 1 2)].

(** * The rest of the backend *)

(** ** Text helpers *)

(** [s.trim()]: white space and line terminators go from both ends. *)
Definition trimEnd (s : string) : string :=
  String.rev (Js.trimStart (String.rev s)).

Definition trim (s : string) : string := trimEnd (Js.trimStart s).

(** [s.length > 0] after trimming. *)
Definition isBlank (s : string) : bool := String.eqb (trim s) "".

Definition hasChar (p : ascii -> bool) (s : string) : bool :=
  existsb p (list_ascii_of_string s).

Definition isUpper (c : ascii) : bool :=
  let n := N_of_ascii c in (65 <=? n)%N && (n <=? 90)%N.

Definition isLower (c : ascii) : bool :=
  let n := N_of_ascii c in (97 <=? n)%N && (n <=? 122)%N.

(** ** utils/passwordValidator.js

    A character of the string stands for one UTF-16 code unit. *)

Record Validation := {
  valid : bool;
  errors : list string
}.

(** [PasswordValidator.validate(password)]; [None] is a value that is not
    a string. *)
Definition validate (password : option string) : Validation :=
  match password with
  | None | Some "" =>
      {| valid := false; errors := ["Le mot de passe est requis"] |}
  | Some p =>
      let errs :=
        (if (String.length p <? 8)%nat
         then ["Le mot de passe doit contenir au moins 8 caractères"] else [])
        ++ (if (128 <? String.length p)%nat
            then ["Le mot de passe ne peut pas dépasser 128 caractères"] else [])
        ++ (if hasChar isUpper p then []
            else ["Le mot de passe doit contenir au moins une majuscule"])
        ++ (if hasChar isLower p then []
            else ["Le mot de passe doit contenir au moins une minuscule"])
        ++ (if hasChar Js.isDigit p then []
            else ["Le mot de passe doit contenir au moins un chiffre"]) in
      {| valid := (length errs =? 0)%nat; errors := errs |}
  end.

(** ** config/env.js *)

(** [process.env]; [None] is an unset variable. *)
Record ProcessEnv := {
  env_NODE_ENV : option string;
  env_JWT_SECRET : option string;
  env_ENCRYPTION_KEY : option string;
  env_MYSQL_DATABASE : option string;
  env_MYSQL_USER : option string;
  env_MONGODB_URI : option string
}.

(** [!process.env.X] *)
Definition unset (v : option string) : bool :=
  match v with
  | None | Some "" => true
  | Some _ => false
  end.

Definition isProduction (e : ProcessEnv) : bool :=
  match env_NODE_ENV e with
  | Some s => String.eqb s "production"
  | None => false
  end.

(** The [errors] array of [validateEnv]. *)
Definition configErrors (e : ProcessEnv) : list string :=
  (match env_JWT_SECRET e with
   | None | Some "" =>
       ["JWT_SECRET est requis. Ne pas utiliser de valeur par défaut en production."]
   | Some s =>
       if String.eqb s "secret_temp" || (String.length s <? 32)%nat
       then ["JWT_SECRET doit être une chaîne sécurisée d'au moins 32 caractères."]
       else []
   end)
  ++ (match env_ENCRYPTION_KEY e with
      | None | Some "" =>
          ["ENCRYPTION_KEY est requis. Ne pas utiliser de valeur par défaut en production."]
      | Some s =>
          if String.eqb s "default_encryption_key_32_bytes_long!"
             || (String.length s <? 32)%nat
          then ["ENCRYPTION_KEY doit être une chaîne sécurisée d'au moins 32 caractères."]
          else []
      end)
  ++ (if unset (env_MYSQL_DATABASE e) then ["MYSQL_DATABASE est requis."] else [])
  ++ (if unset (env_MYSQL_USER e) then ["MYSQL_USER est requis."] else [])
  ++ (if unset (env_MONGODB_URI e) && isProduction e
      then ["MONGODB_URI est requis en production."] else []).

(** The warnings of the development block. *)
Definition configWarnings (e : ProcessEnv) : list string :=
  if isProduction e then []
  else
    (match env_JWT_SECRET e with
     | None | Some "" => []
     | Some s =>
         if (String.length s <? 32)%nat
         then ["JWT_SECRET est trop court. Utilisez au moins 32 caractères en production."]
         else []
     end)
    ++ (match env_ENCRYPTION_KEY e with
        | None | Some "" => []
        | Some s =>
            if (String.length s <? 32)%nat
            then ["ENCRYPTION_KEY est trop court. Utilisez au moins 32 caractères en production."]
            else []
        end).

Inductive Startup :=
| Exit (code : Z) (reported : list string)   (* process.exit(1) *)
| Started (warnings : list string).

Definition validateEnv (e : ProcessEnv) : Startup :=
  match configErrors e with
  | [] => Started (configWarnings e)
  | errs => Exit 1 errs
  end.

(** ** CSV utilities of server.js *)

Definition quoteChar : ascii := "034"%char.
Definition commaChar : ascii := ","%char.
Definition lineFeed : ascii := "010"%char.
Definition carriageReturn : ascii := "013"%char.

Definition snoc (s : string) (c : ascii) : string := s +:+ String c "".

(** The loop of [parseLine]: [out], [cur] and [inQ] over the rest of the
    line. *)
Fixpoint parseLineFrom (line : string) (out : list string) (cur : string)
    (inQ : bool) : list string :=
  match line with
  | EmptyString => out ++ [trim cur]
  | String ch rest =>
      if inQ then
        if Ascii.eqb ch quoteChar then
          match rest with
          | String ch' rest' =>
              if Ascii.eqb ch' quoteChar
              then parseLineFrom rest' out (snoc cur quoteChar) true
              else parseLineFrom rest out cur false
          | EmptyString => parseLineFrom rest out cur false
          end
        else parseLineFrom rest out (snoc cur ch) true
      else if Ascii.eqb ch quoteChar then parseLineFrom rest out cur true
      else if Ascii.eqb ch commaChar then parseLineFrom rest (out ++ [trim cur]) "" false
      else parseLineFrom rest out (snoc cur ch) false
  end.

Definition parseLine (line : string) : list string :=
  parseLineFrom line [] "" false.

(** [s.replace(/\r\n/g, '\n')] *)
Fixpoint replaceCRLF (s : string) : string :=
  match s with
  | EmptyString => EmptyString
  | String c rest =>
      if Ascii.eqb c carriageReturn then
        match rest with
        | String c' rest' =>
            if Ascii.eqb c' lineFeed then String lineFeed (replaceCRLF rest')
            else String c (replaceCRLF rest)
        | EmptyString => String c EmptyString
        end
      else String c (replaceCRLF rest)
  end.

(** [s.replace(/\r/g, '\n')] *)
Fixpoint replaceCR (s : string) : string :=
  match s with
  | EmptyString => EmptyString
  | String c rest =>
      String (if Ascii.eqb c carriageReturn then lineFeed else c) (replaceCR rest)
  end.

(** [s.split('\n')] *)
Fixpoint splitLines (s : string) : list string :=
  match s with
  | EmptyString => [EmptyString]
  | String c rest =>
      if Ascii.eqb c lineFeed then EmptyString :: splitLines rest
      else
        match splitLines rest with
        | l :: ls => String c l :: ls
        | [] => [String c EmptyString]
        end
  end.

Record Csv := {
  csv_headers : list string;
  csv_rows : list (list string)
}.

Definition parseCSV (content : string) : Csv :=
  let lines :=
    List.filter (fun l => negb (isBlank l))
      (splitLines (replaceCR (replaceCRLF content))) in
  match lines with
  | [] => {| csv_headers := []; csv_rows := [] |}
  | first :: others =>
      {| csv_headers := map Js.toLowerCase (parseLine first);
         csv_rows := map parseLine others |}
  end.








(** Every LF written as CR LF, and as CR. *)
Fixpoint toCRLF (s : string) : string :=
  match s with
  | EmptyString => EmptyString
  | String c rest =>
      if Ascii.eqb c lineFeed
      then String carriageReturn (String lineFeed (toCRLF rest))
      else String c (toCRLF rest)
  end.

Fixpoint toCR (s : string) : string :=
  match s with
  | EmptyString => EmptyString
  | String c rest =>
      String (if Ascii.eqb c lineFeed then carriageReturn else c) (toCR rest)
  end.


(** ** Election life cycle and eligibility (server.js) *)

Definition withVotingRecords (st : State) (rs : list VotingRecord) : State :=
  {| voting_records := rs;
     elections := elections st;
     candidates := candidates st;
     ballots := ballots st;
     election_results := election_results st;
     election_decisions := election_decisions st;
     next_election_id := next_election_id st;
     next_candidate_id := next_candidate_id st |}.

Definition withElections (st : State) (es : list Election) : State :=
  {| voting_records := voting_records st;
     elections := es;
     candidates := candidates st;
     ballots := ballots st;
     election_results := election_results st;
     election_decisions := election_decisions st;
     next_election_id := next_election_id st;
     next_candidate_id := next_candidate_id st |}.

(** The answers of the administrative handlers. *)
Inductive AdminResponse :=
| AdminForbidden                       (* 403 'Accès réservé aux administrateurs' *)
| AdminDenied (e : AccessError)        (* the answer of assertAdminCanAccessElection *)
| AdminNotFound (message : string)     (* 404 *)
| AdminBadRequest (message : string)   (* 400 *)
| AdminOk (message : string).          (* success *)

(** The statuses as GET /api/elections shows them; [None] is NULL. *)
Definition normalizeStatus (status : option string) : string :=
  let s0 := match status with
            | None | Some "" => "pending"
            | Some s => s
            end in
  let s1 := if String.eqb s0 "draft" then "pending" else s0 in
  let s2 := if String.eqb s1 "active" then "ongoing" else s1 in
  if String.eqb s2 "completed" then "closed" else s2.

Definition setStatus (status : string) (election : Z) (e : Election) : Election :=
  if el_id e =? election then
    {| el_id := el_id e; el_title := el_title e; el_description := el_description e;
       el_start_date := el_start_date e; el_end_date := el_end_date e;
       el_is_public := el_is_public e; el_max_votes := el_max_votes e;
       el_created_by := el_created_by e; el_status := status;
       el_institution_id := el_institution_id e |}
  else e.

(** UPDATE elections SET status = ? WHERE id = ? *)
Definition updateStatus (st : State) (status : string) (election : Z) : State :=
  withElections st (map (setStatus status election) (elections st)).

(** SELECT * FROM elections WHERE id = ? *)
Definition selectElection (st : State) (election : Z) : list Election :=
  List.filter (fun e => el_id e =? election) (elections st).

Definition setElectionStatus (status message : string) (st : State) (user : User)
    (election : Z) : AdminResponse * State :=
  if negb (isAdmin user) then (AdminForbidden, st)
  else
    match assertAdminCanAccessElection st user election with
    | Some e => (AdminDenied e, st)
    | None =>
        match selectElection st election with
        | [] => (AdminNotFound "Scrutin non trouvé", st)
        | _ :: _ => (AdminOk message, updateStatus st status election)
        end
    end.

(** POST /api/elections/:id/start *)
Definition startElection : State -> User -> Z -> AdminResponse * State :=
  setElectionStatus "active" "Scrutin démarré avec succès".

(** POST /api/elections/:id/close *)
Definition closeElection : State -> User -> Z -> AdminResponse * State :=
  setElectionStatus "completed" "Scrutin clôturé".

(** POST /api/elections *)
Record CandidateInput := {
  ci_name : string;
  ci_description : string;
  ci_order_position : option Z;
  ci_order : option Z
}.

Record ElectionInput := {
  in_title : option string;
  in_description : string;
  in_start_date : option Z;
  in_end_date : option Z;
  in_is_public : option bool;
  in_max_votes : option Z;
  in_candidates : option (list CandidateInput)
}.

Inductive CreateResponse :=
| CreateForbidden
| CreateBadRequest            (* 400 'Titre, date de début et date de fin sont requis' *)
| Created (electionId : Z).

(** [candidate.order_position || candidate.order || 0] *)
Definition orderOf (c : CandidateInput) : Z :=
  match idOrNull (ci_order_position c) with
  | Some p => p
  | None => default 0 (idOrNull (ci_order c))
  end.

Fixpoint insertCandidates (election : Z) (firstId : Z) (cs : list CandidateInput)
  : list Candidate :=
  match cs with
  | [] => []
  | c :: rest =>
      {| cand_id := firstId; cand_election_id := election;
         cand_name := ci_name c; cand_description := ci_description c;
         cand_order_position := orderOf c |}
      :: insertCandidates election (firstId + 1) rest
  end.

Definition createElection (st : State) (user : User) (input : ElectionInput)
  : CreateResponse * State :=
  if negb (isAdmin user) then (CreateForbidden, st)
  else
    match in_title input, idOrNull (in_start_date input), idOrNull (in_end_date input) with
    | Some title, Some start_date, Some end_date =>
        if String.eqb title "" then (CreateBadRequest, st)
        else
          let electionId := next_election_id st in
          let added := insertCandidates electionId (next_candidate_id st)
                         (default [] (in_candidates input)) in
          (Created electionId,
           {| voting_records := voting_records st;
              elections := elections st ++
                [{| el_id := electionId; el_title := title;
                    el_description := in_description input;
                    el_start_date := start_date; el_end_date := end_date;
                    el_is_public := default false (in_is_public input);
                    el_max_votes := default 1 (idOrNull (in_max_votes input));
                    el_created_by := user_id user; el_status := "draft";
                    el_institution_id := idOrNull (user_institution_id user) |}];
              candidates := candidates st ++ added;
              ballots := ballots st;
              election_results := election_results st;
              election_decisions := election_decisions st;
              next_election_id := electionId + 1;
              next_candidate_id := next_candidate_id st + Z.of_nat (length added) |})
    | _, _, _ => (CreateBadRequest, st)
    end.

(** INSERT IGNORE INTO voting_records (voter_id, election_id, has_voted)
    VALUES (?, ?, FALSE).  The row is dropped when the pair is already there
    (the unique key of every schema of the repository) and when the
    database does not accept the reference ([referenced], the foreign keys
    of the schemas that have them). *)
Definition insertIgnoreVotingRecord (referenced : Z -> bool) (election : Z)
    (st : State) (voterId : Z) : State :=
  if existsb (forPair voterId election) (voting_records st)
     || negb (referenced voterId)
  then st
  else withVotingRecords st
         (voting_records st ++
            [{| vr_voter_id := voterId; vr_election_id := election;
                has_voted := false; voted_at := None |}]).

(** POST /api/elections/:id/eligible-voters; [None] is a [voterIds] that is
    not an array. *)
Definition addEligibleVoters (referenced : Z -> bool) (st : State) (user : User)
    (election : Z) (voterIds : option (list Z)) : AdminResponse * State :=
  if negb (isAdmin user) then (AdminForbidden, st)
  else
    match assertAdminCanAccessElection st user election with
    | Some e => (AdminDenied e, st)
    | None =>
        match voterIds with
        | None | Some [] => (AdminBadRequest "voterIds requis", st)
        | Some ids =>
            (AdminOk "Électeurs ajoutés",
             fold_left (insertIgnoreVotingRecord referenced election) ids st)
        end
    end.

(** DELETE FROM voting_records WHERE election_id = ? AND voter_id = ? *)
Definition deleteVotingRecord (st : State) (voterId election : Z) : State :=
  withVotingRecords st
    (List.filter (fun r => negb (forPair voterId election r)) (voting_records st)).

(** DELETE /api/elections/:id/eligible-voters/:voterId as it is registered
    first (line 1253): the record goes, whatever its [has_voted]. *)
Definition removeEligibleVoter (st : State) (user : User) (election voterId : Z)
  : AdminResponse * State :=
  if negb (isAdmin user) then (AdminForbidden, st)
  else
    match selectVotingRecords st voterId election with
    | [] => (AdminNotFound "Éligibilité introuvable", st)
    | _ :: _ => (AdminOk "Électeur retiré du scrutin", deleteVotingRecord st voterId election)
    end.


(** GET /api/elections/:id/my-status *)
Record MyStatus := {
  eligible : bool;
  hasVoted : bool;
  votedAt : option Z
}.

Definition myStatus (st : State) (voterId election : Z) : MyStatus :=
  match selectVotingRecords st voterId election with
  | [] => {| eligible := false; hasVoted := false; votedAt := None |}
  | r :: _ => {| eligible := true; hasVoted := has_voted r; votedAt := voted_at r |}
  end.

(** GET /api/elections/:id/summary *)
Inductive SummaryResponse :=
| SummaryDenied (e : AccessError)
| SummaryNotFound
| Summary (election : Election) (totalEligible voted : nat).

(** SELECT COUNT( * ) FROM voting_records WHERE election_id = ? *)
Definition countEligible (st : State) (election : Z) : nat :=
  length (List.filter (fun r => vr_election_id r =? election) (voting_records st)).

Definition electionSummary (st : State) (user : User) (election : Z) : SummaryResponse :=
  let scoped := isAdmin user && truthyId (user_institution_id user) in
  match (if scoped then assertAdminCanAccessElection st user election else None) with
  | Some e => SummaryDenied e
  | None =>
      match findElection st election with
      | None => SummaryNotFound
      | Some e => Summary e (countEligible st election) (countVoted st election)
      end
  end.

(** DELETE /api/elections/:id.  [mongoFails] says that [Ballot.deleteMany]
    throws, which the handler catches and only logs. *)
Definition deleteElection (st : State) (mongoFails : bool) (user : User) (election : Z)
  : AdminResponse * State :=
  if negb (isAdmin user) then (AdminForbidden, st)
  else
    match assertAdminCanAccessElection st user election with
    | Some e => (AdminDenied e, st)
    | None =>
        match selectElection st election with
        | [] => (AdminNotFound "Scrutin non trouvé", st)
        | _ :: _ =>
            (AdminOk "Scrutin supprimé avec succès",
             {| voting_records :=
                  List.filter (fun r => negb (vr_election_id r =? election))
                    (voting_records st);
                elections :=
                  List.filter (fun e => negb (el_id e =? election)) (elections st);
                candidates :=
                  List.filter (fun c => negb (cand_election_id c =? election))
                    (candidates st);
                ballots :=
                  if mongoFails then ballots st
                  else List.filter
                         (fun b => negb (String.eqb (b_electionId b)
                                           (Js.String_of_Z election)))
                         (ballots st);
                election_results := delete election (election_results st);
                election_decisions := election_decisions st;
                next_election_id := next_election_id st;
                next_candidate_id := next_candidate_id st |})
        end
    end.

(** ** Notions for the properties of the rest *)

(** The unique key of [voting_records]. *)
Definition pairOf (r : VotingRecord) : Z * Z := (vr_voter_id r, vr_election_id r).

Definition uniquePairs (st : State) : Prop :=
  NoDup (map pairOf (voting_records st)).

(** The unique index of the vault. *)
Definition uniqueHashes (st : State) : Prop :=
  NoDup (map voteHash (ballots st)).

(** The ledger and the vault agree on an election: what the tally checks. *)
Definition consistent (st : State) (election : Z) : Prop :=
  countVoted st election = length (Ballot_find st (Js.String_of_Z election)).

Definition wellKept (st : State) : Prop :=
  uniquePairs st /\ uniqueHashes st /\ forall election, consistent st election.

(** What an administrator and the voters do, one request after the other. *)
Inductive Operation :=
| OpVote (env : Env) (req : VoteRequest)
| OpAddEligible (user : User) (election : Z) (voterIds : option (list Z))
| OpStart (user : User) (election : Z)
| OpClose (user : User) (election : Z)
| OpCreate (user : User) (input : ElectionInput)
| OpTally (env : Env) (faults : PersistFaults) (user : User) (election : Z)
| OpProclaim (env : Env) (user : User) (election : Z)
| OpDelete (user : User) (election : Z).

Definition perform `{NodeRuntime} (referenced : Z -> bool) (st : State) (op : Operation)
  : State :=
  match op with
  | OpVote env req => final (submitVote st env req)
  | OpAddEligible user election ids =>
      snd (addEligibleVoters referenced st user election ids)
  | OpStart user election => snd (startElection st user election)
  | OpClose user election => snd (closeElection st user election)
  | OpCreate user input => snd (createElection st user input)
  | OpTally env faults user election => final (runTally st env faults user election)
  | OpProclaim env user election => snd (proclaim st env user election)
  | OpDelete user election => snd (deleteElection st false user election)
  end.

Definition performAll `{NodeRuntime} (referenced : Z -> bool) (st : State)
    (ops : list Operation) : State :=
  fold_left (perform referenced) ops st.

(** The UPDATE that marks the voter goes through in a vote. *)
Definition markGoesThrough (op : Operation) : bool :=
  match op with
  | OpVote env _ => negb (isSome (mark_rejected env))
  | _ => true
  end.

(** The sum of the votes of the lines of a result. *)
Definition totalOf (results : list ResultEntry) : nat :=
  list_sum (map votes results).

(** What a reader with access finds for a winner of the tally. *)
Definition storedWinner (winner : option ResultEntry) : option (Z * option string) :=
  match winner with
  | Some w =>
      match Js.parseInt (candidateId w) with
      | Some i => if i =? 0 then None else Some (i, Some (candidateName w))
      | None => None
      end
  | None => None
  end.

Definition readerMayRead (st : State) (reader : User) (election : Z) : bool :=
  if isAdmin reader && truthyId (user_institution_id reader)
  then negb (isSome (assertAdminCanAccessElection st reader election))
  else true.







(** The content has no carriage return. *)
Definition noCR (s : string) : bool :=
  negb (hasChar (fun c => Ascii.eqb c carriageReturn) s).

(** Two states with the same ledger of voters and the same vault. *)
Definition sameLedger (st st' : State) : Prop :=
  voting_records st' = voting_records st /\ ballots st' = ballots st.

(** A runtime like [clearRuntime] in which every ciphertext decrypts, and
    whose parsers read back what is written for a vote in election 1 cast
    at the time and with the IV of [envAt]. *)
Definition readBackRuntime : NodeRuntime :=
  {| NODE_ENV := "production";
     ENCRYPTION_KEY := "0123456789abcdef0123456789abcdef";
     scryptSync := fun password salt keylen => salt;
     aes_256_gcm_encrypt := fun key i text => inr (text, key);
     aes_256_gcm_decrypt := fun key i tag data => Some data;
     toString_hex := fun b => b;
     Buffer_from_hex := fun s => s;
     sha256_hex := fun s => s;
     JSON_stringify_vote := vd_candidateId;
     JSON_parse_vote := fun s =>
       Some {| vd_electionId := "1"; vd_candidateId := s;
               vd_timestamp := "2025-11-01T16:36:00.000Z" |};
     JSON_stringify := encryptedData;
     JSON_parse := fun s => Some {| encryptedData := s; iv := "00"; authTag := "1" |} |}.




(** * Properties *)

(** ** The JavaScript helpers on examples *)

Example String_of_Z_12 : Js.String_of_Z 12 = "12".
Proof. reflexivity. Qed.

Example parseInt_prefix : Js.parseInt " 42abc" = Some 42.
Proof. reflexivity. Qed.

Example parseInt_NaN : Js.parseInt "X" = None.
Proof. reflexivity. Qed.

Example keys_indices_first :
  Js.keys (Js.set (Js.set (Js.set (Js.set [] "b" 1%nat) "10" 2%nat) "9" 3%nat) "b" 4%nat)
  = ["9"; "10"; "b"].
Proof. reflexivity. Qed.

Example toFixed2_two_thirds :
  Js.toFixed2 (Js.Number_of_nat 2 / Js.Number_of_nat 3 * Js.Number_of_nat 100)%float = "66.67".
Proof. vm_compute. reflexivity. Qed.

Example toFixed2_tie_rounds_up :
  Js.toFixed2 (Js.Number_of_nat 1 / Js.Number_of_nat 160 * Js.Number_of_nat 100)%float = "0.63".
Proof. vm_compute. reflexivity. Qed.

Example toFixed2_all :
  Js.toFixed2 (Js.Number_of_nat 5 / Js.Number_of_nat 5 * Js.Number_of_nat 100)%float = "100.00".
Proof. vm_compute. reflexivity. Qed.

Example includes_unknown_column :
  Js.includes "unknown column" (Js.toLowerCase "Unknown column 'winner_id' in 'field list'") = true.
Proof. reflexivity. Qed.

(** ** Objects as dictionaries *)

Section ObjectFacts.
Context {V : Type}.
Implicit Types (o : Js.Object V) (k : string) (v : V).

Lemma get_replace o k v k' :
  Js.get (Js.replace o k v) k' =
  if String.eqb k' k then (fun _ => v) <$> Js.get o k else Js.get o k'.
Proof.
  induction o as [|[k0 v0] o IH]; simpl.
  - by destruct (String.eqb k' k).
  - destruct (String.eqb k k0) eqn:Ek; simpl.
    + apply String.eqb_eq in Ek as ->.
      by destruct (String.eqb k' k0).
    + destruct (String.eqb k' k0) eqn:Ek'; simpl.
      * apply String.eqb_eq in Ek' as ->.
        rewrite String.eqb_sym in Ek. by rewrite Ek.
      * apply IH.
Qed.

Lemma get_cons_absent o k0 v0 k :
  Js.get ((k0, v0) :: o) k = None ->
  String.eqb k k0 = false /\ Js.get o k = None.
Proof. simpl. by destruct (String.eqb k k0). Qed.

Lemma get_here o k v k' :
  Js.get ((k, v) :: o) k' = if String.eqb k' k then Some v else Js.get o k'.
Proof. reflexivity. Qed.

Lemma get_insertIndex o n k v k' :
  Js.get o k = None ->
  Js.get (Js.insertIndex o n k v) k' =
  if String.eqb k' k then Some v else Js.get o k'.
Proof.
  induction o as [|[k0 v0] o IH]; intros Habs.
  - reflexivity.
  - apply get_cons_absent in Habs as [Hne Habs].
    cbn [Js.insertIndex].
    destruct (Js.arrayIndex k0) as [n0|]; [destruct (n0 <? n)|];
      try apply get_here.
    rewrite !get_here, (IH Habs).
    destruct (String.eqb k' k0) eqn:E0, (String.eqb k' k) eqn:E; try done.
    apply String.eqb_eq in E0, E. subst. by rewrite String.eqb_refl in Hne.
Qed.

Lemma get_append o k v k' :
  Js.get o k = None ->
  Js.get (o ++ [(k, v)]) k' =
  if String.eqb k' k then Some v else Js.get o k'.
Proof.
  induction o as [|[k0 v0] o IH]; intros Habs.
  - simpl. by destruct (String.eqb k' k).
  - apply get_cons_absent in Habs as [Hne Habs].
    change (((k0, v0) :: o) ++ [(k, v)]) with ((k0, v0) :: (o ++ [(k, v)])).
    rewrite !get_here, (IH Habs).
    destruct (String.eqb k' k0) eqn:E0, (String.eqb k' k) eqn:E; try done.
    apply String.eqb_eq in E0, E. subst. by rewrite String.eqb_refl in Hne.
Qed.

(** Reading after [o[k] = v]. *)
Lemma get_set o k v k' :
  Js.get (Js.set o k v) k' = if String.eqb k' k then Some v else Js.get o k'.
Proof.
  unfold Js.set. destruct (Js.get o k) eqn:Hk.
  - rewrite get_replace, Hk. reflexivity.
  - destruct (Js.arrayIndex k).
    + by apply get_insertIndex.
    + by apply get_append.
Qed.

(** The enumerated keys are the keys that read back. *)
Lemma keys_get o k : In k (Js.keys o) <-> is_Some (Js.get o k).
Proof.
  induction o as [|[k0 v0] o IH]; simpl.
  - split; [done | by intros [? ?]].
  - destruct (String.eqb k k0) eqn:E.
    + apply String.eqb_eq in E. split; eauto.
    + apply String.eqb_neq in E. rewrite <- IH. split; [|by right].
      intros [?|?]; congruence.
Qed.
End ObjectFacts.

(** ** The stable sort by votes *)

Lemma insertByVotes_perm x l : Permutation (insertByVotes x l) (x :: l).
Proof.
  induction l as [|y l IH]; simpl; [done|].
  destruct (votes x <? votes y)%nat; [|done].
  rewrite IH. apply perm_swap.
Qed.

Lemma sortByVotes_perm l : Permutation (sortByVotes l) l.
Proof.
  induction l as [|x l IH]; simpl; [done|].
  rewrite insertByVotes_perm. by constructor.
Qed.

Lemma insertByVotes_sorted x l : Descending l -> Descending (insertByVotes x l).
Proof.
  induction 1 as [|y l Hl IH Hy]; simpl.
  - repeat constructor.
  - destruct (votes x <? votes y)%nat eqn:E.
    + apply Nat.ltb_lt in E. constructor; [done|].
      rewrite insertByVotes_perm. constructor; [lia | done].
    + apply Nat.ltb_ge in E. constructor; [by constructor|].
      constructor; [done|].
      eapply Forall_impl; [exact Hy|]. simpl. intros; lia.
Qed.

Lemma sortByVotes_sorted l : Descending (sortByVotes l).
Proof.
  induction l; simpl; [constructor | by apply insertByVotes_sorted].
Qed.

Lemma descending_top l : Descending l -> topVotesOf l = list_max (map votes l).
Proof.
  destruct 1 as [|x l _ Hx]; [done|].
  simpl. apply Nat.le_antisymm; [lia|].
  apply Nat.max_lub; [done|].
  apply list_max_le, Forall_map. exact Hx.
Qed.

(** ** The counting loop *)

Section Counting.
Context `{NodeRuntime}.
Implicit Types (bs : list Ballot) (k : string).

Lemma get_increment (voteCount : Js.Object nat) k k' :
  Js.get (increment voteCount k) k' =
  if String.eqb k' k then Some (default 0 (Js.get voteCount k) + 1)%nat
  else Js.get voteCount k'.
Proof. apply get_set. Qed.

Lemma countFor_cons electionId b bs k :
  countFor electionId (b :: bs) k =
  ((if decryptsTo electionId k b then 1 else 0) + countFor electionId bs k)%nat.
Proof. unfold countFor. simpl. by destruct (decryptsTo electionId k b). Qed.

(** What the loop leaves under a key: what was there plus the ballots
    that decrypt to that key; a key nothing decrypts to is not created. *)
Lemma get_countBallots electionId bs acc k :
  Js.get (fst (fold_left (countBallot electionId) bs acc)) k =
  match countFor electionId bs k with
  | O => Js.get (fst acc) k
  | S c => Some (default 0 (Js.get (fst acc) k) + S c)%nat
  end.
Proof.
  revert acc. induction bs as [|b bs IH]; intros acc; [done|].
  cbn [fold_left]. rewrite IH, countFor_cons.
  unfold countBallot, decryptsTo.
  destruct (decryptBallot electionId b) as [v|]; [|done].
  cbn [fst]. rewrite get_increment, (String.eqb_sym k).
  destruct (String.eqb (vd_candidateId v) k) eqn:E.
  - apply String.eqb_eq in E as ->.
    destruct (countFor electionId bs k); simpl; f_equal; lia.
  - reflexivity.
Qed.

Lemma get_countVotes electionId bs k :
  Js.get (fst (countVotes electionId bs)) k =
  match countFor electionId bs k with
  | O => None
  | S c => Some (S c)
  end.
Proof. unfold countVotes. rewrite get_countBallots. reflexivity. Qed.

Lemma snd_countBallots electionId bs acc :
  snd (fold_left (countBallot electionId) bs acc) =
  (snd acc + countDecrypted electionId bs)%nat.
Proof.
  revert acc. induction bs as [|b bs IH]; intros acc.
  - simpl. unfold countDecrypted. simpl. lia.
  - cbn [fold_left]. rewrite IH. unfold countBallot, countDecrypted.
    cbn [List.filter]. unfold decrypts at 2.
    destruct (decryptBallot electionId b); simpl; lia.
Qed.

Lemma snd_countVotes electionId bs :
  snd (countVotes electionId bs) = countDecrypted electionId bs.
Proof. unfold countVotes. by rewrite snd_countBallots. Qed.

Lemma countDecrypted_le electionId bs :
  (countDecrypted electionId bs <= length bs)%nat.
Proof. apply filter_length_le. Qed.

(** Every line of the results stands for a key of [voteCount], with the
    number of ballots that decrypt to it, which is at least one. *)
Lemma results_entries electionId bs candidateMap n r :
  In r (resultsOf (fst (countVotes electionId bs)) candidateMap n) ->
  votes r = countFor electionId bs (candidateId r)
  /\ (1 <= votes r)%nat
  /\ percentage r = percentOf (votes r) n.
Proof.
  unfold resultsOf. intros Hr.
  apply (Permutation_in _ (sortByVotes_perm _)) in Hr.
  apply in_map_iff in Hr as (k & <- & Hk).
  apply keys_get in Hk as [c Hc].
  unfold entryOf; simpl. rewrite Hc. simpl.
  rewrite get_countVotes in Hc.
  destruct (countFor electionId bs k); [done|].
  injection Hc as <-. split; [done|]. split; [lia | done].
Qed.
End Counting.

(** ** The tie rule *)

Lemma results_sorted (voteCount : Js.Object nat) candidateMap n :
  Descending (resultsOf voteCount candidateMap n).
Proof. apply sortByVotes_sorted. Qed.

Lemma tiedCandidates_spec results r :
  In r (tiedCandidatesOf results) <->
  In r results /\ votes r = topVotesOf results.
Proof.
  unfold tiedCandidatesOf. rewrite filter_In, Nat.eqb_eq. reflexivity.
Qed.

Lemma tieOf_spec results :
  tieOf results = true <->
  (1 < length (tiedCandidatesOf results))%nat /\ (0 < topVotesOf results)%nat.
Proof.
  unfold tieOf. rewrite andb_true_iff, !Nat.ltb_lt. reflexivity.
Qed.

(** Without a tie and with every line at one vote or more, the top line
    is alone at the top and is the winner. *)
Lemma sole_top_entry results :
  Forall (fun r => (1 <= votes r)%nat) results ->
  tieOf results = false ->
  (results = [] /\ winnerOf results = None)
  \/ exists w, tiedCandidatesOf results = [w] /\ winnerOf results = Some w.
Proof.
  intros Hpos Htie. unfold winnerOf. rewrite Htie.
  destruct results as [|r rest]; [by left|]. right. exists r.
  split; [|done].
  unfold tieOf in Htie. apply andb_false_iff in Htie.
  assert (Hr : (1 <= votes r)%nat) by (by inversion Hpos).
  destruct Htie as [Hlen|Htop].
  - apply Nat.ltb_ge in Hlen. revert Hlen.
    unfold tiedCandidatesOf. cbn [topVotesOf List.filter].
    rewrite Nat.eqb_refl. cbn [length].
    destruct (List.filter _ rest); [done | simpl; lia].
  - apply Nat.ltb_ge in Htop. simpl in Htop. lia.
Qed.

Lemma runTally_done `{NodeRuntime} st env faults user election
    summary results tie tiedCandidates winner :
  response (runTally st env faults user election)
  = TallyDone summary results tie tiedCandidates winner ->
  let bs := Ballot_find st (Js.String_of_Z election) in
  isAdmin user = true
  /\ countVoted st election = length bs
  /\ results = resultsOf (fst (countVotes (Js.String_of_Z election) bs))
                 (candidateMapOf st election) (length bs)
  /\ tie = tieOf results
  /\ tiedCandidates = tiedCandidatesOf results
  /\ winner = winnerOf results
  /\ summary = {| totalVotes := length bs;
                  decryptedVotes := countDecrypted (Js.String_of_Z election) bs;
                  failedDecryptions :=
                    length bs - countDecrypted (Js.String_of_Z election) bs |}.
Proof.
  unfold runTally.
  destruct (isAdmin user); [|done]. cbn [negb].
  destruct (countVoted st election =? _)%nat eqn:E; [|done].
  apply Nat.eqb_eq in E. cbn [negb answer response].
  intros [= <- <- <- <- <-]. rewrite snd_countVotes. done.
Qed.

(** C3.  Tie rule.  In every successful tally the top count is the
    largest count of the list (0 when the election has no ballot), the tied
    candidates are exactly the lines at that count, there is a tie exactly
    when more than one line is at a positive top count, and the winner is
    null on a tie and the only top line otherwise.  Counts A:3, B:3, C:1
    give a tie between A and B and no winner. *)
Theorem tie_rule `{NodeRuntime} st env faults user election
    summary results tie tiedCandidates winner :
  response (runTally st env faults user election)
  = TallyDone summary results tie tiedCandidates winner ->
  let topVotes := list_max (map votes results) in
  topVotesOf results = topVotes
  /\ (totalVotes summary = 0%nat -> topVotes = 0%nat)
  /\ (forall r, In r tiedCandidates <-> In r results /\ votes r = topVotes)
  /\ (tie = true <-> (1 < length tiedCandidates)%nat /\ (0 < topVotes)%nat)
  /\ (tie = true -> winner = None)
  /\ (tie = false ->
      (results = [] /\ winner = None)
      \/ exists w, tiedCandidates = [w] /\ winner = Some w)
  /\ (let abc := resultsOf [("A", 3%nat); ("B", 3%nat); ("C", 1%nat)] [] 7 in
      tieOf abc = true
      /\ map candidateId (tiedCandidatesOf abc) = ["A"; "B"]
      /\ winnerOf abc = None).
Proof.
  intros Hrun topVotes.
  apply runTally_done in Hrun as (_ & _ & Hres & -> & -> & -> & ->).
  assert (Htop : topVotesOf results = topVotes).
  { subst results. apply descending_top, results_sorted. }
  split; [exact Htop|]. split.
  { cbn [totalVotes]. intros Hlen. apply length_zero_iff_nil in Hlen.
    rewrite <- Htop, Hres, Hlen. reflexivity. }
  split.
  { intros r. rewrite <- Htop. apply tiedCandidates_spec. }
  split.
  { rewrite <- Htop. apply tieOf_spec. }
  split.
  { unfold winnerOf. by intros ->. }
  split.
  { apply sole_top_entry. apply List.Forall_forall. intros r Hr.
    rewrite Hres in Hr. by apply results_entries in Hr as (_ & ? & _). }
  vm_compute. done.
Qed.

Lemma tie_rule_witness :
  exists summary results tiedCandidates,
    response (runTally (H:=clearRuntime) abcPoll (envAt 10 "") noFault admin 1)
    = TallyDone summary results true tiedCandidates None
    /\ map candidateId tiedCandidates = ["A"; "B"]
    /\ (true = true <->
        (1 < length tiedCandidates)%nat /\ (0 < list_max (map votes results))%nat).
Proof.
  eexists _, _, _.
  assert (Hrun : response (runTally (H:=clearRuntime) abcPoll (envAt 10 "") noFault admin 1)
                 = TallyDone _ _ true _ None) by (vm_compute; reflexivity).
  split; [exact Hrun|]. split; [reflexivity|].
  exact (proj1 (proj2 (proj2 (proj2 (tie_rule _ _ _ _ _ _ _ _ _ _ Hrun))))).
Defined.

(** ** Percentages *)

(** C6, as the code has it.  In every successful tally the percentage of a
    line is its votes divided by the number of ballots found in the vault
    for the election, decrypted or not, times 100, with two decimals; the
    votes of a line are the ballots that decrypt to its candidate, and the
    ballots found are the decrypted ones plus the failed ones. *)
Theorem percentage_over_all_ballots `{NodeRuntime} st env faults user election
    summary results tie tiedCandidates winner :
  response (runTally st env faults user election)
  = TallyDone summary results tie tiedCandidates winner ->
  let bs := Ballot_find st (Js.String_of_Z election) in
  totalVotes summary = length bs
  /\ decryptedVotes summary = countDecrypted (Js.String_of_Z election) bs
  /\ totalVotes summary = (decryptedVotes summary + failedDecryptions summary)%nat
  /\ forall r, In r results ->
       votes r = countFor (Js.String_of_Z election) bs (candidateId r)
       /\ percentage r = percentOf (votes r) (totalVotes summary).
Proof.
  intros Hrun bs.
  apply runTally_done in Hrun as (_ & _ & Hres & _ & _ & _ & ->).
  cbn [totalVotes decryptedVotes failedDecryptions]. fold bs.
  split; [done|]. split; [done|]. split.
  { pose proof (countDecrypted_le (Js.String_of_Z election) bs). lia. }
  intros r Hr. rewrite Hres in Hr.
  apply results_entries in Hr as (? & _ & ?). done.
Qed.

Lemma percentage_over_all_ballots_witness :
  exists summary x y,
    response (runTally (H:=clearRuntime) xxyPoll (envAt 10 "") noFault admin 1)
    = TallyDone summary [x; y] false [x] (Some x)
    /\ (candidateName x, votes x, percentage x) = ("X", 2%nat, "66.67")
    /\ (candidateName y, votes y, percentage y) = ("Y", 1%nat, "33.33")
    /\ percentage x = percentOf (votes x) (totalVotes summary).
Proof.
  eexists _, _, _.
  assert (Hrun : response (runTally (H:=clearRuntime) xxyPoll (envAt 10 "") noFault admin 1)
                 = TallyDone _ [_; _] false [_] (Some _)) by (vm_compute; reflexivity).
  split; [exact Hrun|]. split; [reflexivity|]. split; [reflexivity|].
  apply (percentage_over_all_ballots _ _ _ _ _ _ _ _ _ _ Hrun). by left.
Defined.

(** C6, as stated, fails: a ballot that does not decrypt stays in the
    denominator.  One ballot for X and one undecryptable ballot give X
    50.00, where one vote out of one decrypted ballot would be 100.00. *)
Lemma percentage_denominator_counts_failed_ballots :
  exists summary x tiedCandidates winner,
    response (runTally (H:=clearRuntime) oneCorrupt (envAt 10 "") noFault admin 1)
    = TallyDone summary [x] false tiedCandidates winner
    /\ (decryptedVotes summary, failedDecryptions summary) = (1%nat, 1%nat)
    /\ percentage x = "50.00"
    /\ percentOf (votes x) (decryptedVotes summary) = "100.00"
    /\ percentage x <> percentOf (votes x) (decryptedVotes summary).
Proof.
  eexists _, _, _, _.
  split; [vm_compute; reflexivity|].
  split; [reflexivity|].
  split; [reflexivity|].
  split; [vm_compute; reflexivity|].
  vm_compute. discriminate.
Qed.

(** ** The consistency guard *)

(** C2.  When the number of records with has_voted differs from the number
    of ballots of the election, the tally answers with the inconsistency
    and both counts, runs the counting loop on no ballot, and leaves every
    store as it was. *)
Theorem tally_consistency_guard `{NodeRuntime} st env faults user election :
  countVoted st election <> length (Ballot_find st (Js.String_of_Z election)) ->
  final (runTally st env faults user election) = st
  /\ effects (runTally st env faults user election) = []
  /\ response (runTally st env faults user election)
     = if isAdmin user
       then TallyInconsistent (countVoted st election)
              (length (Ballot_find st (Js.String_of_Z election)))
       else TallyForbidden.
Proof.
  intros Hne. unfold runTally.
  destruct (isAdmin user); [|done]. cbn [negb].
  apply Nat.eqb_neq in Hne. rewrite Hne. done.
Qed.

Lemma tally_consistency_guard_witness :
  runTally (H:=clearRuntime) fiveFour (envAt 10 "") noFault admin 1
  = answer (TallyInconsistent 5 4) fiveFour [].
Proof.
  destruct (tally_consistency_guard (H:=clearRuntime) fiveFour (envAt 10 "") noFault admin 1)
    as (Hst & Heff & Hresp).
  { vm_compute. lia. }
  destruct (runTally fiveFour (envAt 10 "") noFault admin 1) as [r s e].
  simpl in *. subst. reflexivity.
Defined.

(** ** Persisting the summary *)





(** ** Proclamation *)

Lemma setProclaimed_spec now r :
  proclaimed (setProclaimed now r) = true
  /\ proclaimed_at (setProclaimed now r) = Some now
  /\ content (setProclaimed now r) = content r.
Proof.
  unfold setProclaimed, touch.
  case_decide as Heq; [|done].
  rewrite Heq at 1 2 3. done.
Qed.

Lemma setProclaimed_again now r :
  setProclaimed now (setProclaimed now r) = setProclaimed now r.
Proof.
  destruct (setProclaimed_spec now r) as (Hp & Hat & Hc).
  unfold content in Hc. injection Hc as Hj Ht Hw Hn.
  unfold setProclaimed at 1. unfold touch.
  case_decide as Heq; [done|].
  exfalso. apply Heq. destruct (setProclaimed now r); simpl in *.
  by subst.
Qed.

Lemma proclaim_cases st env user election :
  (snd (proclaim st env user election) = st
   /\ (forall p a w, fst (proclaim st env user election) <> Proclaimed p a w)
   /\ (isAdmin user = false
       \/ is_Some (assertAdminCanAccessElection st user election)
       \/ election_results st !! election = None))
  \/ (exists r,
        election_results st !! election = Some r
        /\ isAdmin user = true
        /\ assertAdminCanAccessElection st user election = None
        /\ proclaim st env user election
           = (Proclaimed true (Some (NOW env)) (winnerOfRow r),
              withResults st (<[election := setProclaimed (NOW env) r]> (election_results st)))).
Proof.
  unfold proclaim.
  destruct (isAdmin user); cbn [negb]; [|left; auto].
  destruct (assertAdminCanAccessElection st user election) as [e|];
    [left; split; [done|]; split; [done|]; right; left; by eexists|].
  destruct (election_results st !! election) as [r|] eqn:Hr; [|left; auto].
  right. exists r. repeat split.
  destruct (setProclaimed_spec (NOW env) r) as (-> & -> & Hc).
  unfold content in Hc. injection Hc as _ _ Hw Hn.
  unfold winnerOfRow. by rewrite Hw, Hn.
Qed.

Lemma access_withResults st rs user election :
  assertAdminCanAccessElection (withResults st rs) user election
  = assertAdminCanAccessElection st user election.
Proof. reflexivity. Qed.

(** C9.  Proclamation fails, and changes nothing, when the election has
    no snapshot.  When it has one and the administrator may act, only that
    row changes: it is flagged proclaimed at the present time, and its
    results, total, winner id and winner name are kept.  After a second
    call the content and the flag are what they were after the first (the
    whole store is, when the clock has not moved). *)
Theorem proclaim_frame st env user election :
  (election_results st !! election = None ->
   snd (proclaim st env user election) = st
   /\ (forall p a w, fst (proclaim st env user election) <> Proclaimed p a w)
   /\ (isAdmin user = true ->
       assertAdminCanAccessElection st user election = None ->
       fst (proclaim st env user election) = ProclaimNoResult))
  /\ (forall r,
       election_results st !! election = Some r ->
       isAdmin user = true ->
       assertAdminCanAccessElection st user election = None ->
       exists r',
         proclaim st env user election
         = (Proclaimed true (Some (NOW env)) (winnerOfRow r),
            withResults st (<[election := r']> (election_results st)))
         /\ proclaimed r' = true
         /\ proclaimed_at r' = Some (NOW env)
         /\ results_json r' = results_json r
         /\ total_votes r' = total_votes r
         /\ winner_id r' = winner_id r
         /\ winner_name r' = winner_name r)
  /\ (forall env2,
       let st1 := snd (proclaim st env user election) in
       let st2 := snd (proclaim st1 env2 user election) in
       content <$> election_results st2 !! election
       = content <$> election_results st1 !! election
       /\ proclaimed <$> election_results st2 !! election
          = proclaimed <$> election_results st1 !! election
       /\ (forall other, other <> election ->
           election_results st2 !! other = election_results st !! other)
       /\ (NOW env2 = NOW env -> st2 = st1)).
Proof.
  split; [|split].
  - intros Hnone. unfold proclaim. rewrite Hnone.
    destruct (isAdmin user); cbn [negb]; [|done].
    by destruct (assertAdminCanAccessElection st user election).
  - intros r Hr Hadmin Hacc.
    destruct (proclaim_cases st env user election)
      as [(_ & _ & [?|[[? ?]|?]])|(r0 & Hr0 & _ & _ & ->)]; try congruence.
    assert (r0 = r) as -> by congruence.
    exists (setProclaimed (NOW env) r). split; [done|].
    destruct (setProclaimed_spec (NOW env) r) as (? & ? & Hc).
    unfold content in Hc. injection Hc as ? ? ? ?. done.
  - intros env2 st1 st2.
    destruct (proclaim_cases st env user election)
      as [(Hst & _ & Hwhy)|(r & Hr & Hadmin & Hacc & Hp)].
    + (* the first call changed nothing, the second neither *)
      assert (Hst2 : st2 = st1).
      { subst st2 st1. rewrite Hst. unfold proclaim.
        destruct Hwhy as [Hw|[[e Hw]|Hw]]; rewrite Hw; [done| |].
        - by destruct (isAdmin user).
        - destruct (isAdmin user); cbn [negb]; [|done].
          by destruct (assertAdminCanAccessElection st user election). }
      rewrite Hst2. repeat split; try done.
      intros other _. subst st1. by rewrite Hst.
    + assert (Hst1 : st1 = withResults st
                (<[election := setProclaimed (NOW env) r]> (election_results st)))
        by (subst st1; by rewrite Hp).
      assert (Hst2 : st2 = withResults st
                (<[election := setProclaimed (NOW env2) (setProclaimed (NOW env) r)]>
                   (election_results st))).
      { subst st2. rewrite Hst1. unfold proclaim.
        rewrite Hadmin, access_withResults, Hacc. cbn [negb election_results withResults].
        rewrite lookup_insert_eq. cbn [snd]. unfold withResults. cbn.
        by rewrite insert_insert_eq. }
      rewrite Hst1, Hst2. cbn [election_results withResults].
      rewrite !lookup_insert_eq. cbn.
      destruct (setProclaimed_spec (NOW env) r) as (Hp1 & _ & Hc1).
      destruct (setProclaimed_spec (NOW env2) (setProclaimed (NOW env) r))
        as (Hp2 & _ & Hc2).
      split; [by rewrite Hc2|]. split; [by rewrite Hp1, Hp2|]. split.
      * intros other Hne. by rewrite lookup_insert_ne.
      * intros ->. by rewrite setProclaimed_again.
Qed.

Lemma proclaim_frame_witness :
  exists r',
    proclaim decidedPoll (envAt 20 "") admin 1
    = (Proclaimed true (Some 20) (Some (1, Some "X")),
       withResults decidedPoll (<[1 := r']> (election_results decidedPoll)))
    /\ content r' = content decidedRow.
Proof.
  destruct (proclaim_frame decidedPoll (envAt 20 "") admin 1) as (_ & Hrow & _).
  destruct (Hrow decidedRow eq_refl eq_refl eq_refl)
    as (r' & Hp & _ & _ & Hj & Ht & Hw & Hn).
  exists r'. split; [exact Hp|].
  unfold content. by rewrite Hj, Ht, Hw, Hn.
Defined.

(** ** Tie-break *)


(** ** The vote cipher *)

(** The two wrappers derive the same key and undo each other's encodings:
    when the cipher opens what it sealed, hex decoding undoes hex encoding
    and the vote is parsed back from its JSON text, decrypting what
    [encryptVote] returned gives the vote back. *)
Lemma cipher_round_trip `{NodeRuntime} voteData electionId i enc :
  (forall key text ct tag,
      aes_256_gcm_encrypt key i text = inr (ct, tag) ->
      aes_256_gcm_decrypt key i tag ct = Some text) ->
  (forall b, Buffer_from_hex (toString_hex b) = b) ->
  JSON_parse_vote (JSON_stringify_vote voteData) = Some voteData ->
  encryptVote voteData electionId i = inr enc ->
  decryptVote (encryptedData enc) electionId (iv enc) (authTag enc) = Some voteData.
Proof.
  intros Hopen Hhex Hjson. unfold encryptVote, decryptVote.
  destruct (aes_256_gcm_encrypt _ i _) as [m|[ct tag]] eqn:Hseal; [done|].
  intros [= <-]. cbn [encryptedData iv authTag].
  by rewrite !Hhex, (Hopen _ _ _ _ Hseal).
Qed.









(** ** Voting *)

Lemma forPair_setVoted now v e v' e' r :
  forPair v' e' (setVoted now v e r) = forPair v' e' r.
Proof. unfold setVoted. by destruct (forPair v e r). Qed.

Lemma select_after_update st now v e v' e' :
  selectVotingRecords (updateVotingRecord st now v e) v' e'
  = map (setVoted now v e) (selectVotingRecords st v' e').
Proof.
  unfold selectVotingRecords. cbn [voting_records updateVotingRecord].
  induction (voting_records st) as [|r rs IH]; [done|].
  cbn [map List.filter]. rewrite forPair_setVoted, IH.
  by destruct (forPair v' e' r).
Qed.

Lemma has_voted_setVoted now v e r :
  has_voted (setVoted now v e r) = has_voted r || forPair v e r.
Proof.
  unfold setVoted. destruct (forPair v e r); cbn; by rewrite ?orb_true_r, ?orb_false_r.
Qed.

Lemma select_forPair st v e r rest :
  selectVotingRecords st v e = r :: rest -> forPair v e r = true.
Proof.
  intros Hsel.
  assert (Hin : In r (selectVotingRecords st v e)) by (rewrite Hsel; by left).
  by apply filter_In in Hin as [_ ?].
Qed.

(** The UPDATE never clears a mark, and sets the mark of its own pair. *)
Lemma hasVotedIn_after_update st now v e v' e' :
  hasVotedIn (updateVotingRecord st now v e) v' e'
  = match selectVotingRecords st v' e' with
    | r :: _ => has_voted r || forPair v e r
    | [] => false
    end.
Proof.
  unfold hasVotedIn. rewrite select_after_update.
  destruct (selectVotingRecords st v' e'); [done|].
  apply has_voted_setVoted.
Qed.

Lemma Ballot_save_ok st b st1 :
  Ballot_save st b = inr st1 ->
  st1 = withBallots st (ballots st ++ [b])
  /\ hashTaken st (voteHash b) = false
  /\ String.eqb (b_electionId b) "" || String.eqb (encryptedVote b) ""
     || String.eqb (voteHash b) "" = false.
Proof.
  unfold Ballot_save. destruct (_ || _); [done|].
  destruct (hashTaken st (voteHash b)); [done|]. by intros [= <-].
Qed.

Lemma select_withBallots st bs v e :
  selectVotingRecords (withBallots st bs) v e = selectVotingRecords st v e.
Proof. reflexivity. Qed.

Section Vote.
Context `{NodeRuntime}.

(** The three ways a request ends: nothing is changed and no receipt is
    given; or one ballot is appended, the pair is marked and the hash of
    the ballot is the receipt; or one ballot is appended and the UPDATE is
    rejected, which leaves the ballot in the vault, the pair unmarked and
    the request without receipt. *)
Lemma submitVote_cases st env req :
  let o := submitVote st env req in
  (final o = st
   /\ (forall h, response o <> VoteReceipt h)
   /\ (length (List.filter isSave (effects o)) <= 1)%nat)
  \/ (exists b r rest,
        selectVotingRecords st (rq_voterId req) (rq_electionId req) = r :: rest
        /\ has_voted r = false
        /\ Ballot_save st b = inr (withBallots st (ballots st ++ [b]))
        /\ List.filter isSave (effects o) = [EffBallotSave b]
        /\ ((mark_rejected env = None
             /\ response o = VoteReceipt (voteHash b)
             /\ final o = updateVotingRecord (withBallots st (ballots st ++ [b]))
                            (NOW env) (rq_voterId req) (rq_electionId req))
            \/ (exists err,
                  mark_rejected env = Some err
                  /\ response o = VoteUnhandled err
                  /\ final o = withBallots st (ballots st ++ [b])))).
Proof.
  unfold submitVote.
  destruct (_ || _); [left; cbn; auto|].
  destruct (selectVotingRecords st _ _) as [|r rest] eqn:Hsel; [left; cbn; auto|].
  destruct (has_voted r) eqn:Hr; [left; cbn; auto|].
  destruct (selectActiveElection st _); [left; cbn; auto|].
  destruct (selectCandidate st _ _); [left; cbn; auto|].
  destruct (encryptVote _ _ _) as [m|enc]; [left; cbn; auto|].
  destruct (Ballot_save st (ballotOf env req enc)) as [err|st1] eqn:Hsave;
    [left; cbn; auto|].
  right. apply Ballot_save_ok in Hsave as Hst1. destruct Hst1 as [-> _].
  exists (ballotOf env req enc), r, rest.
  destruct (mark_rejected env) as [err|]; cbn [answer response final effects].
  - repeat split; try done. right. by exists err.
  - repeat split; try done. by left.
Qed.

Lemma submitVote_receipt st env req h :
  response (submitVote st env req) = VoteReceipt h ->
  hasVotedIn (final (submitVote st env req)) (rq_voterId req) (rq_electionId req) = true
  /\ length (ballots (final (submitVote st env req))) = S (length (ballots st)).
Proof.
  intros Hresp.
  destruct (submitVote_cases st env req)
    as [(_ & Hno & _)|(b & r & rest & Hsel & Hr & _ & _ & Hend)].
  { by destruct (Hno h). }
  destruct Hend as [(_ & _ & ->)|(err & _ & Herr & _)]; [|congruence].
  split.
  - rewrite hasVotedIn_after_update, select_withBallots.
    rewrite Hsel, (select_forPair _ _ _ _ _ Hsel). apply orb_true_r.
  - cbn. rewrite length_app. cbn. lia.
Qed.

(** A marked pair stays marked, whoever votes next. *)
Lemma submitVote_keeps_mark st env req v e :
  hasVotedIn st v e = true ->
  hasVotedIn (final (submitVote st env req)) v e = true.
Proof.
  intros Hv.
  destruct (submitVote_cases st env req)
    as [(-> & _)|(b & _ & _ & _ & _ & _ & _ & Hend)]; [done|].
  destruct Hend as [(_ & _ & ->)|(err & _ & _ & ->)]; [|exact Hv].
  rewrite hasVotedIn_after_update, select_withBallots. unfold hasVotedIn in Hv.
  destruct (selectVotingRecords st v e); [done|]. by rewrite Hv.
Qed.

Lemma submitAll_keeps_mark st reqs v e :
  hasVotedIn st v e = true ->
  hasVotedIn (finalOfAll st (submitAll st reqs)) v e = true.
Proof.
  revert st. induction reqs as [|[env req] reqs IH]; intros st Hv; [done|].
  cbn [submitAll]. unfold finalOfAll. cbn [fold_left].
  apply IH. by apply submitVote_keeps_mark.
Qed.

(** A request of a marked pair stops at the eligibility check. *)
Lemma submitVote_marked st env req :
  hasVotedIn st (rq_voterId req) (rq_electionId req) = true ->
  submitVote st env req
  = answer (if (rq_electionId req =? 0) || (rq_candidateId req =? 0)
            then VoteMissingIds else VoteAlreadyVoted) st [].
Proof.
  unfold hasVotedIn, submitVote. intros Hv.
  destruct (_ || _); [done|].
  destruct (selectVotingRecords st _ _); [done|]. by rewrite Hv.
Qed.

(** The same under interleaving: no step of any request clears a mark, and
the first step of a request of a marked pair is its last. *)
Lemma voteStep_keeps_mark env req st th v e :
  hasVotedIn st v e = true ->
  hasVotedIn (fst (voteStep env req st th)) v e = true.
Proof.
  intros Hv. destruct th as [| | |b|h|r]; cbn [voteStep].
  - destruct (_ || _); [done|].
    destruct (selectVotingRecords st _ _) as [|r rest]; [done|].
    by destruct (has_voted r).
  - by destruct (selectActiveElection st _).
  - destruct (selectCandidate st _ _); [done|].
    by destruct (encryptVote _ _ _).
  - destruct (Ballot_save st b) as [err|st1] eqn:Hsave; [done|].
    apply Ballot_save_ok in Hsave as [-> _]. exact Hv.
  - destruct (mark_rejected env); [done|].
    cbn [fst]. rewrite hasVotedIn_after_update. unfold hasVotedIn in Hv.
    destruct (selectVotingRecords st v e); [done|]. by rewrite Hv.
  - done.
Qed.

Lemma runSchedule_keeps_mark reqs schedule cfg v e :
  hasVotedIn (fst cfg) v e = true ->
  hasVotedIn (fst (runSchedule reqs schedule cfg)) v e = true.
Proof.
  revert cfg. induction schedule as [|i schedule IH]; intros cfg Hv; [done|].
  cbn [runSchedule fold_left]. apply IH. unfold stepThread.
  destruct (nth_error reqs i) as [[env req]|]; [|done].
  destruct (nth_error (snd cfg) i) as [th|]; [|done].
  pose proof (voteStep_keeps_mark env req (fst cfg) th v e Hv) as Hstep.
  by destruct (voteStep env req (fst cfg) th).
Qed.

Lemma voteStep_marked st env req :
  hasVotedIn st (rq_voterId req) (rq_electionId req) = true ->
  rq_electionId req <> 0 -> rq_candidateId req <> 0 ->
  voteStep env req st AtSelectVotingRecords = (st, Responded VoteAlreadyVoted).
Proof.
  unfold hasVotedIn. intros Hv He Hc. cbn [voteStep].
  apply Z.eqb_neq in He, Hc. rewrite He, Hc. cbn [orb].
  destruct (selectVotingRecords st _ _); [done|]. by rewrite Hv.
Qed.
End Vote.

(** While the record of a pair stays marked, the pair is refused.  Once a
    request of a pair has been answered with a receipt, the pair is marked;
    every later vote request of the pair, whatever vote requests were
    served in between, is answered that the voter has already voted (when
    it names a candidate) with no encryption, no write to the vault and no
    change of any store; and so is a request that starts while other vote
    requests are in flight. *)
Lemma marked_pair_is_refused `{NodeRuntime} st env req receipt :
  response (submitVote st env req) = VoteReceipt receipt ->
  let v := rq_voterId req in
  let e := rq_electionId req in
  let st1 := final (submitVote st env req) in
  hasVotedIn st1 v e = true
  /\ (forall between env' req',
       rq_voterId req' = v -> rq_electionId req' = e ->
       let st2 := finalOfAll st1 (submitAll st1 between) in
       final (submitVote st2 env' req') = st2
       /\ effects (submitVote st2 env' req') = []
       /\ (rq_candidateId req' <> 0 ->
           response (submitVote st2 env' req') = VoteAlreadyVoted))
  /\ (forall reqs schedule threads env' req',
       rq_voterId req' = v -> rq_electionId req' = e -> rq_candidateId req' <> 0 ->
       let st2 := fst (runSchedule reqs schedule (st1, threads)) in
       voteStep env' req' st2 AtSelectVotingRecords = (st2, Responded VoteAlreadyVoted)).
Proof.
  intros Hresp v e st1.
  destruct (submitVote_receipt _ _ _ _ Hresp) as [Hmark Hlen].
  fold v e st1 in Hmark. fold st1 in Hlen.
  assert (He : e <> 0).
  { intros He. revert Hresp. unfold submitVote. fold e. rewrite He. done. }
  split; [exact Hmark|]. split.
  - intros between env' req' Hv' He' st2.
    assert (Hmark2 : hasVotedIn st2 (rq_voterId req') (rq_electionId req') = true).
    { rewrite Hv', He'. by apply submitAll_keeps_mark. }
    rewrite (submitVote_marked _ _ _ Hmark2). cbn [answer final effects response].
    split; [done|]. split; [done|]. intros Hc.
    rewrite He'. apply Z.eqb_neq in He, Hc. by rewrite He, Hc.
  - intros reqs schedule threads env' req' Hv' He' Hc st2.
    apply voteStep_marked; [|by rewrite He'|done].
    rewrite Hv', He'. by apply (runSchedule_keeps_mark _ _ (st1, threads)).
Qed.

(** ** A hash that is already in the vault *)

(** C8, as the code has it.  A request tries to append at most one ballot.
    When the append fails on a hash that the vault already holds, the
    request fails with that storage error, which the handler throws again,
    and no store is changed: no second hash is drawn, no receipt is given
    and the pair is not marked.  In every case, either no store is
    changed, or exactly one ballot has been appended; the pair is marked
    by the request only in the second case, and then the hash of that
    ballot is the receipt. *)
Theorem duplicate_hash_is_not_retried `{NodeRuntime} st env req :
  let o := submitVote st env req in
  (length (List.filter isSave (effects o)) <= 1)%nat
  /\ (forall b,
       In (EffBallotSave b) (effects o) ->
       Ballot_save st b = inl duplicateKeyError ->
       response o = VoteUnhandled duplicateKeyError
       /\ final o = st
       /\ List.filter isSave (effects o) = [EffBallotSave b])
  /\ (final o = st
      \/ exists b,
           ballots (final o) = ballots st ++ [b]
           /\ Ballot_save st b = inr (withBallots st (ballots st ++ [b]))
           /\ ((response o = VoteReceipt (voteHash b)
                /\ hasVotedIn (final o) (rq_voterId req) (rq_electionId req) = true)
               \/ (exists err,
                     mark_rejected env = Some err
                     /\ response o = VoteUnhandled err
                     /\ voting_records (final o) = voting_records st))).
Proof.
  cbv zeta. split; [|split].
  - destruct (submitVote_cases st env req)
      as [(_ & _ & ?)|(b & _ & _ & _ & _ & _ & Heff & _)]; [done|].
    rewrite Heff. cbn. lia.
  - intros b. unfold submitVote.
    destruct (_ || _); [by intros []|].
    destruct (selectVotingRecords st _ _) as [|r rest]; [by intros []|].
    destruct (has_voted r); [by intros []|].
    destruct (selectActiveElection st _); [by intros []|].
    destruct (selectCandidate st _ _); [by intros []|].
    destruct (encryptVote _ _ _) as [m|enc]; [by intros [|[]]|].
    destruct (Ballot_save st (ballotOf env req enc)) as [err|st1] eqn:Hsave;
      cbn [answer effects response final].
    + intros [|[[= <-]|[]]]; [done|]. intros Hdup.
      rewrite Hdup in Hsave. by injection Hsave as <-.
    + destruct (mark_rejected env); cbn [answer effects response final].
      * intros [|[[= <-]|[]]]; try done. intros Hdup. congruence.
      * intros [|[[= <-]|[|[]]]]; try done. intros Hdup. congruence.
  - destruct (submitVote_cases st env req)
      as [(? & _)|(b & _ & _ & _ & _ & Hsave & _ & Hend)]; [by left|].
    right. exists b.
    destruct Hend as [(_ & Hresp & Hfin)|(err & Herr & Hresp & Hfin)].
    + split; [by rewrite Hfin|]. split; [done|]. left. split; [done|].
      by apply submitVote_receipt in Hresp as [? _].
    + split; [by rewrite Hfin|]. split; [done|]. right. exists err.
      by rewrite Hfin.
Qed.

Lemma duplicate_hash_is_not_retried_witness :
  let o := submitVote (H:=clearRuntime) pollWithHash (envAt 10 "aa") (ballotRequest 1 1) in
  response o = VoteUnhandled duplicateKeyError
  /\ final o = pollWithHash.
Proof.
  intros o.
  destruct (duplicate_hash_is_not_retried (H:=clearRuntime)
              pollWithHash (envAt 10 "aa") (ballotRequest 1 1)) as (_ & Hdup & _).
  destruct (Hdup (clearBallot "1" "1" "1-1-2025-11-01T16:36:00.000Z-aa"))
    as (Hresp & Hst & _).
  - right. left. reflexivity.
  - reflexivity.
  - split; [exact Hresp | exact Hst].
Defined.

(** C8, as stated, fails: the hash drawn with the first salt is taken, the
    hash a second salt would give is free, and the request fails with the
    storage error after a single attempt, where the same request with the
    second salt gets its receipt. *)
Lemma duplicate_hash_fails_at_once :
  let o := submitVote (H:=clearRuntime) pollWithHash (envAt 10 "aa") (ballotRequest 1 1) in
  hashTaken pollWithHash
    (generateVoteHash (H:=clearRuntime) "1" "1" (now_iso (envAt 10 "bb")) "bb") = false
  /\ response (submitVote (H:=clearRuntime) pollWithHash (envAt 10 "bb") (ballotRequest 1 1))
     = VoteReceipt "1-1-2025-11-01T16:36:00.000Z-bb"
  /\ length (List.filter isSave (effects o)) = 1%nat
  /\ response o = VoteUnhandled duplicateKeyError
  /\ forall h, response o <> VoteReceipt h.
Proof.
  cbv zeta. repeat split; try (vm_compute; reflexivity).
  intros h. vm_compute. discriminate.
Qed.

(** ** Requests in flight together *)

(** Stepping one request alone through its awaits is the handler run from
    its first line to its response. *)
Lemma submitVote_uninterrupted `{NodeRuntime} st env req :
  runSchedule [(env, req)] [0; 0; 0; 0; 0]%nat (startAll st [(env, req)])
  = (final (submitVote st env req), [Responded (response (submitVote st env req))]).
Proof.
  unfold runSchedule, startAll, submitVote, stepThread. cbn.
  destruct (_ || _); [done|].
  destruct (selectVotingRecords st _ _) as [|r rest]; [done|].
  destruct (has_voted r); [done|]. cbn.
  destruct (selectActiveElection st _); [done|]. cbn.
  destruct (selectCandidate st _ _); [done|].
  destruct (encryptVote _ _ _) as [m|enc]; [done|]. cbn.
  destruct (Ballot_save st (ballotOf env req enc)) as [err|st1]; [done|].
  cbn. by destruct (mark_rejected env).
Qed.

(** The UPDATE that marks the pair has no condition on [has_voted]: a
    thread that has reached it gives its receipt whatever the record says
    by then, when the UPDATE goes through. *)
Lemma mark_is_unconditional `{NodeRuntime} st env req receipt :
  mark_rejected env = None ->
  snd (voteStep env req st (AtUpdateVotingRecord receipt))
  = Responded (VoteReceipt receipt).
Proof. intros Hmark. cbn [voteStep]. by rewrite Hmark. Qed.

(** What a receipt tells about the run that gave it. *)
Lemma submitVote_receipt_inv `{NodeRuntime} st env req h :
  response (submitVote st env req) = VoteReceipt h ->
  (rq_electionId req =? 0) || (rq_candidateId req =? 0) = false
  /\ (exists r rest,
        selectVotingRecords st (rq_voterId req) (rq_electionId req) = r :: rest
        /\ has_voted r = false)
  /\ selectActiveElection st (rq_electionId req) <> []
  /\ selectCandidate st (rq_candidateId req) (rq_electionId req) <> []
  /\ mark_rejected env = None
  /\ exists enc,
       encryptVote (voteDataOf env req) (Js.String_of_Z (rq_electionId req))
         (random_iv env) = inr enc
       /\ Ballot_save st (ballotOf env req enc)
          = inr (withBallots st (ballots st ++ [ballotOf env req enc]))
       /\ h = voteHash (ballotOf env req enc).
Proof.
  unfold submitVote.
  destruct (_ || _); [done|].
  destruct (selectVotingRecords st _ _) as [|r rest]; [done|].
  destruct (has_voted r) eqn:Hr; [done|].
  destruct (selectActiveElection st _); [done|].
  destruct (selectCandidate st _ _); [done|].
  destruct (encryptVote _ _ _) as [m|enc]; [done|].
  destruct (Ballot_save st (ballotOf env req enc)) as [err|st1] eqn:Hsave; [done|].
  apply Ballot_save_ok in Hsave as Hst1. destruct Hst1 as [-> _].
  destruct (mark_rejected env); [done|].
  cbn [answer response]. intros [= <-].
  split; [done|]. split; [by exists r, rest|]. split; [done|]. split; [done|].
  split; [done|]. by exists enc.
Qed.

(** A second ballot whose hash differs from the first one's goes into the
    vault after it. *)
Lemma Ballot_save_after st b1 b2 :
  Ballot_save st b2 = inr (withBallots st (ballots st ++ [b2])) ->
  voteHash b1 <> voteHash b2 ->
  Ballot_save (withBallots st (ballots st ++ [b1])) b2
  = inr (withBallots st (ballots st ++ [b1; b2])).
Proof.
  intros Hsave Hne. apply Ballot_save_ok in Hsave as (_ & Hfree & Hreq).
  unfold Ballot_save. rewrite Hreq. unfold hashTaken in Hfree |- *.
  cbn [ballots withBallots]. rewrite existsb_app, Hfree. cbn [existsb orb].
  apply String.eqb_neq in Hne. rewrite Hne. cbn [orb].
  unfold withBallots. cbn. by rewrite <- app_assoc.
Qed.

Lemma runSchedule_cons `{NodeRuntime} reqs i schedule cfg :
  runSchedule reqs (i :: schedule) cfg
  = runSchedule reqs schedule (stepThread reqs i cfg).
Proof. reflexivity. Qed.

Lemma stepThread_at `{NodeRuntime} reqs i st threads env req th :
  nth_error reqs i = Some (env, req) ->
  nth_error threads i = Some th ->
  stepThread reqs i (st, threads)
  = (fst (voteStep env req st th), <[i := snd (voteStep env req st th)]> threads).
Proof.
  intros Hreq Hth. unfold stepThread. cbn [fst snd]. rewrite Hreq, Hth.
  by destruct (voteStep env req st th).
Qed.

Ltac next_step :=
  rewrite runSchedule_cons; erewrite stepThread_at by reflexivity.

(** The steps of a request that is on its way to a receipt. *)
Section StepsToReceipt.
Context `{NodeRuntime} (st : State) (env : Env) (req : VoteRequest).

Lemma step_eligible r rest :
  (rq_electionId req =? 0) || (rq_candidateId req =? 0) = false ->
  selectVotingRecords st (rq_voterId req) (rq_electionId req) = r :: rest ->
  has_voted r = false ->
  voteStep env req st AtSelectVotingRecords = (st, AtSelectElection).
Proof. intros Hids Hsel Hr. cbn [voteStep]. by rewrite Hids, Hsel, Hr. Qed.

Lemma step_active :
  selectActiveElection st (rq_electionId req) <> [] ->
  voteStep env req st AtSelectElection = (st, AtSelectCandidate).
Proof. cbn [voteStep]. by destruct (selectActiveElection st _). Qed.

Lemma step_candidate enc :
  selectCandidate st (rq_candidateId req) (rq_electionId req) <> [] ->
  encryptVote (voteDataOf env req) (Js.String_of_Z (rq_electionId req))
    (random_iv env) = inr enc ->
  voteStep env req st AtSelectCandidate = (st, AtBallotSave (ballotOf env req enc)).
Proof.
  intros Hcand Henc. cbn [voteStep]. rewrite Henc.
  by destruct (selectCandidate st _ _).
Qed.

Lemma step_save b st1 :
  Ballot_save st b = inr st1 ->
  voteStep env req st (AtBallotSave b) = (st1, AtUpdateVotingRecord (voteHash b)).
Proof. intros Hsave. cbn [voteStep]. by rewrite Hsave. Qed.

Lemma step_mark receipt :
  mark_rejected env = None ->
  voteStep env req st (AtUpdateVotingRecord receipt)
  = (updateVotingRecord st (NOW env) (rq_voterId req) (rq_electionId req),
     Responded (VoteReceipt receipt)).
Proof. intros Hmark. cbn [voteStep]. by rewrite Hmark. Qed.
End StepsToReceipt.

(** C5 fails on the code.  Take two requests of one voter for one election
    of which each, served alone, would get its receipt, and let their awaits
    alternate, so that each reads [has_voted] before the other writes it.
    Both pass the eligibility check, both append their ballot and both get
    their receipt: the mark is a read followed, four awaits later, by an
    UPDATE that has no condition on what was read. *)
Theorem concurrent_submissions_both_pass `{NodeRuntime} st env1 req1 env2 req2 h1 h2 :
  rq_voterId req2 = rq_voterId req1 ->
  rq_electionId req2 = rq_electionId req1 ->
  response (submitVote st env1 req1) = VoteReceipt h1 ->
  response (submitVote st env2 req2) = VoteReceipt h2 ->
  h1 <> h2 ->
  let done :=
    runSchedule [(env1, req1); (env2, req2)] [0; 1; 0; 1; 0; 1; 0; 1; 0; 1]%nat
      (startAll st [(env1, req1); (env2, req2)]) in
  snd done = [Responded (VoteReceipt h1); Responded (VoteReceipt h2)]
  /\ exists b1 b2,
       ballots (fst done) = ballots st ++ [b1; b2]
       /\ voteHash b1 = h1 /\ voteHash b2 = h2
       /\ b_electionId b1 = Js.String_of_Z (rq_electionId req1)
       /\ b_electionId b2 = Js.String_of_Z (rq_electionId req1).
Proof.
  intros Hv He Hrun1 Hrun2 Hne.
  apply submitVote_receipt_inv in Hrun1
    as (Hids1 & (r1 & rest1 & Hsel1 & Hr1) & Hact1 & Hcand1 & Hmark1
        & enc1 & Henc1 & Hsave1 & ->).
  apply submitVote_receipt_inv in Hrun2
    as (Hids2 & (r2 & rest2 & Hsel2 & Hr2) & Hact2 & Hcand2 & Hmark2
        & enc2 & Henc2 & Hsave2 & ->).
  pose proof (Ballot_save_after st _ _ Hsave2 Hne) as Hsave2'.
  unfold startAll. cbn [map].
  (* both read the record *)
  next_step. rewrite (step_eligible _ _ _ _ _ Hids1 Hsel1 Hr1). cbn [fst snd].
  next_step. rewrite (step_eligible _ _ _ _ _ Hids2 Hsel2 Hr2). cbn [fst snd].
  (* both find the election in progress and their candidate *)
  next_step. rewrite (step_active _ _ _ Hact1). cbn [fst snd].
  next_step. rewrite (step_active _ _ _ Hact2). cbn [fst snd].
  next_step. rewrite (step_candidate _ _ _ _ Hcand1 Henc1). cbn [fst snd].
  next_step. rewrite (step_candidate _ _ _ _ Hcand2 Henc2). cbn [fst snd].
  (* both save their ballot *)
  next_step. rewrite (step_save _ _ _ _ _ Hsave1). cbn [fst snd].
  next_step. rewrite (step_save _ _ _ _ _ Hsave2'). cbn [fst snd].
  (* both mark the pair and answer *)
  next_step. rewrite (step_mark _ _ _ _ Hmark1). cbn [fst snd].
  next_step. rewrite (step_mark _ _ _ _ Hmark2). cbn [fst snd].
  split; [reflexivity|].
  exists (ballotOf env1 req1 enc1), (ballotOf env2 req2 enc2).
  split; [reflexivity|]. split; [reflexivity|]. split; [reflexivity|].
  split; [reflexivity|]. cbn [ballotOf b_electionId]. by rewrite He.
Qed.

(** Two requests of voter 1 for election 1 in flight together: two
    receipts and two ballots, and a ledger that counts one voter; served
    one after the other, the second is answered "already voted". *)
Lemma concurrent_submissions_both_pass_witness :
  let done :=
    runSchedule (H:=clearRuntime) twice [0; 1; 0; 1; 0; 1; 0; 1; 0; 1]%nat
      (startAll pollOpen twice) in
  snd done = [Responded (VoteReceipt "1-1-2025-11-01T16:36:00.000Z-aa");
              Responded (VoteReceipt "1-1-2025-11-01T16:36:00.000Z-bb")]
  /\ length (Ballot_find (fst done) "1") = 2%nat
  /\ countVoted (fst done) 1 = 1%nat
  /\ map response (submitAll (H:=clearRuntime) pollOpen twice)
     = [VoteReceipt "1-1-2025-11-01T16:36:00.000Z-aa"; VoteAlreadyVoted].
Proof.
  intros done.
  destruct (concurrent_submissions_both_pass (H:=clearRuntime) pollOpen
              (envAt 10 "aa") (ballotRequest 1 1) (envAt 11 "bb") (ballotRequest 1 2)
              "1-1-2025-11-01T16:36:00.000Z-aa" "1-1-2025-11-01T16:36:00.000Z-bb")
    as (Hthreads & _); try reflexivity.
  { discriminate. }
  split; [exact Hthreads|]. vm_compute. done.
Defined.


(** * Properties of the rest of the backend *)

(** ** Passwords *)

(** X1.  A password is accepted exactly when it has between 8 and 128
    characters, a capital letter, a small letter and a digit; and it is
    accepted exactly when no error is reported. *)
Theorem password_accepted_iff (p : string) :
  (valid (validate (Some p)) = true <->
   (8 <= String.length p <= 128)%nat
   /\ hasChar isUpper p = true
   /\ hasChar isLower p = true
   /\ hasChar Js.isDigit p = true)
  /\ (valid (validate (Some p)) = true <-> errors (validate (Some p)) = []).
Proof.
  destruct p as [|c p].
  { cbn. split; split; try done. intros [[? _] _]. lia. }
  unfold validate.
  set (q := String c p).
  destruct (Nat.ltb_spec (String.length q) 8) as [Hmin|Hmin];
    destruct (Nat.ltb_spec 128 (String.length q)) as [Hmax|Hmax];
    destruct (hasChar isUpper q), (hasChar isLower q), (hasChar Js.isDigit q);
    cbn [valid errors app length Nat.eqb];
    (split; split; [intros ?|intros (? & ? & ? & ?)|intros ?|intros ?]);
    try done; try lia; try (exfalso; lia).
Qed.

(** ** Start-up configuration *)

(** X3.  When [validateEnv] lets the server start, both secrets are set,
    have 32 characters or more and are not the known defaults, the database
    name and user are set, and no warning is printed: the warnings of the
    development block cannot happen, as a short secret has already stopped
    the process. *)
Theorem validateEnv_started (e : ProcessEnv) (warnings : list string) :
  validateEnv e = Started warnings ->
  warnings = []
  /\ (exists k, env_ENCRYPTION_KEY e = Some k
                /\ (32 <= String.length k)%nat
                /\ k <> "default_encryption_key_32_bytes_long!")
  /\ (exists j, env_JWT_SECRET e = Some j
                /\ (32 <= String.length j)%nat
                /\ j <> "secret_temp")
  /\ unset (env_MYSQL_DATABASE e) = false
  /\ unset (env_MYSQL_USER e) = false
  /\ (isProduction e = true -> unset (env_MONGODB_URI e) = false).
Proof.
  unfold validateEnv.
  destruct (configErrors e) eqn:Herr; [|done]. intros [= <-].
  unfold configErrors in Herr.
  repeat (apply app_eq_nil in Herr as [? Herr]).
  destruct (env_JWT_SECRET e) as [[|c j]|] eqn:Hj; try done.
  destruct (env_ENCRYPTION_KEY e) as [[|c' k]|] eqn:Hk; try done.
  destruct (String.eqb (String c j) "secret_temp") eqn:Ej; [done|].
  destruct (String.length (String c j) <? 32)%nat eqn:Lj; [done|].
  destruct (String.eqb (String c' k) _) eqn:Ek; [done|].
  destruct (String.length (String c' k) <? 32)%nat eqn:Lk; [done|].
  apply Nat.ltb_ge in Lj, Lk. apply String.eqb_neq in Ej, Ek.
  split.
  { unfold configWarnings. destruct (isProduction e); [done|].
    rewrite Hj, Hk.
    destruct (String.length (String c j) <? 32)%nat eqn:Lj'; [apply Nat.ltb_lt in Lj'; lia|].
    destruct (String.length (String c' k) <? 32)%nat eqn:Lk'; [apply Nat.ltb_lt in Lk'; lia|].
    done. }
  split; [by eexists|]. split; [by eexists|].
  destruct (unset (env_MYSQL_DATABASE e)); [done|].
  destruct (unset (env_MYSQL_USER e)); [done|].
  split; [done|]. split; [done|].
  intros Hprod. rewrite Hprod in Herr.
  by destruct (unset (env_MONGODB_URI e)).
Qed.

Lemma validateEnv_started_witness :
  validateEnv
    {| env_NODE_ENV := Some "development";
       env_JWT_SECRET := Some "0123456789abcdef0123456789abcdef";
       env_ENCRYPTION_KEY := Some "fedcba9876543210fedcba9876543210";
       env_MYSQL_DATABASE := Some "votux";
       env_MYSQL_USER := Some "root";
       env_MONGODB_URI := None |} = Started [].
Proof.
  destruct (validateEnv _) as [code errs|warnings] eqn:Hrun; [discriminate Hrun|].
  by destruct (validateEnv_started _ _ Hrun) as [-> _].
Defined.

(** ** Statuses *)

Lemma normalizeStatus_ongoing (s : string) :
  String.eqb (normalizeStatus (Some s)) "ongoing"
  = String.eqb s "ongoing" || String.eqb s "active".
Proof.
  unfold normalizeStatus.
  destruct (String.eqb_spec s "") as [->|H0]; [done|].
  assert (Hs0 : (match s with "" => "pending" | _ => s end) = s) by (by destruct s).
  rewrite Hs0.
  destruct (String.eqb_spec s "draft") as [->|H1]; [done|].
  destruct (String.eqb_spec s "active") as [->|H2]; [done|].
  destruct (String.eqb_spec s "completed") as [->|H3]; [done|].
  by rewrite orb_false_r.
Qed.

(** X4.  The elections in which the vote handler accepts a ballot are
    exactly those that the list of elections shows as ongoing; and the
    shown status is never empty, draft, active or completed, so that showing
    it again changes nothing. *)
Theorem votable_iff_shown_ongoing (st : State) (election : Z) (status : option string) :
  selectActiveElection st election
  = List.filter
      (fun e => (el_id e =? election)
                && String.eqb (normalizeStatus (Some (el_status e))) "ongoing")
      (elections st)
  /\ normalizeStatus (Some (normalizeStatus status)) = normalizeStatus status
  /\ ~ In (normalizeStatus status) [""; "draft"; "active"; "completed"].
Proof.
  split; [|split].
  - unfold selectActiveElection. apply filter_ext. intros e.
    by rewrite normalizeStatus_ongoing.
  - unfold normalizeStatus.
    destruct status as [s|]; [|done].
    destruct (String.eqb_spec s "") as [->|H0]; [done|].
    assert (Hs0 : (match s with "" => "pending" | _ => s end) = s) by (by destruct s).
    rewrite Hs0.
    destruct (String.eqb_spec s "draft") as [->|H1]; [done|].
    destruct (String.eqb_spec s "active") as [->|H2]; [done|].
    destruct (String.eqb_spec s "completed") as [->|H3]; [done|].
    rewrite Hs0.
    apply String.eqb_neq in H1, H2, H3. by rewrite H1, H2, H3.
  - unfold normalizeStatus.
    destruct status as [s|]; [|cbn; intuition discriminate].
    destruct (String.eqb_spec s "") as [->|H0]; [cbn; intuition discriminate|].
    assert (Hs0 : (match s with "" => "pending" | _ => s end) = s) by (by destruct s).
    rewrite Hs0.
    destruct (String.eqb_spec s "draft") as [->|H1]; [cbn; intuition discriminate|].
    destruct (String.eqb_spec s "active") as [->|H2]; [cbn; intuition discriminate|].
    destruct (String.eqb_spec s "completed") as [->|H3]; [cbn; intuition discriminate|].
    cbn. intuition congruence.
Qed.

(** ** Institution scope *)

Lemma findElection_select st election :
  findElection st election = head (selectElection st election).
Proof. reflexivity. Qed.

(** X5.  An administrator gets through the institution check exactly when
    the election exists and carries the administrator's own institution,
    which is set and not zero.  So nobody gets through for an election
    without institution: it cannot be started, closed, deleted or
    proclaimed, and no eligible voter can be added to it. *)
Theorem access_iff_same_institution (st : State) (user : User) (election : Z) :
  (assertAdminCanAccessElection st user election = None <->
   isAdmin user = true
   /\ exists row i,
        findElection st election = Some row
        /\ user_institution_id user = Some i /\ i <> 0
        /\ el_institution_id row = Some i)
  /\ ((forall row, findElection st election = Some row ->
                   idOrNull (el_institution_id row) = None) ->
      forall env referenced ids mongoFails,
        snd (startElection st user election) = st
        /\ snd (closeElection st user election) = st
        /\ snd (deleteElection st mongoFails user election) = st
        /\ snd (proclaim st env user election) = st
        /\ snd (addEligibleVoters referenced st user election ids) = st).
Proof.
  assert (Hiff : assertAdminCanAccessElection st user election = None <->
                 isAdmin user = true
                 /\ exists row i,
                      findElection st election = Some row
                      /\ user_institution_id user = Some i /\ i <> 0
                      /\ el_institution_id row = Some i).
  { unfold assertAdminCanAccessElection, truthyId.
    destruct (isAdmin user); cbn [negb orb];
      [|split; [done|by intros [? _]]].
    destruct (user_institution_id user) as [i|]; cbn [negb];
      [|split; [done|by intros (_ & ? & ? & _ & ? & _)]].
    destruct (Z.eqb_spec i 0) as [->|Hi]; cbn [negb];
      [split; [done|intros (_ & ? & ? & _ & [= <-] & ? & _); done]|].
    destruct (findElection st election) as [row|];
      [|split; [done|by intros (_ & ? & ? & ? & _)]].
    destruct (_ =? _) eqn:He.
    - apply Z.eqb_eq in He. split; [|done]. intros _. split; [done|]. exists row, i.
      destruct (el_institution_id row) as [j|]; cbn in He; [by subst|congruence].
    - apply Z.eqb_neq in He. split; [done|].
      intros (_ & ? & ? & [= <-] & [= <-] & _ & Hrow).
      rewrite Hrow in He. done. }
  split; [exact Hiff|].
  intros Hnull env referenced ids mongoFails.
  assert (Hno : assertAdminCanAccessElection st user election <> None).
  { intros Hacc. apply Hiff in Hacc as (_ & row & i & Hrow & _ & Hi & Hinst).
    specialize (Hnull row Hrow). rewrite Hinst in Hnull. unfold idOrNull, truthyId in Hnull.
    apply Z.eqb_neq in Hi. by rewrite Hi in Hnull. }
  unfold startElection, closeElection, setElectionStatus, deleteElection, proclaim,
    addEligibleVoters.
  destruct (isAdmin user); cbn [negb]; [|done].
  by destruct (assertAdminCanAccessElection st user election).
Qed.

(** ** CSV *)




Lemma hasChar_cons p c s : hasChar p (String c s) = p c || hasChar p s.
Proof. reflexivity. Qed.










Lemma replaceCR_id (s : string) : noCR s = true -> replaceCR s = s.
Proof.
  unfold noCR. intros H%negb_true_iff.
  induction s as [|c s IH]; [done|].
  rewrite hasChar_cons in H. apply orb_false_iff in H as [Hc Hs].
  cbn [replaceCR]. by rewrite Hc, (IH Hs).
Qed.

Lemma replaceCRLF_id (s : string) : noCR s = true -> replaceCRLF s = s.
Proof.
  unfold noCR. intros H%negb_true_iff.
  induction s as [|c s IH]; [done|].
  rewrite hasChar_cons in H. apply orb_false_iff in H as [Hc Hs].
  cbn [replaceCRLF]. by rewrite Hc, (IH Hs).
Qed.

Lemma replaceCRLF_toCRLF (s : string) :
  noCR s = true -> replaceCRLF (toCRLF s) = s.
Proof.
  unfold noCR. intros H%negb_true_iff.
  induction s as [|c s IH]; [done|].
  rewrite hasChar_cons in H. apply orb_false_iff in H as [Hc Hs].
  cbn [toCRLF]. destruct (Ascii.eqb c lineFeed) eqn:Hlf.
  - apply Ascii.eqb_eq in Hlf as ->.
    cbn [replaceCRLF]. rewrite !Ascii.eqb_refl. by rewrite (IH Hs).
  - cbn [replaceCRLF]. by rewrite Hc, (IH Hs).
Qed.

Lemma toCR_no_line_feed (s : string) :
  noCR s = true -> hasChar (fun c => Ascii.eqb c lineFeed) (toCR s) = false.
Proof.
  unfold noCR. intros H%negb_true_iff.
  induction s as [|c s IH]; [done|].
  rewrite hasChar_cons in H. apply orb_false_iff in H as [Hc Hs].
  cbn [toCR]. rewrite hasChar_cons, (IH Hs), orb_false_r.
  destruct (Ascii.eqb c lineFeed) eqn:Hlf; [done|]. exact Hlf.
Qed.

Lemma replaceCRLF_no_line_feed (s : string) :
  hasChar (fun c => Ascii.eqb c lineFeed) s = false -> replaceCRLF s = s.
Proof.
  induction s as [|c s IH]; [done|].
  rewrite hasChar_cons. intros [Hc Hs]%orb_false_iff.
  cbn [replaceCRLF]. destruct (Ascii.eqb c carriageReturn); [|by rewrite (IH Hs)].
  destruct s as [|c' s']; [done|].
  rewrite hasChar_cons in Hs. apply orb_false_iff in Hs as Hs'.
  destruct Hs' as [Hc' _]. rewrite Hc'. by rewrite (IH Hs).
Qed.

Lemma replaceCR_toCR (s : string) : noCR s = true -> replaceCR (toCR s) = s.
Proof.
  unfold noCR. intros H%negb_true_iff.
  induction s as [|c s IH]; [done|].
  rewrite hasChar_cons in H. apply orb_false_iff in H as [Hc Hs].
  cbn [toCR replaceCR]. rewrite (IH Hs).
  destruct (Ascii.eqb c lineFeed) eqn:Hlf.
  - apply Ascii.eqb_eq in Hlf as ->. by rewrite Ascii.eqb_refl.
  - by rewrite Hc.
Qed.

(** X7.  [parseCSV] reads the same table whether the lines of a file end
    in LF, in CR LF or in CR. *)
Theorem parseCSV_line_endings (content : string) :
  noCR content = true ->
  parseCSV (toCRLF content) = parseCSV content
  /\ parseCSV (toCR content) = parseCSV content.
Proof.
  intros H. unfold parseCSV.
  rewrite (replaceCRLF_toCRLF _ H), (replaceCRLF_id _ H).
  rewrite (replaceCRLF_no_line_feed _ (toCR_no_line_feed _ H)).
  by rewrite (replaceCR_toCR _ H), (replaceCR_id _ H).
Qed.

Lemma parseCSV_line_endings_witness :
  let content := "a,b" +:+ String lineFeed ("1,2" +:+ String lineFeed "") in
  noCR content = true
  /\ parseCSV (toCRLF content) = parseCSV content
  /\ parseCSV (toCR content) = parseCSV content
  /\ parseCSV content = {| csv_headers := ["a"; "b"]; csv_rows := [["1"; "2"]] |}.
Proof.
  split; [reflexivity|].
  destruct (parseCSV_line_endings
              ("a,b" +:+ String lineFeed ("1,2" +:+ String lineFeed "")) eq_refl)
    as [H1 H2].
  split; [exact H1|]. split; [exact H2|]. reflexivity.
Defined.















(** ** Life cycle of an election *)

Lemma el_id_setStatus status election x :
  el_id (setStatus status election x) = el_id x.
Proof. unfold setStatus. by destruct (el_id x =? election). Qed.

Lemma el_status_setStatus status election x :
  el_status (setStatus status election x)
  = if el_id x =? election then status else el_status x.
Proof. unfold setStatus. by destruct (el_id x =? election). Qed.

Lemma el_institution_setStatus status election x :
  el_institution_id (setStatus status election x) = el_institution_id x.
Proof. unfold setStatus. by destruct (el_id x =? election). Qed.

Lemma selectActive_after_status st status election :
  selectActiveElection (updateStatus st status election) election
  = if String.eqb status "ongoing" || String.eqb status "active"
    then map (setStatus status election) (selectElection st election)
    else [].
Proof.
  unfold selectActiveElection, updateStatus, selectElection. cbn [elections withElections].
  induction (elections st) as [|x xs IH]; [by destruct (_ || _)|].
  cbn [map List.filter]. rewrite IH, el_id_setStatus, el_status_setStatus.
  destruct (el_id x =? election) eqn:Hx; cbn [andb]; [|done].
  by destruct (String.eqb status "ongoing" || String.eqb status "active").
Qed.

Lemma selectActive_other_status st status election election' :
  election' <> election ->
  selectActiveElection (updateStatus st status election) election'
  = selectActiveElection st election'.
Proof.
  intros Hne. unfold selectActiveElection, updateStatus. cbn [elections withElections].
  induction (elections st) as [|x xs IH]; [done|].
  cbn [map List.filter]. rewrite IH.
  destruct (Z.eqb_spec (el_id x) election) as [Hx|Hx].
  - rewrite el_id_setStatus, Hx.
    destruct (Z.eqb_spec election election'); [congruence|done].
  - unfold setStatus. apply Z.eqb_neq in Hx. by rewrite Hx.
Qed.

Lemma setElectionStatus_ok status message st user election m st' :
  setElectionStatus status message st user election = (AdminOk m, st') ->
  isAdmin user = true
  /\ assertAdminCanAccessElection st user election = None
  /\ selectElection st election <> []
  /\ m = message
  /\ st' = updateStatus st status election.
Proof.
  unfold setElectionStatus.
  destruct (isAdmin user); cbn [negb]; [|done].
  destruct (assertAdminCanAccessElection st user election); [done|].
  destruct (selectElection st election) eqn:Hsel; [done|].
  intros [= <- <-]. repeat split; done.
Qed.

Lemma selectElection_updateStatus st status election election' :
  selectElection (updateStatus st status election) election'
  = map (setStatus status election) (selectElection st election').
Proof.
  unfold selectElection, updateStatus. cbn [elections withElections].
  induction (elections st) as [|x xs IH]; [done|].
  cbn [map List.filter]. rewrite IH, el_id_setStatus.
  by destruct (el_id x =? election').
Qed.

Lemma access_updateStatus st status election user election' :
  assertAdminCanAccessElection (updateStatus st status election) user election'
  = assertAdminCanAccessElection st user election'.
Proof.
  unfold assertAdminCanAccessElection.
  destruct (_ || _); [done|].
  change (findElection (updateStatus st status election) election')
    with (head (selectElection (updateStatus st status election) election')).
  change (findElection st election') with (head (selectElection st election')).
  rewrite selectElection_updateStatus.
  destruct (selectElection st election') as [|row rows]; [done|].
  cbn [map head]. by rewrite el_institution_setStatus.
Qed.

Section LifeCycle.
Context `{NodeRuntime}.

(** X9.  Once an election is closed, the vote handler accepts no ballot for
    it: every request for it leaves the ledger and the vault as they are
    and gets no receipt, and an eligible voter who has not voted is told
    that the election is not active. *)
Theorem closed_election_takes_no_vote st user election m st' :
  closeElection st user election = (AdminOk m, st') ->
  forall env req,
    rq_electionId req = election ->
    final (submitVote st' env req) = st'
    /\ effects (submitVote st' env req) = []
    /\ (forall h, response (submitVote st' env req) <> VoteReceipt h)
    /\ (forall r rest,
          selectVotingRecords st' (rq_voterId req) election = r :: rest ->
          has_voted r = false ->
          election <> 0 -> rq_candidateId req <> 0 ->
          response (submitVote st' env req) = VoteElectionNotActive).
Proof.
  intros Hclose env req He.
  apply setElectionStatus_ok in Hclose as (_ & _ & _ & _ & ->).
  assert (Hnone : selectActiveElection (updateStatus st "completed" election)
                    (rq_electionId req) = []).
  { rewrite He. by rewrite selectActive_after_status. }
  unfold submitVote. rewrite Hnone.
  destruct (_ || _) eqn:Hids.
  - repeat split; try done. intros r rest _ _ He0 Hc.
    apply orb_true_iff in Hids as [Hz|Hz]; apply Z.eqb_eq in Hz; congruence.
  - rewrite He.
    destruct (selectVotingRecords _ _ _) as [|r rest] eqn:Hsel.
    + repeat split; done.
    + destruct (has_voted r) eqn:Hv.
      * repeat split; try done. intros r' rest' [= <- <-]. congruence.
      * repeat split; done.
Qed.

(** X10.  Starting an election looks at no status: whatever the election
    was, also closed, the vote handler takes it for active afterwards and
    tells nobody that it is not active; the other elections are as open or
    closed as before.  In particular an election that was closed can be
    started again by the same administrator. *)
Theorem start_opens_whatever_the_status st user election m st' :
  startElection st user election = (AdminOk m, st') ->
  selectActiveElection st' election <> []
  /\ (forall env req,
        rq_electionId req = election ->
        response (submitVote st' env req) <> VoteElectionNotActive)
  /\ (forall election',
        election' <> election ->
        selectActiveElection st' election' = selectActiveElection st election')
  /\ (forall st0 m0,
        closeElection st0 user election = (AdminOk m0, st) ->
        selectActiveElection st election = []).
Proof.
  intros Hstart.
  apply setElectionStatus_ok in Hstart as (Hadmin & Hacc & Hex & _ & ->).
  assert (Hopen : selectActiveElection (updateStatus st "active" election) election <> []).
  { rewrite selectActive_after_status. cbn [String.eqb orb].
    change (String.eqb "active" "ongoing" || String.eqb "active" "active") with true.
    cbn iota. by destruct (selectElection st election). }
  split; [exact Hopen|]. split; [|split].
  - intros env req He. unfold submitVote. rewrite He.
    destruct (_ || _); [done|].
    destruct (selectVotingRecords _ _ _) as [|r rest]; [done|].
    destruct (has_voted r); [done|].
    destruct (selectActiveElection _ _) as [|a act]; [done|].
    destruct (selectCandidate _ _ _); [done|].
    destruct (encryptVote _ _ _); [done|].
    destruct (Ballot_save _ _); [done|].
    by destruct (mark_rejected env).
  - intros election' Hne. by apply selectActive_other_status.
  - intros st0 m0 Hclose.
    apply setElectionStatus_ok in Hclose as (_ & _ & _ & _ & ->).
    by rewrite selectActive_after_status.
Qed.

End LifeCycle.

Lemma closed_election_takes_no_vote_witness :
  response (submitVote (H:=clearRuntime) (snd (closeElection pollOpen admin 1))
              (envAt 10 "aa") (ballotRequest 1 1))
  = VoteElectionNotActive
  /\ response (submitVote (H:=clearRuntime) pollOpen (envAt 10 "aa") (ballotRequest 1 1))
     = VoteReceipt "1-1-2025-11-01T16:36:00.000Z-aa".
Proof.
  split; [|reflexivity].
  destruct (closed_election_takes_no_vote (H:=clearRuntime) pollOpen admin 1
              "Scrutin clôturé" (snd (closeElection pollOpen admin 1)) eq_refl
              (envAt 10 "aa") (ballotRequest 1 1) eq_refl) as (_ & _ & _ & Hna).
  apply (Hna (voter 1 1 false) [] eq_refl eq_refl); discriminate.
Defined.

Lemma start_opens_whatever_the_status_witness :
  selectActiveElection (closedPoll [] []) 1 = []
  /\ selectActiveElection (snd (startElection (closedPoll [] []) admin 1)) 1 <> [].
Proof.
  split; [reflexivity|].
  apply (start_opens_whatever_the_status (H:=clearRuntime) (closedPoll [] []) admin 1
           "Scrutin démarré avec succès" (snd (startElection (closedPoll [] []) admin 1))
           eq_refl).
Defined.

(** ** Creation of an election *)

Lemma createElection_ok st user input e st' :
  createElection st user input = (Created e, st') ->
  isAdmin user = true
  /\ e = next_election_id st
  /\ exists row,
       elections st' = elections st ++ [row]
       /\ el_id row = e
       /\ el_status row = "draft"
       /\ el_created_by row = user_id user
       /\ el_institution_id row = idOrNull (user_institution_id user)
       /\ voting_records st' = voting_records st
       /\ ballots st' = ballots st
       /\ election_results st' = election_results st
       /\ candidates st'
          = candidates st
            ++ insertCandidates e (next_candidate_id st) (default [] (in_candidates input)).
Proof.
  unfold createElection.
  destruct (isAdmin user); cbn [negb]; [|done].
  destruct (in_title input) as [title|]; [|done].
  destruct (idOrNull (in_start_date input)); [|done].
  destruct (idOrNull (in_end_date input)); [|done].
  destruct (String.eqb title ""); [done|].
  intros [= <- <-]. split; [done|]. split; [done|].
  eexists. repeat split.
Qed.

Lemma filter_fresh (p : Election -> bool) (election : Z) (l : list Election) :
  (forall x, In x l -> el_id x <> election) ->
  List.filter (fun e => (el_id e =? election) && p e) l = [].
Proof.
  induction l as [|x xs IH]; [done|]. intros Hfresh.
  cbn. destruct (Z.eqb_spec (el_id x) election) as [Hx|Hx].
  - exfalso. apply (Hfresh x); [by left|done].
  - apply IH. intros y Hy. apply Hfresh. by right.
Qed.

Lemma findElection_app_fresh st row election es :
  (forall x, In x (elections st) -> el_id x <> election) ->
  el_id row = election ->
  es = elections st ++ [row] ->
  head (List.filter (fun e => el_id e =? election) es) = Some row.
Proof.
  intros Hfresh Hrow ->. rewrite List.filter_app.
  replace (List.filter (fun e => el_id e =? election) (elections st)) with (@nil Election).
  - cbn. rewrite Hrow, Z.eqb_refl. done.
  - symmetry. induction (elections st) as [|x xs IH]; [done|].
    cbn. destruct (Z.eqb_spec (el_id x) election) as [Hx|Hx].
    + exfalso. apply (Hfresh x); [by left|done].
    + apply IH. intros y Hy. apply Hfresh. by right.
Qed.

(** X11.  A new election carries the institution of the administrator who
    creates it, so exactly the administrators of that institution get
    through the institution check for it, and nobody when its creator has
    none; and it is a draft, in which the vote handler accepts no ballot.
    The number given to the election is taken to be new. *)
Theorem created_election_scope `{NodeRuntime} st user input election st' :
  createElection st user input = (Created election, st') ->
  (forall x, In x (elections st) -> el_id x <> next_election_id st) ->
  (forall other,
      assertAdminCanAccessElection st' other election = None <->
      isAdmin other = true
      /\ exists i, i <> 0 /\ user_institution_id user = Some i
                   /\ user_institution_id other = Some i)
  /\ (forall env req,
        rq_electionId req = election ->
        final (submitVote st' env req) = st'
        /\ forall h, response (submitVote st' env req) <> VoteReceipt h).
Proof.
  intros Hcreate Hfresh.
  apply createElection_ok in Hcreate
    as (Hadmin & -> & row & Hels & Hid & Hdraft & _ & Hinst & _).
  assert (Hfind : findElection st' (next_election_id st) = Some row).
  { unfold findElection. by apply (findElection_app_fresh st). }
  split.
  - intros other. unfold assertAdminCanAccessElection. rewrite Hfind, Hinst.
    unfold idOrNull, truthyId.
    destruct (isAdmin other); cbn [negb orb];
      [|split; [done|by intros [? _]]].
    destruct (user_institution_id other) as [j|]; cbn [negb];
      [|split; [done|by intros (_ & ? & _ & _ & ?)]].
    destruct (Z.eqb_spec j 0) as [->|Hj]; cbn [negb].
    { split; [done|]. intros (_ & i & Hi & _ & [= <-]). done. }
    destruct (user_institution_id user) as [i|]; cbn [default from_option id].
    + destruct (Z.eqb_spec i 0) as [->|Hi]; cbn [negb default from_option id].
      * destruct (Z.eqb_spec 0 j); [congruence|].
        split; [done|]. intros (_ & i & Hi & [= <-] & _). done.
      * destruct (Z.eqb_spec i j) as [->|Hij].
        -- split; [|done]. intros _. split; [done|]. by exists j.
        -- split; [done|]. intros (_ & k & _ & [= <-] & [= <-]). done.
    + destruct (Z.eqb_spec 0 j); [congruence|].
      split; [done|]. by intros (_ & i & _ & ? & _).
  - intros env req He.
    assert (Hnone : selectActiveElection st' (rq_electionId req) = []).
    { rewrite He. unfold selectActiveElection. rewrite Hels, List.filter_app.
      cbn [List.filter]. rewrite Hdraft. cbn [String.eqb orb].
      change (String.eqb "draft" "ongoing" || String.eqb "draft" "active") with false.
      rewrite andb_false_r, app_nil_r.
      by apply filter_fresh. }
    unfold submitVote. rewrite Hnone.
    destruct (_ || _); [done|].
    destruct (selectVotingRecords _ _ _) as [|r rest]; [done|].
    by destruct (has_voted r).
Qed.

Lemma created_election_scope_witness :
  let input := {| in_title := Some "Bureau"; in_description := "";
                  in_start_date := Some 1; in_end_date := Some 2;
                  in_is_public := None; in_max_votes := None;
                  in_candidates := None |} in
  let unattached := {| user_id := 7; user_type := "admin"; user_institution_id := None |} in
  fst (createElection pollOpen unattached input) = Created 2
  /\ forall other,
       assertAdminCanAccessElection (snd (createElection pollOpen unattached input)) other 2
       <> None.
Proof.
  intros input unattached. split; [reflexivity|].
  intros other Hacc.
  destruct (created_election_scope (H:=clearRuntime) pollOpen unattached input 2
              (snd (createElection pollOpen unattached input)) eq_refl) as [Hscope _].
  - intros x [<-|[]]. discriminate.
  - apply Hscope in Hacc as (_ & i & _ & Hi & _). discriminate.
Defined.

(** ** Eligibility *)

Lemma withVotingRecords_same st : withVotingRecords st (voting_records st) = st.
Proof. by destruct st. Qed.

Lemma select_nonempty_iff st v e :
  selectVotingRecords st v e <> [] <-> existsb (forPair v e) (voting_records st) = true.
Proof.
  unfold selectVotingRecords.
  induction (voting_records st) as [|r rs IH]; [done|].
  cbn. destruct (forPair v e r); [done|exact IH].
Qed.

Lemma forPair_pairOf v e r : forPair v e r = true <-> pairOf r = (v, e).
Proof.
  unfold forPair, pairOf. rewrite andb_true_iff, !Z.eqb_eq.
  split; [by intros [-> ->]|by intros [= -> ->]].
Qed.

Lemma existsb_forPair v e rs :
  existsb (forPair v e) rs = true <-> In (v, e) (map pairOf rs).
Proof.
  rewrite existsb_exists, in_map_iff.
  split; intros (r & H1 & H2); exists r.
  - split; [by apply forPair_pairOf|done].
  - split; [done|by apply forPair_pairOf].
Qed.

Lemma existsb_app_l {A} (p : A -> bool) l k :
  existsb p l = true -> existsb p (l ++ k) = true.
Proof. intros Hl. by rewrite existsb_app, Hl. Qed.

(** What the loop of INSERT IGNORE leaves. *)
Lemma fold_insertIgnore referenced election ids st :
  let st' := fold_left (insertIgnoreVotingRecord referenced election) ids st in
  (exists added,
      st' = withVotingRecords st (voting_records st ++ added)
      /\ Forall (fun r => has_voted r = false /\ vr_election_id r = election) added)
  /\ (uniquePairs st -> uniquePairs st')
  /\ (forall v, In v ids ->
        existsb (forPair v election) (voting_records st') || negb (referenced v) = true).
Proof.
  revert st. induction ids as [|v ids IH]; intros st; cbn [fold_left].
  - split; [|split; [done|by intros v []]].
    exists []. by rewrite app_nil_r, withVotingRecords_same.
  - specialize (IH (insertIgnoreVotingRecord referenced election st v)).
    cbn zeta in IH. destruct IH as ((added & Hst' & Hadded) & Huniq & Hin).
    set (st1 := insertIgnoreVotingRecord referenced election st v) in *.
    set (st' := fold_left _ ids st1) in *.
    assert (Hstep : (st1 = st
                     /\ existsb (forPair v election) (voting_records st)
                        || negb (referenced v) = true)
                    \/ (st1 = withVotingRecords st
                                (voting_records st ++
                                   [{| vr_voter_id := v; vr_election_id := election;
                                       has_voted := false; voted_at := None |}])
                        /\ existsb (forPair v election) (voting_records st) = false)).
    { unfold st1, insertIgnoreVotingRecord.
      destruct (existsb (forPair v election) (voting_records st)); cbn [orb].
      - by left.
      - destruct (referenced v); cbn [negb]; [by right|by left]. }
    assert (Hgrow : forall w, existsb (forPair w election) (voting_records st1) = true ->
                              existsb (forPair w election) (voting_records st') = true).
    { intros w Hw. rewrite Hst'. cbn [voting_records withVotingRecords].
      by apply existsb_app_l. }
    split; [|split].
    + destruct Hstep as [[Hsame _]|[Hnew _]].
      * exists added. by rewrite Hst', Hsame.
      * eexists (_ :: added). split.
        -- rewrite Hst', Hnew. cbn [voting_records withVotingRecords].
           by rewrite <- app_assoc.
        -- by constructor.
    + intros Hu. apply Huniq.
      destruct Hstep as [[-> _]|[-> Hfresh]]; [done|].
      unfold uniquePairs in *. cbn [voting_records withVotingRecords].
      rewrite map_app. apply NoDup_app. split; [done|]. split.
      * intros p Hp [<-|[]]%list_elem_of_In. apply list_elem_of_In in Hp.
        apply (existsb_forPair v election) in Hp. congruence.
      * apply NoDup_singleton.
    + intros w [<-|Hw]; [|by apply Hin].
      destruct Hstep as [[Hsame Hv]|[Hnew _]].
      * apply orb_true_iff in Hv as [Hv|Hv]; [|by rewrite Hv, orb_true_r].
        rewrite Hgrow; [done|]. by rewrite Hsame.
      * rewrite Hgrow; [done|]. rewrite Hnew. cbn [voting_records withVotingRecords].
        rewrite existsb_app. cbn. unfold forPair. cbn. by rewrite !Z.eqb_refl, orb_true_r.
Qed.

Lemma fold_insertIgnore_nothing referenced election ids st :
  (forall v, In v ids ->
     existsb (forPair v election) (voting_records st) || negb (referenced v) = true) ->
  fold_left (insertIgnoreVotingRecord referenced election) ids st = st.
Proof.
  induction ids as [|v ids IH]; [done|]. intros Hall.
  cbn [fold_left]. unfold insertIgnoreVotingRecord at 2.
  rewrite (Hall v) by (by left). apply IH. intros w Hw. apply Hall. by right.
Qed.

Lemma access_withVotingRecords st rs user election :
  assertAdminCanAccessElection (withVotingRecords st rs) user election
  = assertAdminCanAccessElection st user election.
Proof. reflexivity. Qed.

Lemma select_app_first st added v e :
  hasVotedIn (withVotingRecords st (voting_records st ++ added)) v e
  = match selectVotingRecords st v e with
    | r :: _ => has_voted r
    | [] => match List.filter (forPair v e) added with
            | r :: _ => has_voted r
            | [] => false
            end
    end.
Proof.
  unfold hasVotedIn, selectVotingRecords. cbn [voting_records withVotingRecords].
  rewrite List.filter_app. by destruct (List.filter (forPair v e) (voting_records st)).
Qed.

Lemma addEligibleVoters_run referenced st user election ids :
  isAdmin user = true ->
  assertAdminCanAccessElection st user election = None ->
  ids <> [] ->
  addEligibleVoters referenced st user election (Some ids)
  = (AdminOk "Électeurs ajoutés",
     fold_left (insertIgnoreVotingRecord referenced election) ids st).
Proof.
  intros Hadmin Hacc Hne. unfold addEligibleVoters. rewrite Hadmin, Hacc.
  by destruct ids.
Qed.

Lemma addEligibleVoters_ok referenced st user election voterIds m st' :
  addEligibleVoters referenced st user election voterIds = (AdminOk m, st') ->
  exists ids,
    voterIds = Some ids /\ ids <> []
    /\ isAdmin user = true
    /\ assertAdminCanAccessElection st user election = None
    /\ m = "Électeurs ajoutés"
    /\ st' = fold_left (insertIgnoreVotingRecord referenced election) ids st.
Proof.
  unfold addEligibleVoters.
  destruct (isAdmin user); cbn [negb]; [|done].
  destruct (assertAdminCanAccessElection st user election) eqn:Hacc; [done|].
  destruct voterIds as [ids|]; [|done].
  destruct ids as [|v0 ids0]; [done|].
  intros [= <- <-]. exists (v0 :: ids0). repeat split; done.
Qed.

(** X12.  Adding eligible voters only appends records for the election
    that are marked as not voted, so no mark is lost or set; it keeps the
    pairs of (voter, election) unique; every voter of the list that the
    database knows is eligible afterwards; and sending the same list again
    changes nothing. *)
Theorem add_eligible_voters referenced st user election voterIds m st' :
  addEligibleVoters referenced st user election voterIds = (AdminOk m, st') ->
  (exists added,
      st' = withVotingRecords st (voting_records st ++ added)
      /\ Forall (fun r => has_voted r = false /\ vr_election_id r = election) added)
  /\ (forall v e, hasVotedIn st' v e = hasVotedIn st v e)
  /\ (uniquePairs st -> uniquePairs st')
  /\ (forall v, In v (default [] voterIds) -> referenced v = true ->
        eligible (myStatus st' v election) = true)
  /\ addEligibleVoters referenced st' user election voterIds = (AdminOk m, st').
Proof.
  intros (ids & -> & Hne & Hadmin & Hacc & -> & ->)%addEligibleVoters_ok.
  destruct (fold_insertIgnore referenced election ids st)
    as ((added & Hst' & Hadded) & Huniq & Hin).
  set (st' := fold_left _ ids st) in *.
  split; [by exists added|]. split; [|split; [done|split]].
  - intros v e. rewrite Hst', select_app_first. unfold hasVotedIn.
    destruct (selectVotingRecords st v e); [|done].
    destruct (List.filter (forPair v e) added) as [|r rest] eqn:Hf; [done|].
    assert (Hr : In r added).
    { apply (proj1 (filter_In (forPair v e) r added)). rewrite Hf. by left. }
    rewrite List.Forall_forall in Hadded. by destruct (Hadded r Hr).
  - intros v Hv Href. specialize (Hin v Hv). rewrite Href, orb_false_r in Hin.
    apply select_nonempty_iff in Hin. unfold myStatus.
    by destruct (selectVotingRecords st' v election).
  - rewrite addEligibleVoters_run; [|done| |done].
    + by rewrite fold_insertIgnore_nothing.
    + by rewrite Hst', access_withVotingRecords.
Qed.

Lemma add_eligible_voters_witness :
  let known := fun v => v <? 5 in
  let st' := snd (addEligibleVoters known pollOpen admin 1 (Some [2; 3; 9])) in
  voting_records st' = [voter 1 1 false; voter 2 1 false; voter 3 1 false]
  /\ addEligibleVoters known st' admin 1 (Some [2; 3; 9]) = (AdminOk "Électeurs ajoutés", st').
Proof.
  intros known st'. split; [reflexivity|].
  apply (add_eligible_voters known pollOpen admin 1 (Some [2; 3; 9])
           "Électeurs ajoutés" st' eq_refl).
Defined.


Lemma filter_removed {A} (p : A -> bool) (l : list A) :
  List.filter p (List.filter (fun x => negb (p x)) l) = [].
Proof.
  induction l as [|x xs IH]; [done|].
  cbn [List.filter]. destruct (p x) eqn:Hx; cbn [negb]; [exact IH|].
  cbn [List.filter]. by rewrite Hx.
Qed.

Section Removal.
Context `{NodeRuntime}.


End Removal.


(** ** The ledger and the vault *)

Lemma String_of_Z_inj (a b : Z) : Js.String_of_Z a = Js.String_of_Z b -> a = b.
Proof.
  unfold Js.String_of_Z. intros Heq.
  assert (Hnn : forall z, Z.to_int z <> Decimal.Pos Decimal.Nil
                          /\ Z.to_int z <> Decimal.Neg Decimal.Nil).
  { intros [|p|p]; cbn; split; try discriminate; intros [= Hp];
      by apply (DecimalPos.Unsigned.to_uint_nonnil p). }
  apply DecimalZ.to_int_inj.
  assert (Hs : Some (Z.to_int a) = Some (Z.to_int b)).
  { rewrite <- (NilZero.isi (Z.to_int a)), <- (NilZero.isi (Z.to_int b));
      [by rewrite Heq|apply Hnn..]. }
  by injection Hs.
Qed.

Lemma String_of_Z_eqb (a b : Z) :
  String.eqb (Js.String_of_Z a) (Js.String_of_Z b) = (a =? b).
Proof.
  destruct (Z.eqb_spec a b) as [->|Hne]; [apply String.eqb_refl|].
  apply String.eqb_neq. intros Heq. by apply String_of_Z_inj in Heq.
Qed.

Lemma wellKept_sameLedger st st' : sameLedger st st' -> wellKept st -> wellKept st'.
Proof.
  intros [Hr Hb] (Hp & Hh & Hc). unfold wellKept, uniquePairs, uniqueHashes, consistent,
    countVoted, Ballot_find in *.
  by rewrite Hr, Hb.
Qed.

Lemma sameLedger_refl st : sameLedger st st.
Proof. by split. Qed.

Lemma sameLedger_status status message st user election :
  sameLedger st (snd (setElectionStatus status message st user election)).
Proof.
  unfold setElectionStatus.
  destruct (negb _); [apply sameLedger_refl|].
  destruct (assertAdminCanAccessElection _ _ _); [apply sameLedger_refl|].
  destruct (selectElection _ _); [apply sameLedger_refl|]. by split.
Qed.

Lemma sameLedger_create st user input :
  sameLedger st (snd (createElection st user input)).
Proof.
  unfold createElection.
  destruct (negb _); [apply sameLedger_refl|].
  destruct (in_title input); [|apply sameLedger_refl].
  destruct (idOrNull (in_start_date input)); [|apply sameLedger_refl].
  destruct (idOrNull (in_end_date input)); [|apply sameLedger_refl].
  destruct (String.eqb _ _); [apply sameLedger_refl|]. by split.
Qed.

Lemma sameLedger_proclaim st env user election :
  sameLedger st (snd (proclaim st env user election)).
Proof.
  unfold proclaim.
  destruct (negb _); [apply sameLedger_refl|].
  destruct (assertAdminCanAccessElection _ _ _); [apply sameLedger_refl|].
  destruct (election_results st !! election); [by split|apply sameLedger_refl].
Qed.

Section Ledger.
Context `{NodeRuntime}.

Lemma sameLedger_tally st env faults user election :
  sameLedger st (final (runTally st env faults user election)).
Proof.
  unfold runTally.
  destruct (negb _); [apply sameLedger_refl|].
  destruct (negb _); [apply sameLedger_refl|].
  cbn [answer final]. unfold persistResults.
  destruct (onCreateTable faults); [|apply sameLedger_refl].
  destruct (onUpsert faults); [by split|].
  destruct (missingColumn _); [|apply sameLedger_refl].
  destruct (onUpsertRetry faults); [by split|apply sameLedger_refl].
Qed.

(** When the UPDATE goes through, the handler either leaves the state, or
    saves one ballot for the election and marks the one record it read. *)
Lemma submitVote_final st env req :
  mark_rejected env = None ->
  final (submitVote st env req) = st
  \/ exists b r rest,
       selectVotingRecords st (rq_voterId req) (rq_electionId req) = r :: rest
       /\ has_voted r = false
       /\ b_electionId b = Js.String_of_Z (rq_electionId req)
       /\ hashTaken st (voteHash b) = false
       /\ response (submitVote st env req) = VoteReceipt (voteHash b)
       /\ final (submitVote st env req)
          = updateVotingRecord (withBallots st (ballots st ++ [b]))
              (NOW env) (rq_voterId req) (rq_electionId req).
Proof.
  intros Hmark.
  unfold submitVote.
  destruct (_ || _); [by left|].
  destruct (selectVotingRecords st _ _) as [|r rest] eqn:Hsel; [by left|].
  destruct (has_voted r) eqn:Hr; [by left|].
  destruct (selectActiveElection st _); [by left|].
  destruct (selectCandidate st _ _); [by left|].
  destruct (encryptVote _ _ _) as [m|enc]; [by left|].
  destruct (Ballot_save st (ballotOf env req enc)) as [err|st1] eqn:Hsave; [by left|].
  rewrite Hmark. right. unfold Ballot_save in Hsave.
  destruct (_ || _); [done|].
  destruct (hashTaken st _) eqn:Htaken; [done|]. injection Hsave as <-.
  exists (ballotOf env req enc), r, rest. repeat split; done.
Qed.

(** A receipt comes with the second case. *)
Lemma submitVote_receipt_final st env req h :
  response (submitVote st env req) = VoteReceipt h ->
  exists b r rest,
    selectVotingRecords st (rq_voterId req) (rq_electionId req) = r :: rest
    /\ has_voted r = false
    /\ final (submitVote st env req)
       = updateVotingRecord (withBallots st (ballots st ++ [b]))
           (NOW env) (rq_voterId req) (rq_electionId req).
Proof.
  unfold submitVote.
  destruct (_ || _); [done|].
  destruct (selectVotingRecords st _ _) as [|r rest] eqn:Hsel; [done|].
  destruct (has_voted r) eqn:Hr; [done|].
  destruct (selectActiveElection st _); [done|].
  destruct (selectCandidate st _ _); [done|].
  destruct (encryptVote _ _ _) as [m|enc]; [done|].
  destruct (Ballot_save st (ballotOf env req enc)) as [err|st1] eqn:Hsave; [done|].
  destruct (mark_rejected env); [done|].
  apply Ballot_save_ok in Hsave as (-> & _). intros _.
  by exists (ballotOf env req enc), r, rest.
Qed.

End Ledger.

(** ** A voter who is removed and added again *)

Lemma access_after_vote `{NodeRuntime} st env req user election :
  assertAdminCanAccessElection (final (submitVote st env req)) user election
  = assertAdminCanAccessElection st user election.
Proof.
  destruct (submitVote_cases st env req)
    as [(-> & _)|(b & _ & _ & _ & _ & _ & _ & Hend)]; [done|].
  by destruct Hend as [(_ & _ & ->)|(err & _ & _ & ->)].
Qed.

(** C1 fails on the code.  After a receipt the pair is marked.  An
    administrator who removes the voter from the election, which the
    handler that the route reaches first does whatever [has_voted] says,
    and adds the voter again leaves a fresh record that is not marked, and
    the ballot in the vault.  The next vote request of the pair is then
    never answered that the voter has already voted, and when it gets its
    receipt the vault holds two ballots of the pair for the election. *)
Theorem readmitted_voter_votes_again `{NodeRuntime} referenced st env req receipt user :
  response (submitVote st env req) = VoteReceipt receipt ->
  isAdmin user = true ->
  assertAdminCanAccessElection st user (rq_electionId req) = None ->
  referenced (rq_voterId req) = true ->
  let v := rq_voterId req in
  let e := rq_electionId req in
  let st1 := final (submitVote st env req) in
  let st2 := snd (removeEligibleVoter st1 user e v) in
  let st3 := snd (addEligibleVoters referenced st2 user e (Some [v])) in
  hasVotedIn st1 v e = true
  /\ fst (removeEligibleVoter st1 user e v) = AdminOk "Électeur retiré du scrutin"
  /\ fst (addEligibleVoters referenced st2 user e (Some [v])) = AdminOk "Électeurs ajoutés"
  /\ selectVotingRecords st3 v e
     = [{| vr_voter_id := v; vr_election_id := e; has_voted := false; voted_at := None |}]
  /\ ballots st3 = ballots st1
  /\ forall env' req',
       rq_voterId req' = v -> rq_electionId req' = e ->
       response (submitVote st3 env' req') <> VoteAlreadyVoted
       /\ forall h,
            response (submitVote st3 env' req') = VoteReceipt h ->
            exists b1 b2,
              ballots (final (submitVote st3 env' req')) = ballots st ++ [b1; b2]
              /\ voteHash b1 = receipt /\ voteHash b2 = h
              /\ b_electionId b1 = Js.String_of_Z e
              /\ b_electionId b2 = Js.String_of_Z e.
Proof.
  intros Hresp Hadmin Hacc Href v e st1 st2 st3.
  destruct (submitVote_receipt _ _ _ _ Hresp) as [Hmark _].
  fold v e st1 in Hmark.
  pose proof (submitVote_receipt_inv _ _ _ _ Hresp) as (_ & _ & _ & _ & Hgo & _).
  destruct (submitVote_final st env req Hgo)
    as [Hsame|(b1 & _ & _ & _ & _ & Hb1 & _ & Hh1 & Hst1)].
  { exfalso. unfold st1 in Hmark. rewrite Hsame in Hmark.
    rewrite (submitVote_marked _ _ _ Hmark) in Hresp. cbn [answer response] in Hresp.
    by destruct (_ || _). }
  fold st1 v e in Hst1. rewrite Hresp in Hh1. injection Hh1 as Hh1.
  assert (Hsel1 : selectVotingRecords st1 v e <> []).
  { unfold hasVotedIn in Hmark. by destruct (selectVotingRecords st1 v e). }
  assert (Hrm : removeEligibleVoter st1 user e v
                = (AdminOk "Électeur retiré du scrutin", deleteVotingRecord st1 v e)).
  { unfold removeEligibleVoter. rewrite Hadmin. cbn [negb].
    by destruct (selectVotingRecords st1 v e). }
  assert (Hst2 : st2 = deleteVotingRecord st1 v e) by (unfold st2; by rewrite Hrm).
  assert (Hgone : existsb (forPair v e) (voting_records st2) = false).
  { destruct (existsb _ _) eqn:Hex; [|done].
    apply select_nonempty_iff in Hex. exfalso. apply Hex.
    rewrite Hst2. unfold selectVotingRecords, deleteVotingRecord.
    cbn [voting_records withVotingRecords]. apply filter_removed. }
  assert (Hacc2 : assertAdminCanAccessElection st2 user e = None).
  { rewrite Hst2. unfold deleteVotingRecord. rewrite access_withVotingRecords.
    unfold st1. by rewrite access_after_vote. }
  assert (Hadd : addEligibleVoters referenced st2 user e (Some [v])
                 = (AdminOk "Électeurs ajoutés",
                    withVotingRecords st2
                      (voting_records st2 ++
                         [{| vr_voter_id := v; vr_election_id := e;
                             has_voted := false; voted_at := None |}]))).
  { rewrite addEligibleVoters_run by done. cbn [fold_left].
    unfold insertIgnoreVotingRecord. fold v in Href. by rewrite Hgone, Href. }
  assert (Hst3 : st3 = withVotingRecords st2
                         (voting_records st2 ++
                            [{| vr_voter_id := v; vr_election_id := e;
                                has_voted := false; voted_at := None |}]))
    by (unfold st3; by rewrite Hadd).
  assert (Hsel3 : selectVotingRecords st3 v e
                  = [{| vr_voter_id := v; vr_election_id := e;
                        has_voted := false; voted_at := None |}]).
  { rewrite Hst3. unfold selectVotingRecords. cbn [voting_records withVotingRecords].
    rewrite List.filter_app.
    assert (Hnone : List.filter (forPair v e) (voting_records st2) = []).
    { destruct (List.filter _ _) eqn:Hf; [done|].
      assert (Hne : selectVotingRecords st2 v e <> []).
      { unfold selectVotingRecords. by rewrite Hf. }
      apply select_nonempty_iff in Hne. congruence. }
    rewrite Hnone. cbn [List.filter app]. unfold forPair.
    cbn [vr_voter_id vr_election_id]. by rewrite !Z.eqb_refl. }
  assert (Hb3 : ballots st3 = ballots st1) by (by rewrite Hst3, Hst2).
  split; [exact Hmark|]. split; [by rewrite Hrm|]. split; [by rewrite Hadd|].
  split; [exact Hsel3|]. split; [exact Hb3|].
  intros env' req' Hv' He'. split.
  - unfold submitVote. rewrite Hv', He', Hsel3. cbn [has_voted].
    destruct (_ || _); [done|].
    destruct (selectActiveElection st3 _); [done|].
    destruct (selectCandidate st3 _ _); [done|].
    destruct (encryptVote _ _ _); [done|].
    destruct (Ballot_save st3 _); [done|].
    by destruct (mark_rejected env').
  - intros h Hresp'.
    pose proof (submitVote_receipt_inv _ _ _ _ Hresp') as (_ & _ & _ & _ & Hgo' & _).
    destruct (submitVote_final st3 env' req' Hgo')
      as [Hsame|(b2 & _ & _ & _ & _ & Hb2 & _ & Hh2 & Hfin)].
    { exfalso. destruct (submitVote_receipt _ _ _ _ Hresp') as [_ Hlen].
      rewrite Hsame in Hlen. lia. }
    rewrite Hresp' in Hh2. injection Hh2 as Hh2.
    exists b1, b2. rewrite Hfin. cbn [ballots updateVotingRecord withBallots].
    rewrite Hb3, Hst1. cbn [ballots updateVotingRecord withBallots].
    rewrite <- app_assoc. split; [done|]. split; [done|]. split; [done|].
    split; [done|]. by rewrite Hb2, He'.
Qed.

(** Voter 1 votes in election 1, is removed and added again, and votes
    again: two receipts and two ballots. *)
Lemma readmitted_voter_votes_again_witness :
  let st1 := final (submitVote (H:=clearRuntime) pollOpen (envAt 10 "aa") (ballotRequest 1 1)) in
  let st2 := snd (removeEligibleVoter st1 admin 1 1) in
  let st3 := snd (addEligibleVoters (fun _ => true) st2 admin 1 (Some [1])) in
  let o := submitVote (H:=clearRuntime) st3 (envAt 11 "bb") (ballotRequest 1 2) in
  response o = VoteReceipt "1-1-2025-11-01T16:36:00.000Z-bb"
  /\ exists b1 b2,
       ballots (final o) = [b1; b2]
       /\ voteHash b1 = "1-1-2025-11-01T16:36:00.000Z-aa"
       /\ voteHash b2 = "1-1-2025-11-01T16:36:00.000Z-bb"
       /\ b_electionId b1 = "1" /\ b_electionId b2 = "1".
Proof.
  intros st1 st2 st3 o.
  destruct (readmitted_voter_votes_again (H:=clearRuntime) (fun _ => true) pollOpen
              (envAt 10 "aa") (ballotRequest 1 1) "1-1-2025-11-01T16:36:00.000Z-aa" admin
              eq_refl eq_refl eq_refl eq_refl)
    as (_ & _ & _ & _ & _ & Hagain).
  destruct (Hagain (envAt 11 "bb") (ballotRequest 1 2) eq_refl eq_refl) as [_ Htwo].
  split; [reflexivity|].
  exact (Htwo "1-1-2025-11-01T16:36:00.000Z-bb" eq_refl).
Defined.

Lemma pairOf_setVoted now v e r : pairOf (setVoted now v e r) = pairOf r.
Proof. unfold setVoted. by destruct (forPair v e r). Qed.

Lemma setVoted_other now v e rs :
  ~ In (v, e) (map pairOf rs) -> map (setVoted now v e) rs = rs.
Proof.
  induction rs as [|x xs IH]; [done|]. cbn [map In]. intros Hnot.
  rewrite IH by tauto. unfold setVoted.
  destruct (forPair v e x) eqn:Hx; [|done].
  apply forPair_pairOf in Hx. exfalso. apply Hnot. by left.
Qed.

(** With unique pairs, marking the pair turns exactly one record, the one
    the handler read, from not voted to voted. *)
Lemma voted_after_mark now v e rs r rest e' :
  NoDup (map pairOf rs) ->
  List.filter (forPair v e) rs = r :: rest ->
  has_voted r = false ->
  length (List.filter (fun x => (vr_election_id x =? e') && has_voted x)
            (map (setVoted now v e) rs))
  = (length (List.filter (fun x => (vr_election_id x =? e')%Z && has_voted x) rs)
     + if (e' =? e)%Z then 1 else 0)%nat.
Proof.
  induction rs as [|x xs IH]; [done|].
  cbn [map List.filter]. intros Hnd Hsel Hr.
  apply NoDup_cons in Hnd as [Hx Hnd].
  destruct (forPair v e x) eqn:Hpair.
  - injection Hsel as -> _.
    assert (Hp := Hpair). apply forPair_pairOf in Hp.
    rewrite setVoted_other.
    2:{ rewrite <- Hp. intros Hin. apply Hx. by apply list_elem_of_In. }
    unfold setVoted. rewrite Hpair, Hr. cbn [vr_election_id has_voted].
    rewrite andb_false_r, andb_true_r.
    injection Hp as _ ->. rewrite (Z.eqb_sym e e').
    destruct (e' =? e); cbn [length]; lia.
  - specialize (IH Hnd Hsel Hr).
    assert (Hsame : setVoted now v e x = x) by (unfold setVoted; by rewrite Hpair).
    rewrite Hsame.
    destruct ((vr_election_id x =? e') && has_voted x); cbn [length]; lia.
Qed.

Lemma filter_implied {A} (p q : A -> bool) (l : list A) :
  (forall x, q x = true -> p x = true) ->
  List.filter q (List.filter p l) = List.filter q l.
Proof.
  intros Hqp. induction l as [|x xs IH]; [done|].
  cbn [List.filter]. destruct (p x) eqn:Hp; cbn [List.filter]; rewrite IH; [done|].
  destruct (q x) eqn:Hq; [|done]. apply Hqp in Hq. congruence.
Qed.

Lemma filter_excluded {A} (p q : A -> bool) (l : list A) :
  (forall x, q x = true -> p x = false) ->
  List.filter q (List.filter p l) = [].
Proof.
  intros Hqp. induction l as [|x xs IH]; [done|].
  cbn [List.filter]. destruct (p x) eqn:Hp; cbn [List.filter]; rewrite IH; [|done].
  destruct (q x) eqn:Hq; [|done]. apply Hqp in Hq. congruence.
Qed.

Lemma NoDup_map_filter {A B} (f : A -> B) (p : A -> bool) (l : list A) :
  NoDup (map f l) -> NoDup (map f (List.filter p l)).
Proof.
  induction l as [|x xs IH]; [done|].
  cbn [map List.filter]. intros [Hx Hnd]%NoDup_cons.
  destruct (p x); [|by apply IH].
  cbn [map]. apply NoDup_cons. split; [|by apply IH].
  intros Hin. apply Hx. apply list_elem_of_In. apply list_elem_of_In in Hin.
  apply in_map_iff in Hin as (y & Hy & Hin). apply in_map_iff. exists y.
  split; [done|]. by apply filter_In in Hin as [Hin _].
Qed.

Lemma hashTaken_elem st h :
  hashTaken st h = false -> ~ In h (map voteHash (ballots st)).
Proof.
  unfold hashTaken. intros Hno Hin. apply in_map_iff in Hin as (b & Hb & Hin).
  assert (Hex : existsb (fun b => String.eqb (voteHash b) h) (ballots st) = true).
  { apply existsb_exists. exists b. split; [done|]. by apply String.eqb_eq. }
  congruence.
Qed.

Lemma no_vote_added election added rs :
  Forall (fun r => has_voted r = false /\ vr_election_id r = election) added ->
  forall e',
    List.filter (fun x => (vr_election_id x =? e') && has_voted x) (rs ++ added)
    = List.filter (fun x => (vr_election_id x =? e') && has_voted x) rs.
Proof.
  intros Hadded e'. rewrite List.filter_app.
  replace (List.filter _ added) with (@nil VotingRecord); [by rewrite app_nil_r|].
  symmetry. induction Hadded as [|x xs [Hx _] _ IH]; [done|].
  cbn [List.filter]. by rewrite Hx, andb_false_r.
Qed.

Section Invariant.
Context `{NodeRuntime}.

Lemma wellKept_vote st env req :
  mark_rejected env = None ->
  wellKept st -> wellKept (final (submitVote st env req)).
Proof.
  intros Hmark Hwk. destruct (submitVote_final st env req Hmark)
    as [->|(b & r & rest & Hsel & Hr & Hb & Hfresh & _ & ->)]; [done|].
  destruct Hwk as (Hp & Hh & Hc). split; [|split].
  - unfold uniquePairs in *. cbn [voting_records updateVotingRecord withBallots].
    rewrite map_map.
    rewrite (map_ext _ pairOf) by (intros x; apply pairOf_setVoted). done.
  - unfold uniqueHashes in *. cbn [ballots updateVotingRecord withBallots].
    rewrite map_app. apply NoDup_app. split; [done|]. split; [|apply NoDup_singleton].
    intros h Hin [<-|[]]%list_elem_of_In. apply list_elem_of_In in Hin.
    by apply hashTaken_elem in Hin.
  - intros e'. unfold consistent, countVoted, Ballot_find in *.
    cbn [voting_records ballots updateVotingRecord withBallots].
    rewrite (voted_after_mark _ _ _ _ r rest e' Hp Hsel Hr).
    rewrite List.filter_app, length_app, Hc. f_equal.
    cbn [List.filter]. rewrite Hb, String_of_Z_eqb, (Z.eqb_sym _ e').
    by destruct (e' =? _).
Qed.

Lemma wellKept_addEligible referenced st user election ids :
  wellKept st -> wellKept (snd (addEligibleVoters referenced st user election ids)).
Proof.
  intros Hwk.
  destruct (addEligibleVoters referenced st user election ids) as [resp st'] eqn:Hrun.
  cbn [snd].
  assert (Hst' : st' = st \/ exists m, resp = AdminOk m).
  { revert Hrun. unfold addEligibleVoters.
    destruct (negb _); [intros [= _ <-]; by left|].
    destruct (assertAdminCanAccessElection _ _ _); [intros [= _ <-]; by left|].
    destruct ids as [[|v vs]|]; [intros [= _ <-]; by left| |intros [= _ <-]; by left].
    intros [= <- _]. right. by eexists. }
  destruct Hst' as [->|[m ->]]; [done|].
  apply addEligibleVoters_ok in Hrun as (l & _ & _ & _ & _ & _ & ->).
  destruct (fold_insertIgnore referenced election l st) as ((added & -> & Hadded) & Hu & _).
  destruct Hwk as (Hp & Hh & Hc). split; [by apply Hu|]. split; [done|].
  intros e'. unfold consistent, countVoted, Ballot_find in *.
  cbn [voting_records ballots withVotingRecords].
  by rewrite (no_vote_added election added _ Hadded e').
Qed.

Lemma wellKept_delete st user election :
  wellKept st -> wellKept (snd (deleteElection st false user election)).
Proof.
  intros (Hp & Hh & Hc). unfold deleteElection.
  destruct (negb _); [done|].
  destruct (assertAdminCanAccessElection _ _ _); [done|].
  destruct (selectElection _ _); [done|].
  cbn [snd]. split; [|split].
  - unfold uniquePairs in *. cbn [voting_records]. by apply NoDup_map_filter.
  - unfold uniqueHashes in *. cbn [ballots]. by apply NoDup_map_filter.
  - intros e'. unfold consistent, countVoted, Ballot_find in *.
    cbn [voting_records ballots].
    destruct (Z.eqb_spec e' election) as [->|Hne].
    + rewrite !filter_excluded; [done| |].
      * intros b Hb. by rewrite Hb.
      * intros r [Hr _]%andb_true_iff. by rewrite Hr.
    + rewrite !filter_implied; [apply Hc| |].
      * intros b Hb%String.eqb_eq. rewrite Hb, String_of_Z_eqb.
        by destruct (Z.eqb_spec e' election).
      * intros r [Hr%Z.eqb_eq _]%andb_true_iff. rewrite Hr.
        by destruct (Z.eqb_spec e' election).
Qed.

Lemma wellKept_perform referenced st op :
  markGoesThrough op = true ->
  wellKept st -> wellKept (perform referenced st op).
Proof.
  intros Hmark Hwk. destruct op; cbn [perform].
  - apply wellKept_vote; [|done]. cbn [markGoesThrough] in Hmark.
    by destruct (mark_rejected env).
  - by apply wellKept_addEligible.
  - by apply (wellKept_sameLedger st), Hwk; apply sameLedger_status.
  - by apply (wellKept_sameLedger st), Hwk; apply sameLedger_status.
  - by apply (wellKept_sameLedger st), Hwk; apply sameLedger_create.
  - by apply (wellKept_sameLedger st), Hwk; apply sameLedger_tally.
  - by apply (wellKept_sameLedger st), Hwk; apply sameLedger_proclaim.
  - by apply wellKept_delete.
Qed.

(** X14.  As long as requests are served one after the other and the
    UPDATE that marks the voter goes through in every vote, the ledger of
    voters and the vault of ballots stay in step: starting from a state
    where the pairs (voter, election) and the ballot hashes are unique and
    every election has as many voters marked as ballots stored, any sequence
    of votes, additions of eligible voters, starts, closings, creations,
    tallies, proclamations and deletions of elections leads to such a state
    again.  The tally of an administrator is then never refused as
    inconsistent. *)
Theorem ledger_and_vault_stay_in_step referenced st ops :
  wellKept st ->
  forallb markGoesThrough ops = true ->
  wellKept (performAll referenced st ops)
  /\ forall env faults user election,
       isAdmin user = true ->
       exists summary results tie tied winner,
         response (runTally (performAll referenced st ops) env faults user election)
         = TallyDone summary results tie tied winner.
Proof.
  intros Hwk Hmarks.
  assert (Hall : wellKept (performAll referenced st ops)).
  { unfold performAll. revert st Hwk Hmarks.
    induction ops as [|op ops IH]; intros st Hwk Hmarks; [done|].
    cbn [forallb] in Hmarks. apply andb_true_iff in Hmarks as [Hop Hmarks].
    cbn [fold_left]. apply IH; [|done]. by apply wellKept_perform. }
  split; [exact Hall|].
  intros env faults user election Hadmin.
  destruct Hall as (_ & _ & Hc). specialize (Hc election). unfold consistent in Hc.
  unfold runTally. rewrite Hadmin, Hc, Nat.eqb_refl. cbn [negb answer response].
  by repeat eexists.
Qed.

End Invariant.

Lemma ledger_and_vault_stay_in_step_witness :
  let ops := [OpVote (envAt 10 "aa") (ballotRequest 1 1);
              OpAddEligible admin 1 (Some [3]);
              OpClose admin 1;
              OpTally (envAt 20 "") noFault admin 1] in
  wellKept pollOpen
  /\ wellKept (performAll (H:=clearRuntime) (fun _ => true) pollOpen ops)
  /\ countVoted (performAll (H:=clearRuntime) (fun _ => true) pollOpen ops) 1 = 1%nat.
Proof.
  intros ops.
  assert (Hwk : wellKept pollOpen).
  { split; [|split].
    - unfold uniquePairs. cbn. apply NoDup_cons. split; [|apply NoDup_singleton].
      intros Hin%list_elem_of_In. destruct Hin as [[=]|[]].
    - unfold uniqueHashes. cbn. apply NoDup_nil. done.
    - intros e. unfold consistent, countVoted, Ballot_find. cbn.
      by rewrite !andb_false_r. }
  split; [exact Hwk|]. split; [|reflexivity].
  apply (ledger_and_vault_stay_in_step (H:=clearRuntime) (fun _ => true) pollOpen ops Hwk).
  reflexivity.
Defined.

(** ** A ballot without a mark *)

Section Orphan.
Context `{NodeRuntime}.


End Orphan.


(** ** The tally adds up *)

Lemma list_sum_perm (l k : list nat) : Permutation l k -> list_sum l = list_sum k.
Proof. unfold list_sum. induction 1; cbn in *; lia. Qed.

Lemma list_sum_cons (x : nat) (l : list nat) : list_sum (x :: l) = (x + list_sum l)%nat.
Proof. reflexivity. Qed.

Section ObjectSums.
Implicit Types (o : Js.Object nat) (k : string).

Lemma keys_replace o k v : Js.keys (Js.replace o k v) = Js.keys o.
Proof.
  unfold Js.keys. induction o as [|[k0 v0] o IH]; [done|].
  cbn [Js.replace]. destruct (String.eqb k k0); cbn [map fst]; [done|].
  by rewrite IH.
Qed.

Lemma sum_replace o k v v0 :
  Js.get o k = Some v0 ->
  (list_sum (map snd (Js.replace o k v)) + v0 = list_sum (map snd o) + v)%nat.
Proof.
  induction o as [|[k0 v1] o IH]; [done|].
  cbn [Js.get Js.replace]. destruct (String.eqb k k0).
  - intros [= ->]. cbn [map snd]. rewrite !list_sum_cons. lia.
  - intros Hget. specialize (IH Hget). cbn [map snd]. rewrite !list_sum_cons. lia.
Qed.

Lemma insertIndex_perm o n k v : Permutation (Js.insertIndex o n k v) ((k, v) :: o).
Proof.
  induction o as [|[k0 v0] o IH]; [done|].
  cbn [Js.insertIndex]. destruct (Js.arrayIndex k0) as [n0|]; [|done].
  destruct (n0 <? n); [|done].
  rewrite IH. apply perm_swap.
Qed.

Lemma set_new_perm o k v :
  Js.get o k = None -> Permutation (Js.set o k v) ((k, v) :: o).
Proof.
  intros Hget. unfold Js.set. rewrite Hget.
  destruct (Js.arrayIndex k); [apply insertIndex_perm|].
  symmetry. apply Permutation_cons_append.
Qed.

Lemma sum_increment o k :
  list_sum (map snd (increment o k)) = S (list_sum (map snd o)).
Proof.
  unfold increment. destruct (Js.get o k) as [v0|] eqn:Hget.
  - unfold Js.set. rewrite Hget. cbn [default from_option id].
    pose proof (sum_replace o k (v0 + 1)%nat v0 Hget). lia.
  - rewrite (list_sum_perm _ _ (Permutation_map snd (set_new_perm o k _ Hget))).
    cbn [map snd default from_option id]. rewrite list_sum_cons. lia.
Qed.

Lemma keys_increment o k :
  NoDup (Js.keys o) -> NoDup (Js.keys (increment o k)).
Proof.
  intros Hnd. unfold increment. destruct (Js.get o k) as [v0|] eqn:Hget.
  - unfold Js.set. rewrite Hget. by rewrite keys_replace.
  - unfold Js.keys.
    rewrite (Permutation_map fst (set_new_perm o k _ Hget)). cbn [map fst].
    apply NoDup_cons. split; [|done].
    intros Hin%list_elem_of_In. apply keys_get in Hin as [v Hv]. congruence.
Qed.

Lemma values_by_key o :
  NoDup (Js.keys o) ->
  map (fun k => default 0%nat (Js.get o k)) (Js.keys o) = map snd o.
Proof.
  unfold Js.keys. induction o as [|[k0 v0] o IH]; [done|].
  cbn [map fst snd]. intros [Hk0 Hnd]%NoDup_cons.
  cbn [Js.get]. rewrite String.eqb_refl. cbn [default from_option id]. f_equal.
  rewrite <- (IH Hnd). apply map_ext_in. intros k Hk.
  destruct (String.eqb_spec k k0) as [->|Hne]; [|done].
  exfalso. apply Hk0. by apply list_elem_of_In.
Qed.

End ObjectSums.

Section TallySums.
Context `{NodeRuntime}.

Lemma countVotes_sound electionId bs :
  list_sum (map snd (fst (countVotes electionId bs))) = snd (countVotes electionId bs)
  /\ NoDup (Js.keys (fst (countVotes electionId bs))).
Proof.
  unfold countVotes.
  assert (Hgen : forall acc,
             list_sum (map snd (fst acc)) = snd acc /\ NoDup (Js.keys (fst acc)) ->
             list_sum (map snd (fst (fold_left (countBallot electionId) bs acc)))
             = snd (fold_left (countBallot electionId) bs acc)
             /\ NoDup (Js.keys (fst (fold_left (countBallot electionId) bs acc)))).
  { induction bs as [|b bs IH]; intros acc Hacc; [done|].
    cbn [fold_left]. apply IH. unfold countBallot.
    destruct (decryptBallot electionId b); [|done].
    cbn [fst snd]. destruct Hacc as [Hsum Hnd]. split.
    - rewrite sum_increment. f_equal. exact Hsum.
    - by apply keys_increment. }
  apply Hgen. split; [done|]. apply NoDup_nil. done.
Qed.

Lemma resultsOf_perm (voteCount : Js.Object nat) candidateMap n :
  Permutation (resultsOf voteCount candidateMap n)
    (map (entryOf voteCount candidateMap n) (Js.keys voteCount)).
Proof. apply sortByVotes_perm. Qed.

(** X15.  The tally adds up: the votes of the lines of the result sum to
    the number of ballots that decrypted, no candidate has two lines, and
    every candidate for whom a ballot decrypted has a line. *)
Theorem tally_adds_up st env faults user election summary results tie tied winner :
  response (runTally st env faults user election)
  = TallyDone summary results tie tied winner ->
  totalOf results = decryptedVotes summary
  /\ (totalOf results <= totalVotes summary)%nat
  /\ NoDup (map candidateId results)
  /\ forall k,
       (0 < countFor (Js.String_of_Z election)
              (Ballot_find st (Js.String_of_Z election)) k)%nat ->
       exists r, In r results /\ candidateId r = k.
Proof.
  intros Hdone. apply runTally_done in Hdone.
  cbn zeta in Hdone. destruct Hdone as (_ & _ & Hres & _ & _ & _ & ->).
  set (bs := Ballot_find st (Js.String_of_Z election)) in *.
  set (eid := Js.String_of_Z election) in *.
  destruct (countVotes_sound eid bs) as [Hsum Hnd].
  pose proof (resultsOf_perm (fst (countVotes eid bs)) (candidateMapOf st election)
                (length bs)) as Hperm.
  rewrite <- Hres in Hperm.
  assert (Htotal : totalOf results = countDecrypted eid bs).
  { unfold totalOf. rewrite (list_sum_perm _ _ (Permutation_map votes Hperm)).
    rewrite map_map. cbn [votes entryOf].
    rewrite (values_by_key _ Hnd), Hsum. apply snd_countVotes. }
  cbn [decryptedVotes totalVotes]. split; [exact Htotal|]. split; [|split].
  - rewrite Htotal. apply countDecrypted_le.
  - rewrite (Permutation_map candidateId Hperm), map_map. cbn [candidateId entryOf].
    by rewrite map_id.
  - intros k Hk.
    assert (Hin : In k (Js.keys (fst (countVotes eid bs)))).
    { apply keys_get. rewrite get_countVotes.
      destruct (countFor eid bs k); [lia|by eexists]. }
    exists (entryOf (fst (countVotes eid bs)) (candidateMapOf st election) (length bs) k).
    split; [|done].
    apply (Permutation_in _ (Permutation_sym Hperm)). by apply in_map.
Qed.

End TallySums.

Lemma tally_adds_up_witness :
  exists summary results tie tied winner,
    response (runTally (H:=clearRuntime) oneCorrupt (envAt 10 "") noFault admin 1)
    = TallyDone summary results tie tied winner
    /\ totalVotes summary = 2%nat
    /\ totalOf results = 1%nat.
Proof.
  do 5 eexists. split; [reflexivity|]. split; [reflexivity|].
  apply (tally_adds_up (H:=clearRuntime) oneCorrupt (envAt 10 "") noFault admin 1 _ _ _ _ _
           eq_refl).
Defined.

(** ** The snapshot of a tally *)

Lemma ResultRow_eta (r : ResultRow) :
  {| total_votes := total_votes r; results_json := results_json r;
     proclaimed := proclaimed r; proclaimed_at := proclaimed_at r;
     winner_id := winner_id r; winner_name := winner_name r;
     updated_at := updated_at r |} = r.
Proof. by destruct r. Qed.

Lemma touch_fields now old new :
  total_votes (touch now old new) = total_votes new
  /\ results_json (touch now old new) = results_json new
  /\ proclaimed (touch now old new) = proclaimed new
  /\ proclaimed_at (touch now old new) = proclaimed_at new
  /\ winner_id (touch now old new) = winner_id new
  /\ winner_name (touch now old new) = winner_name new.
Proof. unfold touch. destruct (decide (old = new)) as [->|]; done. Qed.

Lemma touch_same now r : touch now r r = r.
Proof. unfold touch. by destruct (decide (r = r)). Qed.

(** The row that the upsert of a tally leaves. *)
Lemma upsertResult_row now election total payload wid wname st :
  exists row,
    upsertResult now election total payload wid wname st
    = withResults st (<[election := row]> (election_results st))
    /\ total_votes row = total
    /\ results_json row = payload
    /\ winner_id row = wid
    /\ winner_name row = wname
    /\ proclaimed row
       = match election_results st !! election with
         | Some old => proclaimed old
         | None => false
         end
    /\ proclaimed_at row
       = match election_results st !! election with
         | Some old => proclaimed_at old
         | None => None
         end.
Proof.
  unfold upsertResult. destruct (election_results st !! election) as [old|].
  - eexists. split; [reflexivity|].
    match goal with |- context [touch now old ?n] =>
      destruct (touch_fields now old n) as (-> & -> & -> & -> & -> & ->) end.
    done.
  - eexists. split; [reflexivity|]. done.
Qed.

Lemma upsertResult_again now now' election total payload wid wname st :
  upsertResult now' election total payload wid wname
    (upsertResult now election total payload wid wname st)
  = upsertResult now election total payload wid wname st.
Proof.
  destruct (upsertResult_row now election total payload wid wname st)
    as (row & -> & Ht & Hp & Hw & Hn & _).
  unfold upsertResult at 1. cbn [election_results withResults].
  rewrite lookup_insert. rewrite decide_True by done.
  replace {| total_votes := total; results_json := payload;
             proclaimed := proclaimed row; proclaimed_at := proclaimed_at row;
             winner_id := wid; winner_name := wname; updated_at := updated_at row |}
    with row by (rewrite <- Ht, <- Hp, <- Hw, <- Hn; symmetry; apply ResultRow_eta).
  rewrite touch_same. unfold withResults. cbn. by rewrite insert_insert_eq.
Qed.

Lemma persistResults_noFault election upsert st :
  persistResults noFault election upsert st = (upsert st, [EffUpsertResult election]).
Proof. reflexivity. Qed.

Section Snapshot.
Context `{NodeRuntime}.

(** X16.  What a tally whose upsert goes through has answered is what the
    results route shows afterwards to every reader who gets through its
    checks: the same lines, tie and tied candidates and the same total.
    The winner is shown when the identifier of the first line reads as a
    number other than zero.  A proclamation made before the tally stays. *)
Theorem tally_then_results st env user election reader
    summary results tie tied winner :
  response (runTally st env noFault user election)
  = TallyDone summary results tie tied winner ->
  readerMayRead st reader election = true ->
  exists updatedAt,
    getResults (final (runTally st env noFault user election)) reader election
    = ResultsFound (totalVotes summary)
        {| rp_list := results; rp_tie := tie; rp_tiedCandidates := tied |}
        (match election_results st !! election with
         | Some old => proclaimed old
         | None => false
         end)
        (match election_results st !! election with
         | Some old => proclaimed_at old
         | None => None
         end)
        (storedWinner winner) updatedAt.
Proof.
  intros Hdone Hread.
  pose proof (runTally_done _ _ _ _ _ _ _ _ _ _ Hdone) as Hparts. cbn zeta in Hparts.
  destruct Hparts as (Hadmin & Hcons & Hres & Htie & Htied & Hwin & Hsum).
  revert Hdone. unfold runTally. rewrite Hadmin, Hcons, Nat.eqb_refl.
  cbn [negb answer response final]. rewrite persistResults_noFault. cbn [fst].
  intros [= Hs <- <- <- <-].
  match goal with |- context [upsertResult ?n ?e ?t ?p ?wi ?wn st] =>
    destruct (upsertResult_row n e t p wi wn st)
      as (row & -> & Ht & Hp & Hw & Hn & Hpr & Hpa) end.
  exists (updated_at row).
  unfold getResults.
  assert (Hgate : (if isAdmin reader && truthyId (user_institution_id reader)
                   then assertAdminCanAccessElection
                          (withResults st (<[election := row]> (election_results st)))
                          reader election
                   else None) = None).
  { unfold readerMayRead in Hread. rewrite access_withResults.
    destruct (isAdmin reader && truthyId (user_institution_id reader)); [|done].
    by destruct (assertAdminCanAccessElection st reader election). }
  rewrite Hgate. cbn [election_results withResults]. rewrite lookup_insert.
  rewrite decide_True by done.
  unfold foundResults, winnerOfRow. rewrite Ht, Hp, Hw, Hn, Hpr, Hpa, <- Hs.
  cbn [totalVotes]. f_equal.
  unfold storedWinner. destruct (winnerOf _) as [w|]; [|done].
  cbn. by destruct (Js.parseInt (candidateId w)).
Qed.

(** X17.  Running the tally again right after a tally answers the same and
    writes nothing new, whatever the time: the snapshot, with its date of
    last change, stays as the first run left it. *)
Theorem tally_again_changes_nothing st env env' user election :
  let o := runTally st env noFault user election in
  response (runTally (final o) env' noFault user election) = response o
  /\ final (runTally (final o) env' noFault user election) = final o.
Proof.
  cbn zeta. unfold runTally.
  destruct (isAdmin user) eqn:Hadmin; cbn [negb answer final response]; [|done].
  destruct (negb (countVoted st election =? _)%nat) eqn:Hcons;
    cbn [answer final response].
  { by rewrite Hcons. }
  rewrite !persistResults_noFault. cbn [fst].
  match goal with |- context [upsertResult ?n ?e ?t ?p ?wi ?wn st] =>
    set (st1 := upsertResult n e t p wi wn st) end.
  assert (Hb : Ballot_find st1 (Js.String_of_Z election)
               = Ballot_find st (Js.String_of_Z election)) by reflexivity.
  assert (Hv : countVoted st1 election = countVoted st election) by reflexivity.
  assert (Hm : candidateMapOf st1 election = candidateMapOf st election) by reflexivity.
  rewrite Hb, Hv, Hm, Hcons. cbn [answer final response]. split; [done|].
  unfold st1. apply upsertResult_again.
Qed.

End Snapshot.

Lemma tally_then_results_witness :
  exists updatedAt,
    getResults (final (runTally (H:=clearRuntime) xxyPoll (envAt 10 "") noFault admin 1))
      admin 1
    = ResultsFound 3
        {| rp_list := [entry "1" "X" 2 "66.67"; entry "2" "Y" 1 "33.33"];
           rp_tie := false;
           rp_tiedCandidates := [entry "1" "X" 2 "66.67"] |}
        false None (Some (1, Some "X")) updatedAt.
Proof.
  apply (tally_then_results (H:=clearRuntime) xxyPoll (envAt 10 "") admin 1 admin
           {| totalVotes := 3; decryptedVotes := 3; failedDecryptions := 0 |}
           [entry "1" "X" 2 "66.67"; entry "2" "Y" 1 "33.33"] false
           [entry "1" "X" 2 "66.67"] (Some (entry "1" "X" 2 "66.67")) eq_refl eq_refl).
Defined.

(** ** What a voter reads *)

Section Status.
Context `{NodeRuntime}.

(** X18.  The status route and the vote handler read the same record: a
    voter shown as not eligible is refused as such, a voter shown as having
    voted is told so, and after a receipt the status shows the voter as
    eligible, having voted at the time of the vote. *)
Theorem my_status_agrees_with_vote st env req :
  rq_electionId req <> 0 -> rq_candidateId req <> 0 ->
  let s := myStatus st (rq_voterId req) (rq_electionId req) in
  let o := submitVote st env req in
  (eligible s = false <-> response o = VoteIneligible)
  /\ (hasVoted s = true <-> response o = VoteAlreadyVoted)
  /\ (forall h, response o = VoteReceipt h ->
        eligible s = true /\ hasVoted s = false
        /\ myStatus (final o) (rq_voterId req) (rq_electionId req)
           = {| eligible := true; hasVoted := true; votedAt := Some (NOW env) |}).
Proof.
  intros He Hc. cbn zeta.
  apply Z.eqb_neq in He, Hc.
  split; [|split].
  - unfold myStatus, submitVote. rewrite He, Hc. cbn [orb].
    destruct (selectVotingRecords st _ _) as [|r rest]; [done|].
    cbn [eligible]. split; [done|].
    destruct (has_voted r); [done|].
    destruct (selectActiveElection st _); [done|].
    destruct (selectCandidate st _ _); [done|].
    destruct (encryptVote _ _ _); [done|].
    destruct (Ballot_save st _); [done|].
    by destruct (mark_rejected env).
  - unfold myStatus, submitVote. rewrite He, Hc. cbn [orb].
    destruct (selectVotingRecords st _ _) as [|r rest]; [done|].
    cbn [hasVoted]. destruct (has_voted r); [done|]. split; [done|].
    destruct (selectActiveElection st _); [done|].
    destruct (selectCandidate st _ _); [done|].
    destruct (encryptVote _ _ _); [done|].
    destruct (Ballot_save st _); [done|].
    by destruct (mark_rejected env).
  - intros h Hreceipt.
    destruct (submitVote_receipt_final st env req h Hreceipt)
      as (b & r & rest & Hsel & Hr & Hfinal).
    unfold myStatus at 1 2. rewrite Hsel. cbn [eligible hasVoted].
    split; [done|]. split; [done|].
    unfold myStatus. rewrite Hfinal, select_after_update, select_withBallots, Hsel.
    cbn [map]. apply select_forPair in Hsel as Hpair.
    unfold setVoted. by rewrite Hpair.
Qed.

(** X19.  The summary of an election never shows more voters having voted
    than voters eligible, and a receipt raises the number of voters having
    voted by one and leaves the number of eligible voters, the pairs
    (voter, election) being unique. *)
Theorem summary_counts st user election row total voted :
  electionSummary st user election = Summary row total voted ->
  (voted <= total)%nat
  /\ forall env req h,
       uniquePairs st ->
       rq_electionId req = election ->
       response (submitVote st env req) = VoteReceipt h ->
       electionSummary (final (submitVote st env req)) user election
       = Summary row total (S voted).
Proof.
  unfold electionSummary.
  destruct (if isAdmin user && truthyId (user_institution_id user)
            then assertAdminCanAccessElection st user election else None) eqn:Hgate;
    [done|].
  destruct (findElection st election) as [row'|] eqn:Hfind; [|done].
  intros [= -> <- <-]. split.
  - unfold countVoted, countEligible.
    induction (voting_records st) as [|x xs IH]; [done|].
    cbn [List.filter]. destruct (vr_election_id x =? election); cbn [andb length].
    + destruct (has_voted x); cbn [length]; lia.
    + lia.
  - intros env req h Hu He Hreceipt.
    destruct (submitVote_receipt_final st env req h Hreceipt)
      as (b & r & rest & Hsel & Hr & Hfinal).
    rewrite Hfinal.
    { change (findElection (updateVotingRecord _ _ _ _) election)
        with (findElection st election).
      change (assertAdminCanAccessElection (updateVotingRecord _ _ _ _) user election)
        with (assertAdminCanAccessElection st user election).
      rewrite Hgate, Hfind. f_equal.
      * unfold countEligible. cbn [voting_records updateVotingRecord withBallots].
        clear. induction (voting_records st) as [|x xs IH]; [done|].
        cbn [map List.filter].
        assert (Hid : vr_election_id (setVoted (NOW env) (rq_voterId req) (rq_electionId req) x)
                      = vr_election_id x).
        { unfold setVoted. by destruct (forPair _ _ x). }
        rewrite Hid. destruct (vr_election_id x =? _); cbn [length]; by rewrite IH.
      * unfold countVoted. cbn [voting_records updateVotingRecord withBallots].
        rewrite (voted_after_mark _ _ _ _ r rest election Hu Hsel Hr).
        rewrite He, Z.eqb_refl. lia. }
Qed.

End Status.

Lemma my_status_agrees_with_vote_witness :
  myStatus (final (submitVote (H:=clearRuntime) pollOpen (envAt 10 "aa") (ballotRequest 1 1)))
    1 1
  = {| eligible := true; hasVoted := true; votedAt := Some 10 |}.
Proof.
  destruct (my_status_agrees_with_vote (H:=clearRuntime) pollOpen (envAt 10 "aa")
              (ballotRequest 1 1)) as (_ & _ & Hafter); [discriminate..|].
  exact (proj2 (proj2 (Hafter _ eq_refl))).
Defined.

Lemma summary_counts_witness :
  electionSummary pollOpen admin 1 = Summary (electionRow 1 "active" (Some 1)) 2 0
  /\ electionSummary
       (final (submitVote (H:=clearRuntime) pollOpen (envAt 10 "aa") (ballotRequest 1 1)))
       admin 1
     = Summary (electionRow 1 "active" (Some 1)) 2 1.
Proof.
  split; [reflexivity|].
  destruct (summary_counts (H:=clearRuntime) pollOpen admin 1
              (electionRow 1 "active" (Some 1)) 2 0 eq_refl) as [_ Hnext].
  apply (Hnext (envAt 10 "aa") (ballotRequest 1 1) "1-1-2025-11-01T16:36:00.000Z-aa");
    [|reflexivity..].
  unfold uniquePairs. cbn. apply NoDup_cons. split; [|apply NoDup_singleton].
  intros Hin%list_elem_of_In. destruct Hin as [[=]|[]].
Defined.

(** ** Deletion of an election *)

Lemma deleteElection_ok st mongoFails user election m st' :
  deleteElection st mongoFails user election = (AdminOk m, st') ->
  voting_records st'
  = List.filter (fun r => negb (vr_election_id r =? election)) (voting_records st)
  /\ elections st' = List.filter (fun e => negb (el_id e =? election)) (elections st)
  /\ candidates st'
     = List.filter (fun c => negb (cand_election_id c =? election)) (candidates st)
  /\ ballots st'
     = (if mongoFails then ballots st
        else List.filter
               (fun b => negb (String.eqb (b_electionId b) (Js.String_of_Z election)))
               (ballots st))
  /\ election_results st' = delete election (election_results st).
Proof.
  unfold deleteElection.
  destruct (negb _); [done|].
  destruct (assertAdminCanAccessElection _ _ _); [done|].
  destruct (selectElection _ _); [done|].
  by intros [= _ <-].
Qed.

(** X22.  Deleting an election removes its row, its candidates, its
    eligibility records and its snapshot, and nothing of another election.
    Its ballots leave the vault too, unless the vault fails: then the
    election is gone all the same, and all its ballots stay behind. *)
Theorem delete_election_removes_it st mongoFails user election m st' :
  deleteElection st mongoFails user election = (AdminOk m, st') ->
  (selectElection st' election = []
   /\ countEligible st' election = 0%nat
   /\ List.filter (fun c => cand_election_id c =? election) (candidates st') = []
   /\ election_results st' !! election = None
   /\ (forall reader,
         getResults st' reader election
         = if isAdmin reader && truthyId (user_institution_id reader)
           then ResultsDenied AccessNoElection else ResultsNotFound))
  /\ Ballot_find st' (Js.String_of_Z election)
     = (if mongoFails then Ballot_find st (Js.String_of_Z election) else [])
  /\ forall election',
       election' <> election ->
       selectElection st' election' = selectElection st election'
       /\ (forall v, selectVotingRecords st' v election' = selectVotingRecords st v election')
       /\ List.filter (fun c => cand_election_id c =? election') (candidates st')
          = List.filter (fun c => cand_election_id c =? election') (candidates st)
       /\ Ballot_find st' (Js.String_of_Z election')
          = Ballot_find st (Js.String_of_Z election')
       /\ election_results st' !! election' = election_results st !! election'.
Proof.
  intros (Hr & He & Hc & Hb & Hres)%deleteElection_ok.
  split; [|split].
  - assert (Hnone : election_results st' !! election = None).
    { rewrite Hres. apply lookup_delete_eq. }
    split; [|split; [|split; [|split; [done|]]]].
    + unfold selectElection. rewrite He. apply filter_excluded.
      intros x Hx. by rewrite Hx.
    + unfold countEligible. rewrite Hr. rewrite filter_excluded; [done|].
      intros x Hx. by rewrite Hx.
    + rewrite Hc. apply filter_excluded. intros x Hx. by rewrite Hx.
    + intros reader. unfold getResults. rewrite Hnone.
      destruct (isAdmin reader && truthyId (user_institution_id reader)) eqn:Hs; [|done].
      apply andb_true_iff in Hs as [Ha Ht].
      unfold assertAdminCanAccessElection. rewrite Ha, Ht. cbn [negb orb].
      change (findElection st' election) with (head (selectElection st' election)).
      unfold selectElection. rewrite He, filter_excluded; [done|].
      intros x Hx. by rewrite Hx.
  - unfold Ballot_find. rewrite Hb. destruct mongoFails; [done|].
    apply filter_excluded. intros b Hx. by rewrite Hx.
  - intros election' Hne. split; [|split; [|split; [|split]]].
    + unfold selectElection. rewrite He. apply filter_implied.
      intros x Hx%Z.eqb_eq. rewrite Hx. by destruct (Z.eqb_spec election' election).
    + intros v. unfold selectVotingRecords. rewrite Hr. apply filter_implied.
      intros x [_ Hx%Z.eqb_eq]%andb_true_iff. rewrite Hx.
      by destruct (Z.eqb_spec election' election).
    + rewrite Hc. apply filter_implied.
      intros x Hx%Z.eqb_eq. rewrite Hx. by destruct (Z.eqb_spec election' election).
    + unfold Ballot_find. rewrite Hb. destruct mongoFails; [done|].
      apply filter_implied. intros b Hx%String.eqb_eq. rewrite Hx, String_of_Z_eqb.
      by destruct (Z.eqb_spec election' election).
    + rewrite Hres. by apply lookup_delete_ne.
Qed.

Lemma delete_election_removes_it_witness :
  let st' := snd (deleteElection xxyPoll true admin 1) in
  selectElection st' 1 = []
  /\ length (Ballot_find st' (Js.String_of_Z 1)) = 3%nat
  /\ getResults st' admin 1 = ResultsDenied AccessNoElection.
Proof.
  intros st'.
  destruct (delete_election_removes_it xxyPoll true admin 1
              "Scrutin supprimé avec succès" st' eq_refl)
    as ((Hgone & _ & _ & _ & Hread) & Hvault & _).
  split; [exact Hgone|]. split; [by rewrite Hvault|]. exact (Hread admin).
Defined.

(** ** What an error shows *)

(** X23.  In production the status and the message of the answer to an
    error never carry the text of the error: they depend on the name, the
    code and the status of the error only, and the message is one of seven
    fixed sentences.  Outside production the text of an error that has none
    of the known names and codes is sent as it is. *)
Theorem production_hides_error_text (err : JsError) :
  (forall text,
      errorHandler "production"
        {| err_name := err_name err; err_code := err_code err;
           err_statusCode := err_statusCode err; err_status := err_status err;
           err_message := text |}
      = errorHandler "production" err)
  /\ In (http_message (errorHandler "production" err))
       ["Données invalides"; "Token invalide"; "Token expiré";
        "Cette ressource existe déjà"; "Référence invalide";
        "Erreur de base de données"; "Une erreur est survenue"]
  /\ (forall node_env,
        String.eqb node_env "production" = false ->
        http_message (errorHandler node_env err) = err_message err
        \/ In (http_message (errorHandler node_env err))
             ["Données invalides"; "Token invalide"; "Token expiré";
              "Cette ressource existe déjà"; "Référence invalide";
              "Erreur de base de données"]).
Proof.
  split; [|split].
  - intros text. unfold errorHandler.
    cbn [err_name err_code err_statusCode err_status err_message].
    change (String.eqb "production" "production") with true. cbn iota. done.
  - unfold errorHandler.
    change (String.eqb "production" "production") with true. cbn iota.
    repeat (match goal with |- context [if ?b then _ else _] => destruct b end;
            [cbn; tauto|]).
    cbn; tauto.
  - intros node_env Hdev. unfold errorHandler. rewrite Hdev.
    repeat (match goal with |- context [if ?b then _ else _] => destruct b end;
            [right; cbn; tauto|]).
    by left.
Qed.

(** ** From the ballot box to the count *)

Section Counted.
Context `{NodeRuntime}.

Lemma countFor_app electionId bs1 bs2 k :
  countFor electionId (bs1 ++ bs2) k
  = (countFor electionId bs1 k + countFor electionId bs2 k)%nat.
Proof. unfold countFor. by rewrite List.filter_app, length_app. Qed.

(** X24.  A vote that got its receipt is counted, once and for the chosen
    candidate: in the ballots of the election the handler leaves, the
    number of those that decrypt to the candidate is one more than before,
    and the number for every other candidate is as before.  The runtime is
    taken to decrypt what it encrypted, to read back hexadecimal, and to
    parse what it wrote for this vote. *)
Theorem a_vote_is_counted st env req h :
  (forall key text ct tag,
      aes_256_gcm_encrypt key (random_iv env) text = inr (ct, tag) ->
      aes_256_gcm_decrypt key (random_iv env) tag ct = Some text) ->
  (forall b, Buffer_from_hex (toString_hex b) = b) ->
  JSON_parse_vote (JSON_stringify_vote (voteDataOf env req)) = Some (voteDataOf env req) ->
  (forall enc,
      encryptVote (voteDataOf env req) (Js.String_of_Z (rq_electionId req)) (random_iv env)
      = inr enc ->
      JSON_parse (JSON_stringify enc) = Some enc) ->
  response (submitVote st env req) = VoteReceipt h ->
  let electionId := Js.String_of_Z (rq_electionId req) in
  forall k,
    countFor electionId (Ballot_find (final (submitVote st env req)) electionId) k
    = (countFor electionId (Ballot_find st electionId) k
       + if String.eqb (Js.String_of_Z (rq_candidateId req)) k then 1 else 0)%nat.
Proof.
  intros Hopen Hhex Hvote Henvelope Hreceipt electionId k. subst electionId.
  pose proof (submitVote_receipt_inv _ _ _ _ Hreceipt)
    as (_ & _ & _ & _ & Hmark & enc & Henc & Hsave & _).
  assert (Hfinal : final (submitVote st env req)
                   = updateVotingRecord
                       (withBallots st (ballots st ++ [ballotOf env req enc]))
                       (NOW env) (rq_voterId req) (rq_electionId req)).
  { revert Hreceipt. unfold submitVote.
    destruct (_ || _); [done|].
    destruct (selectVotingRecords st _ _) as [|r rest]; [done|].
    destruct (has_voted r); [done|].
    destruct (selectActiveElection st _); [done|].
    destruct (selectCandidate st _ _); [done|].
    rewrite Henc, Hsave, Hmark. done. }
  rewrite Hfinal. unfold Ballot_find at 1.
  cbn [ballots updateVotingRecord withBallots].
  rewrite List.filter_app. fold (Ballot_find st (Js.String_of_Z (rq_electionId req))).
  rewrite countFor_app. f_equal.
  cbn [List.filter b_electionId ballotOf].
  rewrite String.eqb_refl. unfold countFor. cbn [List.filter].
  unfold decryptsTo, decryptBallot. cbn [encryptedVote ballotOf].
  rewrite (Henvelope enc Henc).
  rewrite (cipher_round_trip _ _ _ _ Hopen Hhex Hvote Henc).
  cbn [vd_candidateId voteDataOf].
  by destruct (String.eqb (Js.String_of_Z (rq_candidateId req)) k).
Qed.

End Counted.

Lemma a_vote_is_counted_witness :
  let o := submitVote (H:=readBackRuntime) pollOpen (envAt 10 "aa") (ballotRequest 1 2) in
  response o = VoteReceipt "1-1-2025-11-01T16:36:00.000Z-aa"
  /\ countFor (H:=readBackRuntime) (Js.String_of_Z 1)
       (Ballot_find (final o) (Js.String_of_Z 1)) "2" = 1%nat
  /\ countFor (H:=readBackRuntime) (Js.String_of_Z 1)
       (Ballot_find (final o) (Js.String_of_Z 1)) "1" = 0%nat.
Proof.
  intros o. split; [reflexivity|].
  assert (Hcount := a_vote_is_counted (H:=readBackRuntime) pollOpen (envAt 10 "aa")
                      (ballotRequest 1 2) "1-1-2025-11-01T16:36:00.000Z-aa").
  cbn zeta in Hcount.
  split; [apply (Hcount ltac:(by intros ? ? ? ? [= <- <-]) ltac:(done) eq_refl
                   ltac:(by intros ? [= <-]) eq_refl "2")
         |apply (Hcount ltac:(by intros ? ? ? ? [= <- <-]) ltac:(done) eq_refl
                   ltac:(by intros ? [= <-]) eq_refl "1")].
Defined.
